(** * Opshub API: ticket lifecycle, tenant scoping and audit sink

    A shallow embedding of the request handlers of
    [apps/api/src/routes/tickets.js], of the member handlers and the slug of
    the organisation routes, of [middleware/auth.js], [middleware/errorHandler.js]
    and [lib/audit.js], over an explicit model of the relational store
    (tables as finite maps, the unique index on memberships as the key of
    the map).

    Conventions of the embedding:
    - JavaScript strings are [string]; status and role names stay strings,
      exactly as the handlers compare them ([===], [Array.includes]).  A
      name of which the slug is taken is the list of its UTF-16 code
      units.
    - a [Date] is its epoch time, in [Z]; [new Date()] is the argument
      [now] of a handler; the identifier the store generates for a new
      ticket is the argument [newId].
    - a handler is a function of the store that returns a completion (a
      value or a thrown error) and the store it leaves behind.
    - the joined rows of [include:] (creator, assignee, approver,
      attachments) are not part of a returned ticket. *)

From stdpp Require Import base option list strings gmap fin_maps sorting.
From Stdlib Require Import Ascii ZArith Lia.

Open Scope string_scope.
Open Scope Z_scope.

(** ** middleware/errorHandler.js *)

Module Err.

(** The [details] of an [AppError]: absent, the failing fields of a zod
    parse ([result.error.flatten().fieldErrors], by field name), or the
    object [{ currentStatus, newStatus, validTransitions }] of a refused
    transition. *)
Inductive Details :=
| null
| fieldErrors (fields : list string)
| transition (currentStatus newStatus : string) (validTransitions : list string).

Record AppError := {
  message : string;
  status : Z;
  code : string;
  details : Details
}.

End Err.

Definition ValidationError (message : string) (details : Err.Details) : Err.AppError :=
  {| Err.message := message; Err.status := 400;
     Err.code := "VALIDATION_ERROR"; Err.details := details |}.

Definition UnauthorizedError (message : string) : Err.AppError :=
  {| Err.message := message; Err.status := 401;
     Err.code := "UNAUTHORIZED"; Err.details := Err.null |}.

Definition ForbiddenError (message : string) : Err.AppError :=
  {| Err.message := message; Err.status := 403;
     Err.code := "FORBIDDEN"; Err.details := Err.null |}.

Definition NotFoundError (message : string) : Err.AppError :=
  {| Err.message := message; Err.status := 404;
     Err.code := "NOT_FOUND"; Err.details := Err.null |}.

(** What a [throw] carries: an [AppError] of the application, or the error
    the store client raises for a statement it cannot execute (a missing
    row on delete, a violated foreign key or unique index). *)
Inductive Thrown :=
| AppErr (e : Err.AppError)
| StoreErr (reason : string).

Inductive Completion (A : Type) :=
| Return (a : A)
| Throw (e : Thrown).
Arguments Return {A} a.
Arguments Throw {A} e.

(** ** The enumerations of the schema (SQL migration) *)

Inductive Role := OWNER | ADMIN | AGENT | VIEWER.

Definition role_name (r : Role) : string :=
  match r with
  | OWNER => "OWNER" | ADMIN => "ADMIN" | AGENT => "AGENT" | VIEWER => "VIEWER"
  end.

Inductive TicketStatus :=
| OPEN | PENDING_APPROVAL | APPROVED | IN_PROGRESS | RESOLVED | CLOSED.

Definition status_name (s : TicketStatus) : string :=
  match s with
  | OPEN => "OPEN"
  | PENDING_APPROVAL => "PENDING_APPROVAL"
  | APPROVED => "APPROVED"
  | IN_PROGRESS => "IN_PROGRESS"
  | RESOLVED => "RESOLVED"
  | CLOSED => "CLOSED"
  end.

Definition all_statuses : list TicketStatus :=
  [OPEN; PENDING_APPROVAL; APPROVED; IN_PROGRESS; RESOLVED; CLOSED].

(** [Array.prototype.includes] on an array of strings. *)
Definition includes (l : list string) (x : string) : bool :=
  bool_decide (x ∈ l).

(** ** routes/tickets.js: validateStatusTransition *)

(** The object literal [transitionRules], as its own keys in source order.
    [transitionRules[currentStatus] || []] is [validTransitions]: a key
    that is absent yields the empty array.  (Keys inherited from
    [Object.prototype] are not modelled: [currentStatus] is read from a
    column of type [TicketStatus].) *)
Definition transitionRules : list (string * list string) :=
  [ ("OPEN", ["PENDING_APPROVAL"; "IN_PROGRESS"; "CLOSED"]);
    ("PENDING_APPROVAL", ["APPROVED"; "REJECTED"; "OPEN"]);
    ("APPROVED", ["IN_PROGRESS"; "CLOSED"]);
    ("IN_PROGRESS", ["RESOLVED"; "CLOSED"]);
    ("RESOLVED", ["CLOSED"]);
    ("CLOSED", []) ].

Fixpoint own_property {A} (o : list (string * A)) (k : string) : option A :=
  match o with
  | [] => None
  | (k', v) :: o' => if bool_decide (k' = k) then Some v else own_property o' k
  end.

Definition validTransitions (currentStatus : string) : list string :=
  default [] (own_property transitionRules currentStatus).

Definition validateStatusTransition
    (currentStatus newStatus userRole : string) : Completion bool :=
  if bool_decide (userRole = "VIEWER") then
    Throw (AppErr (ForbiddenError "Viewers cannot change ticket status"))
  else if negb (includes (validTransitions currentStatus) newStatus) then
    Throw (AppErr (ValidationError
      ("Cannot transition from " +:+ currentStatus +:+ " to " +:+ newStatus)
      (Err.transition currentStatus newStatus (validTransitions currentStatus))))
  else Return true.

(** ** The store *)

Module Ticket.
(** A row of the table [Ticket]. *)
Record t := {
  id : string;
  title : string;
  description : string;
  organizationId : string;
  status : string;
  requiresApproval : bool;
  creatorId : string;
  assigneeId : option string;
  approvedById : option string;
  approvedAt : option Z;
  createdAt : Z;
  updatedAt : Z;
  resolvedAt : option Z;
  closedAt : option Z
}.
End Ticket.

(** A value stored under a key of the audit [metadata] object. *)
Inductive Value :=
| undefined
| null
| boolean (b : bool)
| str (s : string).

Module Audit.
(** The [data] handed to [prisma.auditLog.create]. *)
Record data := {
  organizationId : string;
  userId : string;
  action : string;
  ticketId : option string;
  metadata : list (string * Value)
}.
End Audit.

(** The tables the handlers touch.  [orgMembership] is keyed by the pair
    (userId, organizationId) of its unique index and holds the role;
    [user] holds the ids of the table [User]; [logger] collects the
    messages of [logger.error]. *)
Record Db := {
  user : gset string;
  orgMembership : gmap (string * string) string;
  ticket : gmap string Ticket.t;
  auditLog : list Audit.data;
  logger : list string
}.

Definition with_orgMembership (m : gmap (string * string) string) (db : Db) : Db :=
  {| user := user db; orgMembership := m; ticket := ticket db;
     auditLog := auditLog db; logger := logger db |}.

Definition with_ticket (t : gmap string Ticket.t) (db : Db) : Db :=
  {| user := user db; orgMembership := orgMembership db; ticket := t;
     auditLog := auditLog db; logger := logger db |}.

Definition with_auditLog (a : list Audit.data) (db : Db) : Db :=
  {| user := user db; orgMembership := orgMembership db; ticket := ticket db;
     auditLog := a; logger := logger db |}.

Definition with_logger (l : list string) (db : Db) : Db :=
  {| user := user db; orgMembership := orgMembership db; ticket := ticket db;
     auditLog := auditLog db; logger := l |}.

(** ** Handlers: state and exceptions *)

Definition Handler (A : Type) : Type := Db → Completion A * Db.

Definition ret {A} (a : A) : Handler A := λ db, (Return a, db).

Definition throw {A} (e : Err.AppError) : Handler A := λ db, (Throw (AppErr e), db).

Definition raise {A} (e : Thrown) : Handler A := λ db, (Throw e, db).

Definition bind {A B} (m : Handler A) (k : A → Handler B) : Handler B :=
  λ db, match m db with
        | (Return a, db') => k a db'
        | (Throw e, db') => (Throw e, db')
        end.

Definition gets {A} (f : Db → A) : Handler A := λ db, (Return (f db), db).

Definition modify (f : Db → Db) : Handler unit := λ db, (Return tt, f db).

(** A pure computation that may throw, run inside a handler. *)
Definition lift {A} (c : Completion A) : Handler A := λ db, (c, db).

Declare Scope handler_scope.
Delimit Scope handler_scope with handler.
Bind Scope handler_scope with Handler.
Notation "'let*' x := m 'in' k" := (bind m (λ x, k))
  (at level 10, x pattern, m at level 100, k at level 200) : handler_scope.
Notation "m ;;; k" := (bind m (λ _, k))
  (at level 100, k at level 200, right associativity) : handler_scope.
Open Scope handler_scope.

(** ** middleware/auth.js *)

(** The [Authorization] header after [verifyAccessToken]: absent or not a
    bearer token, a token the verification refuses, or a token whose
    payload names [userId]. *)
Inductive Authorization :=
| noToken
| invalidToken
| bearer (userId : string).

(** [authenticate]: yields [req.user.id]. *)
Definition authenticate (h : Authorization) : Handler string :=
  match h with
  | noToken => throw (UnauthorizedError "No token provided")
  | invalidToken => throw (UnauthorizedError "Invalid or expired token")
  | bearer userId =>
      let* found := gets (λ db, bool_decide (userId ∈ user db)) in
      if negb found then throw (UnauthorizedError "User not found")
      else ret userId
  end.

(** [prisma.orgMembership.findUnique] on the unique pair. *)
Definition orgMembership_findUnique (userId organizationId : string)
  : Handler (option string) :=
  gets (λ db, orgMembership db !! (userId, organizationId)).

(** [requireOrg]: yields the role of [req.orgMembership].  [orgId] is the
    route parameter; the header [x-organization-id], read only when the
    parameter is empty, is taken to be absent. *)
Definition requireOrg (userId orgId : string) : Handler string :=
  if bool_decide (orgId = "") then throw (ForbiddenError "Organization ID required")
  else
    let* membership := orgMembership_findUnique userId orgId in
    match membership with
    | None => throw (ForbiddenError "Access denied to this organization")
    | Some role => ret role
    end.

Fixpoint join (sep : string) (l : list string) : string :=
  match l with
  | [] => ""
  | [x] => x
  | x :: l' => x +:+ sep +:+ join sep l'
  end.

(** [hasRole(membership, allowedRoles)]. *)
Definition hasRole (role : string) (allowedRoles : list string) : bool :=
  includes allowedRoles role.

(** [requireRole(allowedRoles)], after [requireOrg] has set
    [req.orgMembership]. *)
Definition requireRole (allowedRoles : list string) (userRole : string) : Handler unit :=
  if negb (includes allowedRoles userRole) then
    throw (ForbiddenError ("Requires one of: " +:+ join ", " allowedRoles))
  else ret tt.

(** ** JavaScript objects and truthiness *)

(** [o[k] = v] on an object held as its own keys in insertion order. *)
Fixpoint assign {A} (o : list (string * A)) (k : string) (v : A) : list (string * A) :=
  match o with
  | [] => [(k, v)]
  | (k', v') :: o' =>
      if bool_decide (k' = k) then (k, v) :: o' else (k', v') :: assign o' k v
  end.

(** Truthiness of a string that may be [undefined] or [null]. *)
Definition truthy (s : option string) : bool :=
  match s with
  | Some s => negb (bool_decide (s = ""))
  | None => false
  end.

Definition truthy_value (v : option Value) : bool :=
  match v with
  | Some (str s) => negb (bool_decide (s = ""))
  | Some (boolean b) => b
  | _ => false
  end.

(** A string or [null], as a metadata value. *)
Definition nullable (s : option string) : Value :=
  match s with
  | Some s => str s
  | None => null
  end.

(** A string or [undefined], as a metadata value. *)
Definition optional (s : option string) : Value :=
  match s with
  | Some s => str s
  | None => undefined
  end.

(** [s.length]; a character of a [string] stands for a UTF-16 code
    unit. *)
Definition strlen (s : string) : Z := Z.of_nat (String.length s).

(** The six names of [z.enum([...])] in the list and update schemas. *)
Definition statusEnum : list string :=
  ["OPEN"; "PENDING_APPROVAL"; "APPROVED"; "IN_PROGRESS"; "RESOLVED"; "CLOSED"].

(** ** Requests and the update object of routes/tickets.js *)

Module Query.
(** [req.query] of the list route; [page] and [limit] after the coercion
    to a number (a value that is not an integer fails [.int()] and is not
    represented). *)
Record t := {
  status : option string;
  assigneeId : option string;
  creatorId : option string;
  page : option Z;
  limit : option Z
}.
End Query.

Module CreateBody.
(** [req.body] of the create route. *)
Record t := {
  title : option string;
  description : option string;
  assigneeId : option string;
  requiresApproval : option bool
}.
End CreateBody.

Module PatchBody.
(** [req.body] of the update route.  [assigneeId] is absent ([None]),
    [null] ([Some None]) or a string. *)
Record t := {
  title : option string;
  description : option string;
  status : option string;
  assigneeId : option (option string);
  requiresApproval : option bool
}.
End PatchBody.

Module UpdateData.
(** The object [updateData] of the update route: a field is [None] until
    the handler assigns it. *)
Record t := {
  title : option string;
  description : option string;
  status : option string;
  resolvedAt : option Z;
  closedAt : option Z;
  assigneeId : option (option string);
  requiresApproval : option bool
}.

Definition empty : t :=
  {| title := None; description := None; status := None; resolvedAt := None;
     closedAt := None; assigneeId := None; requiresApproval := None |}.

Definition set_title (v : string) (u : t) : t :=
  {| title := Some v; description := description u; status := status u;
     resolvedAt := resolvedAt u; closedAt := closedAt u;
     assigneeId := assigneeId u; requiresApproval := requiresApproval u |}.

Definition set_description (v : string) (u : t) : t :=
  {| title := title u; description := Some v; status := status u;
     resolvedAt := resolvedAt u; closedAt := closedAt u;
     assigneeId := assigneeId u; requiresApproval := requiresApproval u |}.

Definition set_status (v : string) (u : t) : t :=
  {| title := title u; description := description u; status := Some v;
     resolvedAt := resolvedAt u; closedAt := closedAt u;
     assigneeId := assigneeId u; requiresApproval := requiresApproval u |}.

Definition set_resolvedAt (v : Z) (u : t) : t :=
  {| title := title u; description := description u; status := status u;
     resolvedAt := Some v; closedAt := closedAt u;
     assigneeId := assigneeId u; requiresApproval := requiresApproval u |}.

Definition set_closedAt (v : Z) (u : t) : t :=
  {| title := title u; description := description u; status := status u;
     resolvedAt := resolvedAt u; closedAt := Some v;
     assigneeId := assigneeId u; requiresApproval := requiresApproval u |}.

Definition set_assigneeId (v : option string) (u : t) : t :=
  {| title := title u; description := description u; status := status u;
     resolvedAt := resolvedAt u; closedAt := closedAt u;
     assigneeId := Some v; requiresApproval := requiresApproval u |}.

Definition set_requiresApproval (v : bool) (u : t) : t :=
  {| title := title u; description := description u; status := status u;
     resolvedAt := resolvedAt u; closedAt := closedAt u;
     assigneeId := assigneeId u; requiresApproval := Some v |}.

Definition key {A} (name : string) (field : option A) : list string :=
  match field with
  | Some _ => [name]
  | None => []
  end.

(** [Object.keys(updateData)]. *)
Definition keys (u : t) : list string :=
  key "title" (title u) ++ key "description" (description u)
  ++ key "status" (status u) ++ key "resolvedAt" (resolvedAt u)
  ++ key "closedAt" (closedAt u) ++ key "assigneeId" (assigneeId u)
  ++ key "requiresApproval" (requiresApproval u).
End UpdateData.

(** ** The zod schemas of routes/tickets.js, as the fields they refuse *)

Definition refuse (name : string) (ok : bool) : list string :=
  if ok then [] else [name].

(** List route: [status] in the enum, [page] a positive integer, [limit]
    an integer from 1 to 100. *)
Definition listSchema (q : Query.t) : list string :=
  refuse "status" (from_option (includes statusEnum) true (Query.status q))
  ++ refuse "page" (from_option (λ p, bool_decide (0 < p)) true (Query.page q))
  ++ refuse "limit"
       (from_option (λ l, bool_decide (1 ≤ l) && bool_decide (l ≤ 100)) true (Query.limit q)).

(** Create route: [title] of 1 to 255 characters and [description] of at
    least one, both required. *)
Definition createSchema (b : CreateBody.t) : list string :=
  refuse "title"
    (from_option (λ s, bool_decide (1 ≤ strlen s) && bool_decide (strlen s ≤ 255)) false
       (CreateBody.title b))
  ++ refuse "description"
       (from_option (λ s, bool_decide (1 ≤ strlen s)) false (CreateBody.description b)).

(** Update route: every field optional. *)
Definition patchSchema (b : PatchBody.t) : list string :=
  refuse "title"
    (from_option (λ s, bool_decide (1 ≤ strlen s) && bool_decide (strlen s ≤ 255)) true
       (PatchBody.title b))
  ++ refuse "description"
       (from_option (λ s, bool_decide (1 ≤ strlen s)) true (PatchBody.description b))
  ++ refuse "status" (from_option (includes statusEnum) true (PatchBody.status b)).

(** [schema.safeParse(...)] followed by the [throw] on [!result.success]. *)
Definition safeParse (fieldErrors : list string) : Handler unit :=
  match fieldErrors with
  | [] => ret tt
  | _ => throw (ValidationError "Validation failed" (Err.fieldErrors fieldErrors))
  end.

(** ** Statements of the store client on the table Ticket *)

Definition ticket_findUnique (id : string) : Handler (option Ticket.t) :=
  gets (λ db, ticket db !! id).

(** The foreign key [Ticket_assigneeId_fkey] on the table [User]. *)
Definition assignee_fkey (a : option string) (db : Db) : bool :=
  match a with
  | Some a => bool_decide (a ∈ user db)
  | None => true
  end.

(** [tx.ticket.create]: the row gets the generated [newId], the column
    defaults of the migration and, as in [touch_updatedAt], the time of the
    statement in [updatedAt]. *)
Definition ticket_create (newId title description organizationId creatorId : string)
    (assigneeId : option string) (requiresApproval : bool) (status : string)
    (now : Z) : Handler Ticket.t :=
  let* taken := gets (λ db, bool_decide (is_Some (ticket db !! newId))) in
  if (taken : bool) then raise (StoreErr "Unique constraint failed: Ticket_pkey")
  else
    let* fk := gets (assignee_fkey assigneeId) in
    if negb fk then raise (StoreErr "Foreign key constraint failed: Ticket_assigneeId_fkey")
    else
      let row :=
        {| Ticket.id := newId; Ticket.title := title;
           Ticket.description := description;
           Ticket.organizationId := organizationId;
           Ticket.status := status;
           Ticket.requiresApproval := requiresApproval;
           Ticket.creatorId := creatorId;
           Ticket.assigneeId := assigneeId;
           Ticket.approvedById := None; Ticket.approvedAt := None;
           Ticket.createdAt := now; Ticket.updatedAt := now;
           Ticket.resolvedAt := None; Ticket.closedAt := None |} in
      modify (λ db, with_ticket (<[newId := row]> (ticket db)) db) ;;;
      ret row.

(** Modelled from the spec: the schema file that says how the column
    [updatedAt] is maintained is not among the sources (the migration
    declares it NOT NULL, without a default); by the spec a request that
    changes nothing leaves [updatedAt] untouched, so a statement that
    writes the row sets it to the time of the statement. *)
Definition touch_updatedAt (now : Z) (t : Ticket.t) : Ticket.t :=
  {| Ticket.id := Ticket.id t; Ticket.title := Ticket.title t;
     Ticket.description := Ticket.description t;
     Ticket.organizationId := Ticket.organizationId t;
     Ticket.status := Ticket.status t;
     Ticket.requiresApproval := Ticket.requiresApproval t;
     Ticket.creatorId := Ticket.creatorId t;
     Ticket.assigneeId := Ticket.assigneeId t;
     Ticket.approvedById := Ticket.approvedById t;
     Ticket.approvedAt := Ticket.approvedAt t;
     Ticket.createdAt := Ticket.createdAt t;
     Ticket.updatedAt := now;
     Ticket.resolvedAt := Ticket.resolvedAt t;
     Ticket.closedAt := Ticket.closedAt t |}.

(** The row after an update with [data]: the fields that [data] sets are
    written, the others stay. *)
Definition write_update (u : UpdateData.t) (now : Z) (t : Ticket.t) : Ticket.t :=
  touch_updatedAt now
    {| Ticket.id := Ticket.id t;
       Ticket.title := default (Ticket.title t) (UpdateData.title u);
       Ticket.description := default (Ticket.description t) (UpdateData.description u);
       Ticket.organizationId := Ticket.organizationId t;
       Ticket.status := default (Ticket.status t) (UpdateData.status u);
       Ticket.requiresApproval :=
         default (Ticket.requiresApproval t) (UpdateData.requiresApproval u);
       Ticket.creatorId := Ticket.creatorId t;
       Ticket.assigneeId := default (Ticket.assigneeId t) (UpdateData.assigneeId u);
       Ticket.approvedById := Ticket.approvedById t;
       Ticket.approvedAt := Ticket.approvedAt t;
       Ticket.createdAt := Ticket.createdAt t;
       Ticket.updatedAt := Ticket.updatedAt t;
       Ticket.resolvedAt :=
         match UpdateData.resolvedAt u with
         | Some d => Some d
         | None => Ticket.resolvedAt t
         end;
       Ticket.closedAt :=
         match UpdateData.closedAt u with
         | Some d => Some d
         | None => Ticket.closedAt t
         end |}.

(** [tx.ticket.update({ where: { id }, data })]. *)
Definition ticket_update (id : string) (data : UpdateData.t) (now : Z)
  : Handler Ticket.t :=
  let* row := ticket_findUnique id in
  match row with
  | None => raise (StoreErr "Record to update not found")
  | Some t =>
      let* fk := gets (assignee_fkey (default None (UpdateData.assigneeId data))) in
      if negb fk then raise (StoreErr "Foreign key constraint failed: Ticket_assigneeId_fkey")
      else
        let t' := write_update data now t in
        modify (λ db, with_ticket (<[id := t']> (ticket db)) db) ;;;
        ret t'
  end.

(** [tx.ticket.delete({ where: { id } })]; the audit rows of the ticket go
    with it ([ON DELETE CASCADE] of [AuditLog_ticketId_fkey]). *)
Definition ticket_delete (id : string) : Handler unit :=
  let* row := ticket_findUnique id in
  match row with
  | None => raise (StoreErr "Record to delete does not exist")
  | Some _ =>
      modify (λ db,
        with_auditLog
          (filter (λ a, Audit.ticketId a ≠ Some id) (auditLog db))
          (with_ticket (delete id (ticket db)) db))
  end.

Module Where.
(** The [where] clause of the list route. *)
Record t := {
  organizationId : string;
  status : option string;
  assigneeId : option string;
  creatorId : option string
}.

Definition matches (w : t) (row : Ticket.t) : bool :=
  bool_decide (Ticket.organizationId row = organizationId w)
  && from_option (λ s, bool_decide (Ticket.status row = s)) true (status w)
  && from_option (λ a, bool_decide (Ticket.assigneeId row = Some a)) true (assigneeId w)
  && from_option (λ c, bool_decide (Ticket.creatorId row = c)) true (creatorId w).
End Where.

(** The rows a [where] clause selects. *)
Definition ticket_where (w : Where.t) (db : Db) : list Ticket.t :=
  filter (λ row, Where.matches w row = true) (map_to_list (ticket db)).*2.

(** [orderBy: { createdAt: 'desc' }]. *)
Definition createdAt_desc (a b : Ticket.t) : Prop :=
  Ticket.createdAt b ≤ Ticket.createdAt a.

#[global] Instance createdAt_desc_dec : RelDecision createdAt_desc.
Proof. intros a b. unfold createdAt_desc. apply _. Defined.

(** [prisma.ticket.findMany({ where, orderBy, skip, take })]. *)
Definition ticket_findMany (w : Where.t) (skip take : Z) : Handler (list Ticket.t) :=
  gets (λ db,
    firstn (Z.to_nat take)
      (skipn (Z.to_nat skip) (merge_sort createdAt_desc (ticket_where w db)))).

(** [prisma.ticket.count({ where })]. *)
Definition ticket_count (w : Where.t) : Handler Z :=
  gets (λ db, Z.of_nat (length (ticket_where w db))).

(** [Math.ceil(total / limit)] for a positive [limit]: the ceiling of the
    exact quotient (the quotient of two counts this small is computed
    without rounding to a neighbouring integer). *)
Definition Math_ceil_div (total limit : Z) : Z := - ((- total) / limit).

Module Pagination.
Record t := { page : Z; limit : Z; total : Z; pages : Z }.
End Pagination.

Module Listing.
(** The body [{ data, pagination }] of the list route. *)
Record t := { data : list Ticket.t; pagination : Pagination.t }.
End Listing.

(** [if (x) where.x = x]. *)
Definition when_truthy (s : option string) : option string :=
  if truthy s then s else None.

(** "Build where clause". *)
Definition build_where (orgId : string) (query : Query.t) : Where.t :=
  {| Where.organizationId := orgId;
     Where.status := when_truthy (Query.status query);
     Where.assigneeId := when_truthy (Query.assigneeId query);
     Where.creatorId := when_truthy (Query.creatorId query) |}.

(** ** Statements of the store client on the table OrgMembership *)

(** The rows [{ organizationId, role }] selects. *)
Definition role_in (organizationId role : string)
    (kv : (string * string) * string) : Prop :=
  kv.1.2 = organizationId ∧ kv.2 = role.

#[global] Instance role_in_dec organizationId role kv :
  Decision (role_in organizationId role kv).
Proof. unfold role_in. apply _. Defined.

Definition members_with (organizationId role : string) (db : Db) : nat :=
  size (filter (role_in organizationId role) (orgMembership db)).

(** [prisma.orgMembership.count({ where: { organizationId, role } })]. *)
Definition orgMembership_count (organizationId role : string) : Handler Z :=
  gets (λ db, Z.of_nat (members_with organizationId role db)).

(** [prisma.orgMembership.delete] on the unique pair. *)
Definition orgMembership_delete (userId organizationId : string) : Handler unit :=
  let* row := orgMembership_findUnique userId organizationId in
  match row with
  | None => raise (StoreErr "Record to delete does not exist")
  | Some _ =>
      modify (λ db,
        with_orgMembership (delete (userId, organizationId) (orgMembership db)) db)
  end.

(** ** The blocks of the update route that fill [updateData] and [metadata] *)

Definition Changes : Type := UpdateData.t * list (string * Value).

(** "Only OWNER/ADMIN can update title and description". *)
Definition title_description (role : string) (body : PatchBody.t) (ticket : Ticket.t)
    (c : Changes) : Handler Changes :=
  if truthy (PatchBody.title body) || truthy (PatchBody.description body) then
    if negb (hasRole role ["OWNER"; "ADMIN"]) then
      throw (ForbiddenError "Only admins can update ticket title/description")
    else
      let c :=
        match PatchBody.title body with
        | Some title =>
            if truthy (Some title) then
              (UpdateData.set_title title c.1,
               assign (assign c.2 "oldTitle" (str (Ticket.title ticket)))
                      "newTitle" (str title))
            else c
        | None => c
        end in
      let c :=
        match PatchBody.description body with
        | Some description =>
            if truthy (Some description) then
              (UpdateData.set_description description c.1,
               assign (assign c.2 "oldDescription" (str (Ticket.description ticket)))
                      "newDescription" (str description))
            else c
        | None => c
        end in
      ret c
  else ret c.

(** "Handle status transition" and "Set resolved/closed timestamps". *)
Definition status_transition (role : string) (body : PatchBody.t) (ticket : Ticket.t)
    (now : Z) (c : Changes) : Handler Changes :=
  match PatchBody.status body with
  | Some newStatus =>
      if truthy (Some newStatus)
         && negb (bool_decide (newStatus = Ticket.status ticket)) then
        lift (validateStatusTransition (Ticket.status ticket) newStatus role) ;;;
        let updateData := UpdateData.set_status newStatus c.1 in
        let metadata :=
          assign (assign c.2 "oldStatus" (str (Ticket.status ticket)))
                 "newStatus" (str newStatus) in
        let updateData :=
          if bool_decide (newStatus = "RESOLVED")
             && negb (bool_decide (is_Some (Ticket.resolvedAt ticket)))
          then UpdateData.set_resolvedAt now updateData else updateData in
        let updateData :=
          if bool_decide (newStatus = "CLOSED")
             && negb (bool_decide (is_Some (Ticket.closedAt ticket)))
          then UpdateData.set_closedAt now updateData else updateData in
        ret (updateData, metadata)
      else ret c
  | None => ret c
  end.

(** "Handle assignee change". *)
Definition assignee_change (orgId : string) (body : PatchBody.t) (ticket : Ticket.t)
    (c : Changes) : Handler Changes :=
  match PatchBody.assigneeId body with
  | Some newAssigneeId =>
      (if truthy newAssigneeId then
         let* assignee := orgMembership_findUnique (default "" newAssigneeId) orgId in
         match assignee with
         | None =>
             throw (ValidationError "Assignee is not a member of this organization"
                      Err.null)
         | Some _ => ret tt
         end
       else ret tt) ;;;
      if negb (bool_decide (newAssigneeId = Ticket.assigneeId ticket)) then
        ret (UpdateData.set_assigneeId newAssigneeId c.1,
             assign (assign c.2 "oldAssigneeId" (nullable (Ticket.assigneeId ticket)))
                    "newAssigneeId" (nullable newAssigneeId))
      else ret c
  | None => ret c
  end.

(** "Handle requiresApproval". *)
Definition requiresApproval_change (body : PatchBody.t) (ticket : Ticket.t)
    (c : Changes) : Changes :=
  match PatchBody.requiresApproval body with
  | Some requiresApproval =>
      if negb (bool_decide (requiresApproval = Ticket.requiresApproval ticket)) then
        (UpdateData.set_requiresApproval requiresApproval c.1,
         assign (assign c.2 "oldRequiresApproval"
                   (boolean (Ticket.requiresApproval ticket)))
                "newRequiresApproval" (boolean requiresApproval))
      else c
  | None => c
  end.

(** The lookup shared by the get, update and delete routes: the row by its
    id, then "Verify ticket belongs to the organization". *)
Definition ticket_of_org (ticketId orgId : string) : Handler Ticket.t :=
  let* ticket := ticket_findUnique ticketId in
  match ticket with
  | None => throw (NotFoundError "Ticket not found")
  | Some ticket =>
      if negb (bool_decide (Ticket.organizationId ticket = orgId)) then
        throw (ForbiddenError "Access denied to this ticket")
      else ret ticket
  end.

Section Api.

(** The write of [prisma.auditLog.create] against the audit table: the
    new table, or [None] when the store refuses the row or cannot be
    reached. *)
Variable auditLog_create : Audit.data → list Audit.data → option (list Audit.data).

(** ** lib/audit.js *)

Definition prisma_auditLog_create (data : Audit.data) : Handler unit :=
  λ db, match auditLog_create data (auditLog db) with
        | Some rows => (Return tt, with_auditLog rows db)
        | None => (Throw (StoreErr "auditLog.create failed"), db)
        end.

Definition logger_error (msg : string) : Handler unit :=
  modify (λ db, with_logger (logger db ++ [msg]) db).

(** [try { ... } catch (error) { ... }]. *)
Definition try_catch {A} (body : Handler A) (handler : Thrown → Handler A) : Handler A :=
  λ db, match body db with
        | (Throw error, db') => handler error db'
        | r => r
        end.

Definition createAuditLog (data : Audit.data) : Handler unit :=
  try_catch (prisma_auditLog_create data)
            (λ error, logger_error "Failed to create audit log").

(** ** routes/tickets.js *)

(** GET /:orgId/tickets *)
Definition listTickets (auth : Authorization) (orgId : string) (query : Query.t)
  : Handler Listing.t :=
  let* userId := authenticate auth in
  let* role := requireOrg userId orgId in
  safeParse (listSchema query) ;;;
  let page := default 1 (Query.page query) in
  let limit := default 10 (Query.limit query) in
  let skip := (page - 1) * limit in
  let where_ := build_where orgId query in
  let* tickets := ticket_findMany where_ skip limit in
  let* total := ticket_count where_ in
  ret {| Listing.data := tickets;
         Listing.pagination :=
           {| Pagination.page := page; Pagination.limit := limit;
              Pagination.total := total;
              Pagination.pages := Math_ceil_div total limit |} |}.

(** POST /:orgId/tickets *)
Definition createTicket (auth : Authorization) (orgId : string) (body : CreateBody.t)
    (newId : string) (now : Z) : Handler Ticket.t :=
  let* userId := authenticate auth in
  let* role := requireOrg userId orgId in
  safeParse (createSchema body) ;;;
  let title := default "" (CreateBody.title body) in
  let description := default "" (CreateBody.description body) in
  let assigneeId := CreateBody.assigneeId body in
  let requiresApproval := default false (CreateBody.requiresApproval body) in
  (if truthy assigneeId then
     let* assignee := orgMembership_findUnique (default "" assigneeId) orgId in
     match assignee with
     | None =>
         throw (ValidationError "Assignee is not a member of this organization" Err.null)
     | Some _ => ret tt
     end
   else ret tt) ;;;
  let* ticket :=
    ticket_create newId title description orgId userId assigneeId requiresApproval
      "OPEN" now in
  createAuditLog
    {| Audit.organizationId := orgId; Audit.userId := userId;
       Audit.ticketId := Some (Ticket.id ticket);
       Audit.action := "TICKET_CREATED";
       Audit.metadata :=
         [("title", str title); ("requiresApproval", boolean requiresApproval);
          ("assigneeId", optional assigneeId)] |} ;;;
  ret ticket.

(** GET /:orgId/tickets/:ticketId *)
Definition getTicket (auth : Authorization) (orgId ticketId : string)
  : Handler Ticket.t :=
  let* userId := authenticate auth in
  let* role := requireOrg userId orgId in
  ticket_of_org ticketId orgId.

(** PATCH /:orgId/tickets/:ticketId *)
Definition patchTicket (auth : Authorization) (orgId ticketId : string)
    (body : PatchBody.t) (now : Z) : Handler Ticket.t :=
  let* userId := authenticate auth in
  let* role := requireOrg userId orgId in
  safeParse (patchSchema body) ;;;
  let* ticket := ticket_of_org ticketId orgId in
  let* c := title_description role body ticket (UpdateData.empty, []) in
  let* c := status_transition role body ticket now c in
  let* c := assignee_change orgId body ticket c in
  let '(updateData, metadata) := requiresApproval_change body ticket c in
  if bool_decide (length (UpdateData.keys updateData) = 0%nat) then ret ticket
  else
    let* updated := ticket_update ticketId updateData now in
    let action :=
      if truthy_value (own_property metadata "oldStatus") then "STATUS_CHANGED"
      else "TICKET_UPDATED" in
    createAuditLog
      {| Audit.organizationId := orgId; Audit.userId := userId;
         Audit.ticketId := Some ticketId; Audit.action := action;
         Audit.metadata := metadata |} ;;;
    ret updated.

(** [prisma.$transaction(async (tx) => { await tx.ticket.delete(...);
    await createAuditLog(...) })] of the delete route.  [createAuditLog]
    writes through the global client [prisma], not through [tx], and its
    row names in [ticketId] the ticket that the open transaction has
    deleted.  For the global client the ticket is still stored, and
    [AuditLog_ticketId_fkey] makes the write wait for the row that the
    transaction holds; the transaction ends only when the callback does,
    so it expires and is rolled back.  The write then goes through against
    the store as it was before the transaction, and the commit of the
    expired transaction throws the error of the store client.  A write
    that the store refuses does not wait: [createAuditLog] logs it, the
    callback ends and the transaction commits the deletion. *)
Definition delete_with_audit (ticketId : string) (data : Audit.data)
  : Handler unit :=
  let* written := gets (λ db, auditLog_create data (auditLog db)) in
  match written with
  | Some rows =>
      modify (with_auditLog rows) ;;;
      raise (StoreErr "Transaction already closed")
  | None =>
      ticket_delete ticketId ;;;
      logger_error "Failed to create audit log"
  end.

(** DELETE /:orgId/tickets/:ticketId *)
Definition deleteTicket (auth : Authorization) (orgId ticketId : string)
  : Handler string :=
  let* userId := authenticate auth in
  let* role := requireOrg userId orgId in
  requireRole ["OWNER"; "ADMIN"] role ;;;
  let* ticket := ticket_of_org ticketId orgId in
  delete_with_audit ticketId
    {| Audit.organizationId := orgId; Audit.userId := userId;
       Audit.ticketId := Some ticketId; Audit.action := "TICKET_UPDATED";
       Audit.metadata :=
         [("action", str "deleted"); ("title", str (Ticket.title ticket))] |} ;;;
  ret "Ticket deleted".

(** ** Organisation routes: DELETE /:orgId/members/:userId *)

Definition removeMember (auth : Authorization) (orgId userId : string)
  : Handler string :=
  let* requester := authenticate auth in
  let* role := requireOrg requester orgId in
  requireRole ["OWNER"; "ADMIN"] role ;;;
  (if bool_decide (userId = requester) then
     let* ownerCount := orgMembership_count orgId "OWNER" in
     if bool_decide (ownerCount = 1) then
       throw (ValidationError "Cannot remove the only owner" Err.null)
     else ret tt
   else ret tt) ;;;
  orgMembership_delete userId orgId ;;;
  createAuditLog
    {| Audit.organizationId := orgId; Audit.userId := requester;
       Audit.ticketId := None; Audit.action := "MEMBER_REMOVED";
       Audit.metadata := [("removedUserId", str userId)] |} ;;;
  ret "Member removed".

End Api.

(** ** Observations on the store *)

(** The number of OWNER memberships of an organisation. *)
Definition owners (orgId : string) (db : Db) : nat := members_with orgId "OWNER" db.

(** Every ticket of the store has one of the six declared statuses. *)
Definition statuses_declared (db : Db) : Prop :=
  map_Forall (λ _ row, Ticket.status row ∈ statusEnum) (ticket db).

(** ** Sequences of requests *)

Inductive Request :=
| ListTickets (auth : Authorization) (orgId : string) (query : Query.t)
| CreateTicket (auth : Authorization) (orgId : string) (body : CreateBody.t)
    (newId : string) (now : Z)
| GetTicket (auth : Authorization) (orgId ticketId : string)
| PatchTicket (auth : Authorization) (orgId ticketId : string) (body : PatchBody.t)
    (now : Z)
| DeleteTicket (auth : Authorization) (orgId ticketId : string)
| RemoveMember (auth : Authorization) (orgId userId : string).

Definition is_update (r : Request) : bool :=
  match r with
  | PatchTicket _ _ _ _ _ => true
  | _ => false
  end.

Section Serving.

Variable auditLog_create : Audit.data → list Audit.data → option (list Audit.data).

(** The store a request leaves behind. *)
Definition serve (db : Db) (r : Request) : Db :=
  match r with
  | ListTickets auth orgId query => (listTickets auth orgId query db).2
  | CreateTicket auth orgId body newId now =>
      (createTicket auditLog_create auth orgId body newId now db).2
  | GetTicket auth orgId ticketId => (getTicket auth orgId ticketId db).2
  | PatchTicket auth orgId ticketId body now =>
      (patchTicket auditLog_create auth orgId ticketId body now db).2
  | DeleteTicket auth orgId ticketId =>
      (deleteTicket auditLog_create auth orgId ticketId db).2
  | RemoveMember auth orgId userId =>
      (removeMember auditLog_create auth orgId userId db).2
  end.

Definition serve_all (db : Db) (rs : list Request) : Db := foldl serve db rs.

End Serving.

(** What the status block of the update route may leave in [updateData]
    for a ticket [row]: no status, or a status of the enumeration that
    differs from the row's and is among its legal targets; a resolution
    stamp exactly when the new status is RESOLVED and the row has none; a
    closure stamp exactly when the new status is CLOSED and the row has
    none. *)
Definition stamp (entered : bool) (now : Z) (old : option Z) : option Z :=
  if entered && negb (bool_decide (is_Some old)) then Some now else None.

Definition enters (u : UpdateData.t) (s : string) : bool :=
  bool_decide (UpdateData.status u = Some s).

Definition status_changes (row : Ticket.t) (now : Z) (u : UpdateData.t) : Prop :=
  (∀ s, UpdateData.status u = Some s →
        s ∈ statusEnum ∧ s ≠ Ticket.status row
        ∧ s ∈ validTransitions (Ticket.status row))
  ∧ UpdateData.resolvedAt u = stamp (enters u "RESOLVED") now (Ticket.resolvedAt row)
  ∧ UpdateData.closedAt u = stamp (enters u "CLOSED") now (Ticket.closedAt row).

(** The [code] of the [AppError] a completion throws. *)
Definition thrown_code {A} (c : Completion A) : option string :=
  match c with
  | Throw (AppErr e) => Some (Err.code e)
  | _ => None
  end.

(** The requests the create route serves: a bearer of a stored user who
    is a member of the organisation, a body the schema accepts, an
    assignee (when one is named) who is a member and a stored user, and an
    identifier that is not taken.  The approval flag plays no part. *)
Definition create_accepted (auth : Authorization) (orgId : string)
    (body : CreateBody.t) (newId : string) (db : Db) : Prop :=
  ∃ u, auth = bearer u ∧ u ∈ user db ∧ orgId ≠ ""
       ∧ is_Some (orgMembership db !! (u, orgId))
       ∧ createSchema body = []
       ∧ (truthy (CreateBody.assigneeId body) = true →
          is_Some (orgMembership db !! (default "" (CreateBody.assigneeId body), orgId)))
       ∧ ticket db !! newId = None
       ∧ assignee_fkey (CreateBody.assigneeId body) db = true.

(** The body of a create request with another value of the approval
    flag. *)
Definition with_requiresApproval (flag : option bool) (b : CreateBody.t)
  : CreateBody.t :=
  {| CreateBody.title := CreateBody.title b;
     CreateBody.description := CreateBody.description b;
     CreateBody.assigneeId := CreateBody.assigneeId b;
     CreateBody.requiresApproval := flag |}.

(** Two runs complete alike and leave the same users, memberships and
    tickets (the audit table and the log may differ). *)
Definition same_outcome {A} (r1 r2 : Completion A * Db) : Prop :=
  r1.1 = r2.1
  ∧ user r1.2 = user r2.2
  ∧ orgMembership r1.2 = orgMembership r2.2
  ∧ ticket r1.2 = ticket r2.2.

(** A handler that only reads the store. *)
Definition reads {A} (m : Handler A) : Prop := ∀ db, (m db).2 = db.

(** The fields of [updateData] that the status block owns. *)
Definition status_fields (u : UpdateData.t) : option string * option Z * option Z :=
  (UpdateData.status u, UpdateData.resolvedAt u, UpdateData.closedAt u).

(** A request moved the ticket from [row] into status [s]: the row after
    the request has status [s] and the row before it had not. *)
Definition entered (row row' : Ticket.t) (s : string) : bool :=
  bool_decide (Ticket.status row' = s) && negb (bool_decide (Ticket.status row = s)).

(** A milestone stamp after a request: a stamp already there stays; a
    missing one is set to [now] when the status was entered. *)
Definition milestone (entered : bool) (now : Z) (old : option Z) : option Z :=
  match old with
  | Some d => Some d
  | None => if entered then Some now else None
  end.

(** A request body that asks for a status and nothing else. *)
Definition status_only (s : string) : PatchBody.t :=
  {| PatchBody.title := None; PatchBody.description := None;
     PatchBody.status := Some s; PatchBody.assigneeId := None;
     PatchBody.requiresApproval := None |}.

(** ** Sample stores and requests *)

Module Sample.

(** The audit table of a store that accepts every row. *)
Definition audit_up : Audit.data → list Audit.data → option (list Audit.data) :=
  λ data rows, Some (rows ++ [data])%list.

(** The audit table of a store that refuses every row. *)
Definition audit_down : Audit.data → list Audit.data → option (list Audit.data) :=
  λ _ _, None.

Definition row (id organizationId status : string) (createdAt : Z)
    (resolvedAt : option Z) : Ticket.t :=
  {| Ticket.id := id; Ticket.title := "Fix login bug";
     Ticket.description := "Users cannot login";
     Ticket.organizationId := organizationId; Ticket.status := status;
     Ticket.requiresApproval := true; Ticket.creatorId := "alice";
     Ticket.assigneeId := None; Ticket.approvedById := None;
     Ticket.approvedAt := None; Ticket.createdAt := createdAt;
     Ticket.updatedAt := createdAt; Ticket.resolvedAt := resolvedAt;
     Ticket.closedAt := None |}.

(** Organisation [acme] with one member of each role, organisation
    [globex] with a single owner; one ticket in each. *)
Definition db : Db :=
  {| user := {[ "alice"; "bob"; "carol"; "dave"; "erin" ]};
     orgMembership :=
       list_to_map
         [ (("alice", "acme"), "OWNER"); (("bob", "acme"), "ADMIN");
           (("carol", "acme"), "AGENT"); (("dave", "acme"), "VIEWER");
           (("erin", "globex"), "OWNER") ];
     ticket :=
       list_to_map
         [ ("t1", row "t1" "acme" "IN_PROGRESS" 1000 None);
           ("t2", row "t2" "globex" "OPEN" 2000 None) ];
     auditLog := [];
     logger := [] |}.

(** The ticket of [acme] after its resolution at time 1500. *)
Definition db_resolved : Db :=
  with_ticket (<["t1" := row "t1" "acme" "RESOLVED" 1000 (Some 1500)]> (ticket db)) db.

(** The ticket of [acme] while it waits for approval. *)
Definition db_pending : Db :=
  with_ticket (<["t1" := row "t1" "acme" "PENDING_APPROVAL" 1000 None]> (ticket db)) db.

(** [acme] with a second owner. *)
Definition db_two_owners : Db :=
  with_orgMembership (<[("bob", "acme") := "OWNER"]> (orgMembership db)) db.

Definition new_ticket (flag : option bool) : CreateBody.t :=
  {| CreateBody.title := Some "Fix login bug";
     CreateBody.description := Some "Users cannot login with special characters";
     CreateBody.assigneeId := None;
     CreateBody.requiresApproval := flag |}.

(** [acme] with twenty-five open tickets, named A to Y. *)
Definition many (n : nat) : list (string * Ticket.t) :=
  (λ i, let id := String (Ascii.ascii_of_nat (65 + i)) "" in
        (id, row id "acme" "OPEN" (Z.of_nat i) None)) <$> seq 0 n.

Definition db25 : Db := with_ticket (list_to_map (many 25)) db.

Definition page_of (page limit : option Z) : Query.t :=
  {| Query.status := None; Query.assigneeId := None; Query.creatorId := None;
     Query.page := page; Query.limit := limit |}.

Definition title_only (s : string) : PatchBody.t :=
  {| PatchBody.title := Some s; PatchBody.description := None;
     PatchBody.status := None; PatchBody.assigneeId := None;
     PatchBody.requiresApproval := None |}.

End Sample.

(** ** The update route: what each block leaves alone *)

(** The fields of [updateData] other than those the title and description
    block assigns; likewise for the status, assignee and approval blocks. *)
Definition beside_text (u : UpdateData.t) :=
  (UpdateData.status u, UpdateData.resolvedAt u, UpdateData.closedAt u,
   UpdateData.assigneeId u, UpdateData.requiresApproval u).

Definition beside_status (u : UpdateData.t) :=
  (UpdateData.title u, UpdateData.description u, UpdateData.assigneeId u,
   UpdateData.requiresApproval u).

Definition beside_assignee (u : UpdateData.t) :=
  (UpdateData.title u, UpdateData.description u, UpdateData.status u,
   UpdateData.resolvedAt u, UpdateData.closedAt u, UpdateData.requiresApproval u).

Definition beside_approval (u : UpdateData.t) :=
  (UpdateData.title u, UpdateData.description u, UpdateData.status u,
   UpdateData.resolvedAt u, UpdateData.closedAt u, UpdateData.assigneeId u).

(** The two keys of [metadata] that the status block assigns. *)
Definition status_keys (metadata : list (string * Value)) : option Value * option Value :=
  (own_property metadata "oldStatus", own_property metadata "newStatus").

(** The entry the update route hands to the audit sink. *)
Definition update_entry (orgId userId ticketId : string)
    (metadata : list (string * Value)) : Audit.data :=
  {| Audit.organizationId := orgId; Audit.userId := userId;
     Audit.ticketId := Some ticketId;
     Audit.action :=
       if truthy_value (own_property metadata "oldStatus") then "STATUS_CHANGED"
       else "TICKET_UPDATED";
     Audit.metadata := metadata |}.

(** The entry the delete route hands to the audit sink. *)
Definition delete_entry (orgId userId ticketId title : string) : Audit.data :=
  {| Audit.organizationId := orgId; Audit.userId := userId;
     Audit.ticketId := Some ticketId; Audit.action := "TICKET_UPDATED";
     Audit.metadata := [("action", str "deleted"); ("title", str title)] |}.

(** An edge of the transition table. *)
Definition edge (a b : string) : Prop := b ∈ validTransitions a.

(** A request body that names an assignee, or null, and nothing else. *)
Definition assignee_only (a : option string) : PatchBody.t :=
  {| PatchBody.title := None; PatchBody.description := None;
     PatchBody.status := None; PatchBody.assigneeId := Some a;
     PatchBody.requiresApproval := None |}.

(** ** More sample stores *)

Module Case.

(** The ticket of [acme] once closed. *)
Definition db_closed : Db :=
  with_ticket
    (<["t1" := Sample.row "t1" "acme" "CLOSED" 1000 (Some 1500)]> (ticket Sample.db))
    Sample.db.

(** frank has an account and no membership. *)
Definition db_visitor : Db :=
  {| user := {[ "frank" ]} ∪ user Sample.db;
     orgMembership := orgMembership Sample.db;
     ticket := ticket Sample.db;
     auditLog := auditLog Sample.db;
     logger := logger Sample.db |}.

End Case.

(** ** Organisation routes: PATCH /:orgId/members/:userId *)

(** The four names of [z.enum([...])] in the role schema. *)
Definition roleEnum : list string := ["OWNER"; "ADMIN"; "AGENT"; "VIEWER"].

Module RoleBody.
(** [req.body] of the role route. *)
Record t := { role : option string }.
End RoleBody.

(** [role] in the enum, required. *)
Definition roleSchema (b : RoleBody.t) : list string :=
  refuse "role" (from_option (includes roleEnum) false (RoleBody.role b)).

Module Membership.
(** A row of [OrgMembership], as far as the store holds it. *)
Record t := { userId : string; organizationId : string; role : string }.
End Membership.

(** [prisma.orgMembership.update({ where: { id: membership.id }, data: { role } })],
    the row being the one of the unique pair. *)
Definition orgMembership_update (userId organizationId role : string)
  : Handler Membership.t :=
  let* row := orgMembership_findUnique userId organizationId in
  match row with
  | None => raise (StoreErr "Record to update not found")
  | Some _ =>
      modify (λ db,
        with_orgMembership
          (<[(userId, organizationId) := role]> (orgMembership db)) db) ;;;
      ret {| Membership.userId := userId;
             Membership.organizationId := organizationId;
             Membership.role := role |}
  end.

Section OrgApi.

Variable auditLog_create : Audit.data → list Audit.data → option (list Audit.data).

(** PATCH /:orgId/members/:userId, behind [requireOrg] and
    [requireRole('OWNER')]. *)
Definition changeMemberRole (auth : Authorization) (orgId userId : string)
    (body : RoleBody.t) : Handler Membership.t :=
  let* requester := authenticate auth in
  let* role := requireOrg requester orgId in
  requireRole ["OWNER"] role ;;;
  safeParse (roleSchema body) ;;;
  let newRole := default "" (RoleBody.role body) in
  let* membership := orgMembership_findUnique userId orgId in
  match membership with
  | None => throw (NotFoundError "Membership not found")
  | Some oldRole =>
      let* updated := orgMembership_update userId orgId newRole in
      createAuditLog auditLog_create
        {| Audit.organizationId := orgId; Audit.userId := requester;
           Audit.ticketId := None; Audit.action := "ROLE_CHANGED";
           Audit.metadata :=
             [("targetUserId", str userId); ("oldRole", str oldRole);
              ("newRole", str newRole)] |} ;;;
      ret updated
  end.

End OrgApi.

(** Every membership of the store has one of the four declared roles. *)
Definition roles_declared (db : Db) : Prop :=
  map_Forall (λ _ role, role ∈ roleEnum) (orgMembership db).

(** 1 for an OWNER, 0 for another role. *)
Definition owner_weight (role : string) : nat :=
  if bool_decide (role = "OWNER") then 1 else 0.


(** ** The slug of an organisation name

    [name.toLowerCase().replace(/[^a-z0-9]+/g, '-').replace(/^-|-$/g, '')],
    as the organisation route and the signup route compute it.  A
    JavaScript string is the list of its UTF-16 code units, so that every
    name the schema accepts is a name here.  [String.prototype.toLowerCase]
    is the engine's, not the program's: it is a parameter of the slug, and
    what is proved of the slug holds for whatever it returns. *)

Definition JsString : Type := list N.

(** The class [a-z0-9], on a code unit. *)
Definition a_z0_9 (c : N) : bool :=
  ((97 <=? c) && (c <=? 122) || (48 <=? c) && (c <=? 57))%N.

(** The code unit of ['-']. *)
Definition dash : N := 45%N.

Definition is_dash (c : N) : bool := (c =? dash)%N.

(** [.replace(/[^a-z0-9]+/g, '-')]: every maximal run of units outside the
    class becomes one dash; [in_run] tells that the unit before was part
    of the run being replaced. *)
Fixpoint replace_runs (in_run : bool) (s : JsString) : JsString :=
  match s with
  | [] => []
  | c :: s' =>
      if a_z0_9 c then c :: replace_runs false s'
      else if in_run then replace_runs true s'
      else dash :: replace_runs true s'
  end.

(** The alternative [^-] of [.replace(/^-|-$/g, '')]. *)
Definition strip_start (s : JsString) : JsString :=
  match s with
  | c :: s' => if is_dash c then s' else s
  | [] => []
  end.

(** The alternative [-$], on what the first alternative left. *)
Fixpoint strip_end (s : JsString) : JsString :=
  match s with
  | [] => []
  | c :: s' =>
      match s' with
      | [] => if is_dash c then [] else s
      | _ :: _ => c :: strip_end s'
      end
  end.

Section Slug.

Variable toLowerCase : JsString → JsString.

Definition slug (name : JsString) : JsString :=
  strip_end (strip_start (replace_runs false (toLowerCase name))).

End Slug.

(** The units of [s] are of the class [a-z0-9] or dashes, no two dashes
    are adjacent, and [s] does not begin with a dash when [after_dash]. *)
Fixpoint dashes_apart (after_dash : bool) (s : JsString) : bool :=
  match s with
  | [] => true
  | c :: s' =>
      if a_z0_9 c then dashes_apart false s'
      else is_dash c && negb after_dash && dashes_apart true s'
  end.

Fixpoint ends_with_dash (s : JsString) : bool :=
  match s with
  | [] => false
  | c :: s' =>
      match s' with
      | [] => is_dash c
      | _ :: _ => ends_with_dash s'
      end
  end.

(** Words of [a-z0-9] joined by single dashes. *)
Definition kebab (s : JsString) : bool :=
  dashes_apart true s && negb (ends_with_dash s).

(** The code units of a string of ASCII characters, and the lower case of
    such a string, for the examples. *)
Definition units (s : string) : JsString :=
  N_of_ascii <$> String.list_ascii_of_string s.

Definition ascii_lower (s : JsString) : JsString :=
  (λ c, if (65 <=? c) && (c <=? 90) then c + 32 else c)%N <$> s.

(** ** middleware/errorHandler.js: errorHandler

    [const status = err.status || 500], the status of the response.  An
    error of the store client carries no [status]. *)
Definition response_status (err : Thrown) : Z :=
  match err with
  | AppErr e => if bool_decide (Err.status e = 0) then 500 else Err.status e
  | StoreErr _ => 500
  end.

(** The error is answered with one of the four statuses of the
    application's error classes. *)
Definition refusal (err : Thrown) : Prop :=
  response_status err ∈ [400; 401; 403; 404].

(** The foreign key [OrgMembership_userId_fkey]: the user of every
    membership is a stored user. *)
Definition members_are_users (db : Db) : Prop :=
  map_Forall (λ k _, k.1 ∈ user db) (orgMembership db).

(** * Properties *)

(** A decidable closed proposition, by evaluation of its decision. *)
Ltac by_computation := apply (bool_decide_unpack _); vm_compute; exact I.

(** ** The transition check *)

Lemma includes_false (l : list string) (x : string) :
  x ∉ l → includes l x = false.
Proof. intros H. unfold includes. by apply bool_decide_eq_false. Qed.

Lemma includes_true (l : list string) (x : string) :
  x ∈ l → includes l x = true.
Proof. intros H. unfold includes. by apply bool_decide_eq_true. Qed.

Lemma viewer_forbidden (currentStatus newStatus : string) :
  validateStatusTransition currentStatus newStatus "VIEWER"
  = Throw (AppErr (ForbiddenError "Viewers cannot change ticket status")).
Proof. reflexivity. Qed.

Lemma not_viewer_check (currentStatus newStatus role : string) :
  role ≠ "VIEWER" →
  validateStatusTransition currentStatus newStatus role
  = if includes (validTransitions currentStatus) newStatus then Return true
    else Throw (AppErr (ValidationError
           ("Cannot transition from " +:+ currentStatus +:+ " to " +:+ newStatus)
           (Err.transition currentStatus newStatus (validTransitions currentStatus)))).
Proof.
  intros Hrole. unfold validateStatusTransition.
  rewrite (bool_decide_eq_false_2 _ Hrole).
  by destruct (includes _ _).
Qed.

(** C1. For a current status of the enumeration and a requested status
    that is not among the targets the table lists for it: under an acting
    role other than VIEWER the check throws a ValidationError (code
    VALIDATION_ERROR, HTTP 400) whose details hold the current status, the
    requested status and the whole list of legal targets; under the role
    VIEWER the check throws a ForbiddenError instead, and does so for every
    requested status, in the table or not.  (No status is its own target,
    so the requested status need not be assumed distinct from the current
    one.) *)
Theorem transition_check_rejects (current : TicketStatus) (requested role : string) :
  requested ∉ validTransitions (status_name current) →
  (role ≠ "VIEWER" →
     ∃ e, validateStatusTransition (status_name current) requested role
          = Throw (AppErr e)
          ∧ Err.code e = "VALIDATION_ERROR" ∧ Err.status e = 400
          ∧ Err.details e
            = Err.transition (status_name current) requested
                (validTransitions (status_name current)))
  ∧ (role = "VIEWER" →
     ∀ requested' : string,
       ∃ e, validateStatusTransition (status_name current) requested' role
            = Throw (AppErr e)
            ∧ Err.code e = "FORBIDDEN" ∧ Err.status e = 403).
Proof.
  intros Hnot. split.
  - intros Hrole. rewrite not_viewer_check by done.
    rewrite includes_false by done.
    eexists. split; [reflexivity|]. by repeat split.
  - intros -> requested'. rewrite viewer_forbidden.
    eexists. split; [reflexivity|]. by split.
Qed.

Lemma transition_check_rejects_witness :
  ("OPEN" ∉ validTransitions (status_name IN_PROGRESS))
  ∧ (∃ e, validateStatusTransition "IN_PROGRESS" "OPEN" "ADMIN" = Throw (AppErr e)
          ∧ Err.details e = Err.transition "IN_PROGRESS" "OPEN" ["RESOLVED"; "CLOSED"])
  ∧ (∃ e, validateStatusTransition "IN_PROGRESS" "RESOLVED" "VIEWER"
            = Throw (AppErr e)
          ∧ Err.code e = "FORBIDDEN").
Proof.
  assert (H : "OPEN" ∉ validTransitions (status_name IN_PROGRESS))
    by by_computation.
  split; [exact H|]. split.
  - destruct (transition_check_rejects IN_PROGRESS "OPEN" "ADMIN" H) as [Hv _].
    destruct Hv as (e & He & _ & _ & Hd); [by_computation|].
    exists e. split; [exact He | exact Hd].
  - destruct (transition_check_rejects IN_PROGRESS "OPEN" "VIEWER" H) as [_ Hf].
    destruct (Hf eq_refl "RESOLVED") as (e & He & Hc & _).
    exists e. split; [exact He | exact Hc].
Defined.

(** C2. For the role ADMIN the check accepts OPEN to CLOSED, OPEN to
    IN_PROGRESS and OPEN to PENDING_APPROVAL, and it refuses IN_PROGRESS to
    OPEN with a ValidationError. *)
Theorem admin_transitions :
  validateStatusTransition "OPEN" "CLOSED" "ADMIN" = Return true
  ∧ validateStatusTransition "OPEN" "IN_PROGRESS" "ADMIN" = Return true
  ∧ validateStatusTransition "OPEN" "PENDING_APPROVAL" "ADMIN" = Return true
  ∧ ∃ e, validateStatusTransition "IN_PROGRESS" "OPEN" "ADMIN" = Throw (AppErr e)
         ∧ Err.code e = "VALIDATION_ERROR"
         ∧ Err.details e = Err.transition "IN_PROGRESS" "OPEN" ["RESOLVED"; "CLOSED"].
Proof.
  repeat split; try reflexivity.
  eexists. split; [reflexivity|]. by split.
Qed.

(** ** Running a handler *)

Lemma bind_return {A B} (m : Handler A) (k : A → Handler B) db a db' :
  m db = (Return a, db') → bind m k db = k a db'.
Proof. intros H. unfold bind. by rewrite H. Qed.

Lemma bind_throw {A B} (m : Handler A) (k : A → Handler B) db e db' :
  m db = (Throw e, db') → bind m k db = (Throw e, db').
Proof. intros H. unfold bind. by rewrite H. Qed.

Lemma bind_ret {A B} (a : A) (k : A → Handler B) db :
  bind (ret a) k db = k a db.
Proof. reflexivity. Qed.

Lemma bind_reads_cases {A B} (m : Handler A) (k : A → Handler B) db :
  reads m →
  (∃ a, m db = (Return a, db) ∧ bind m k db = k a db)
  ∨ (∃ e, m db = (Throw e, db) ∧ bind m k db = (Throw e, db)).
Proof.
  intros Hr. specialize (Hr db). unfold bind.
  destruct (m db) as [[a|e] db']; simpl in Hr; subst db'; eauto.
Qed.

Tactic Notation "read_step" constr(Hreads) "as" ident(x) ident(E) :=
  match goal with
  | |- context [bind ?m ?k ?db] =>
      destruct (bind_reads_cases m k db Hreads) as [(x & E & ->)|(x & E & ->)]
  end.

Lemma authenticate_bearer (u : string) (db : Db) :
  u ∈ user db → authenticate (bearer u) db = (Return u, db).
Proof.
  intros Hu. unfold authenticate, bind, gets. simpl.
  by rewrite (bool_decide_eq_true_2 _ Hu).
Qed.

(** [authenticate] and [requireOrg] only read the store. *)
Lemma authenticate_reads (h : Authorization) (db : Db) :
  (authenticate h db).2 = db.
Proof.
  destruct h; try reflexivity.
  unfold authenticate, bind, gets. simpl. by destruct (bool_decide _).
Qed.

Lemma authenticate_returns (h : Authorization) (db : Db) (u : string) :
  (authenticate h db).1 = Return u → h = bearer u ∧ u ∈ user db.
Proof.
  destruct h; try discriminate.
  unfold authenticate, bind, gets. simpl.
  destruct (bool_decide (userId ∈ user db)) eqn:E; simpl; [|discriminate].
  intros [= ->]. split; [done|]. by apply bool_decide_eq_true_1 in E.
Qed.

Lemma requireOrg_member (u orgId role : string) (db : Db) :
  orgId ≠ "" → orgMembership db !! (u, orgId) = Some role →
  requireOrg u orgId db = (Return role, db).
Proof.
  intros Ho Hm. unfold requireOrg.
  rewrite (bool_decide_eq_false_2 _ Ho).
  unfold bind, orgMembership_findUnique, gets. by rewrite Hm.
Qed.

Lemma requireOrg_reads (u orgId : string) (db : Db) :
  (requireOrg u orgId db).2 = db.
Proof.
  unfold requireOrg. destruct (bool_decide _); [reflexivity|].
  unfold bind, orgMembership_findUnique, gets.
  by destruct (orgMembership db !! (u, orgId)).
Qed.

Lemma requireOrg_returns (u orgId role : string) (db : Db) :
  (requireOrg u orgId db).1 = Return role →
  orgMembership db !! (u, orgId) = Some role.
Proof.
  unfold requireOrg. destruct (bool_decide _); [discriminate|].
  unfold bind, orgMembership_findUnique, gets.
  destruct (orgMembership db !! (u, orgId)); simpl; [|discriminate].
  by intros [= ->].
Qed.

Lemma requireRole_allowed (allowedRoles : list string) (role : string) (db : Db) :
  role ∈ allowedRoles → requireRole allowedRoles role db = (Return tt, db).
Proof. intros H. unfold requireRole. by rewrite includes_true. Qed.

Lemma requireRole_reads (allowedRoles : list string) (role : string) (db : Db) :
  (requireRole allowedRoles role db).2 = db.
Proof. unfold requireRole. by destruct (negb _). Qed.

(** The audit sink returns, whatever the write does, and leaves the other
    tables alone. *)
Lemma createAuditLog_returns w (data : Audit.data) (db : Db) :
  (createAuditLog w data db).1 = Return tt
  ∧ user (createAuditLog w data db).2 = user db
  ∧ orgMembership (createAuditLog w data db).2 = orgMembership db
  ∧ ticket (createAuditLog w data db).2 = ticket db.
Proof.
  unfold createAuditLog, try_catch, prisma_auditLog_create.
  by destruct (w data (auditLog db)).
Qed.

(** ** Removing a member *)

Lemma owners_delete (orgId o u : string) (db : Db) :
  owners orgId (with_orgMembership (delete (u, o) (orgMembership db)) db)
  = if decide (o = orgId ∧ orgMembership db !! (u, o) = Some "OWNER")
    then pred (owners orgId db) else owners orgId db.
Proof.
  unfold owners, members_with. simpl.
  rewrite map_filter_delete, map_size_delete.
  destruct (filter (role_in orgId "OWNER") (orgMembership db) !! (u, o))
    as [r|] eqn:E.
  - apply map_lookup_filter_Some in E as [Hm [Ho Hr]]. simpl in *. subst.
    by rewrite decide_True.
  - rewrite decide_False; [done|]. intros [-> Hm].
    apply map_lookup_filter_None in E as [E|E]; [congruence|].
    by apply (E _ Hm).
Qed.

Lemma owners_positive (orgId u : string) (db : Db) :
  orgMembership db !! (u, orgId) = Some "OWNER" → (1 ≤ owners orgId db)%nat.
Proof.
  intros Hm. unfold owners, members_with.
  assert (H : filter (role_in orgId "OWNER") (orgMembership db) !! (u, orgId)
              = Some "OWNER") by (by apply map_lookup_filter_Some).
  destruct (decide (size (filter (role_in orgId "OWNER") (orgMembership db)) = 0%nat))
    as [Hz|Hz]; [|lia].
  apply map_size_empty_inv in Hz. rewrite Hz in H. by rewrite lookup_empty in H.
Qed.

Lemma owners_ext (orgId : string) (db db' : Db) :
  orgMembership db' = orgMembership db → owners orgId db' = owners orgId db.
Proof. intros H. unfold owners, members_with. by rewrite H. Qed.

Lemma audit_then_ret {A} w (data : Audit.data) (a : A) (db : Db) :
  ∃ db', (createAuditLog w data ;;; ret a) db = (Return a, db')
         ∧ user db' = user db
         ∧ orgMembership db' = orgMembership db
         ∧ ticket db' = ticket db.
Proof.
  destruct (createAuditLog_returns w data db) as (Hr & Hu & Hm & Ht).
  destruct (createAuditLog w data db) as [c db'] eqn:E. simpl in *. subst c.
  exists db'. split; [|done]. unfold bind. by rewrite E.
Qed.

Lemma orgMembership_delete_present (u orgId role : string) (db : Db) :
  orgMembership db !! (u, orgId) = Some role →
  orgMembership_delete u orgId db
  = (Return tt, with_orgMembership (delete (u, orgId) (orgMembership db)) db).
Proof.
  intros H. unfold orgMembership_delete, bind, orgMembership_findUnique, gets.
  by rewrite H.
Qed.

(** What the removal does once the middleware has let the requester in and
    the sole-owner guard has not fired. *)
Lemma removal_proceeds w (requester target orgId r : string) (db : Db) :
  orgMembership db !! (target, orgId) = Some r →
  ∃ db', (orgMembership_delete target orgId ;;;
          createAuditLog w
            {| Audit.organizationId := orgId; Audit.userId := requester;
               Audit.ticketId := None; Audit.action := "MEMBER_REMOVED";
               Audit.metadata := [("removedUserId", str target)] |} ;;;
          ret "Member removed") db = (Return "Member removed", db')
         ∧ orgMembership db' = delete (target, orgId) (orgMembership db)
         ∧ owners orgId db'
           = if decide (r = "OWNER") then pred (owners orgId db) else owners orgId db.
Proof.
  intros Ht.
  rewrite (bind_return _ _ _ _ _ (orgMembership_delete_present _ _ _ _ Ht)).
  match goal with
  | |- context [bind (createAuditLog w ?d) (λ _, ret ?a) ?s] =>
      destruct (audit_then_ret w d a s) as (db' & Hr & _ & Hm & _)
  end.
  rewrite Hr. exists db'. split; [done|]. split; [done|].
  rewrite (owners_ext _ _ _ Hm), owners_delete, Ht.
  destruct (decide (r = "OWNER")) as [->|Hne].
  - by rewrite decide_True.
  - rewrite decide_False; [done|]. intros [_ [= ?]]. done.
Qed.

Lemma owner_guard_passes (orgId : string) (db : Db) :
  owners orgId db ≠ 1%nat →
  (let* ownerCount := orgMembership_count orgId "OWNER" in
   if bool_decide (ownerCount = 1) then
     throw (ValidationError "Cannot remove the only owner" Err.null)
   else ret tt) db = (Return tt, db).
Proof.
  intros H. unfold bind, orgMembership_count, gets. fold (owners orgId db).
  rewrite bool_decide_eq_false_2; [done|lia].
Qed.

Lemma owner_guard_fires (orgId : string) (db : Db) :
  owners orgId db = 1%nat →
  (let* ownerCount := orgMembership_count orgId "OWNER" in
   if bool_decide (ownerCount = 1) then
     throw (ValidationError "Cannot remove the only owner" Err.null)
   else ret tt) db
  = (Throw (AppErr (ValidationError "Cannot remove the only owner" Err.null)), db).
Proof.
  intros H. unfold bind, orgMembership_count, gets. fold (owners orgId db).
  by rewrite H.
Qed.

(** A removal of one's own membership never takes the last owner away,
    in the organisation of the request or in any other, whoever asks. *)
Lemma self_removal_keeps_owners w (u orgId org' : string) (db : Db) :
  (1 ≤ owners org' db)%nat →
  (1 ≤ owners org' (removeMember w (bearer u) orgId u db).2)%nat.
Proof.
  intros Hpos. unfold removeMember.
  read_step (authenticate_reads (bearer u)) as u' Eu; [|done].
  apply (f_equal fst) in Eu. apply authenticate_returns in Eu as [[= <-] _].
  read_step (requireOrg_reads u orgId) as role Er; [|done].
  read_step (λ db, requireRole_reads ["OWNER"; "ADMIN"] role db) as ok Ea; [|done].
  rewrite bool_decide_eq_true_2 by done.
  destruct (decide (owners orgId db = 1%nat)) as [H1|H1].
  { by rewrite (bind_throw _ _ _ _ _ (owner_guard_fires _ _ H1)). }
  rewrite (bind_return _ _ _ _ _ (owner_guard_passes _ _ H1)).
  unfold orgMembership_delete at 1. unfold bind at 1.
  unfold bind at 1. unfold orgMembership_findUnique, gets.
  destruct (orgMembership db !! (u, orgId)) as [r|] eqn:Em; [|done].
  unfold modify.
  match goal with
  | |- context [bind (createAuditLog w ?d) (λ _, ret ?a) ?s] =>
      destruct (audit_then_ret w d a s) as (db2 & -> & _ & Hm & _)
  end.
  simpl. rewrite (owners_ext _ _ _ Hm), owners_delete.
  case_decide as Hd; [|done]. destruct Hd as [-> _]. lia.
Qed.

(** C3, as the code has it.  The requester is an authenticated OWNER or
    ADMIN of the organisation.  (1) An OWNER who removes their own
    membership while it is the only OWNER membership is refused with a
    ValidationError and the store is left as it was.  (2) With two or more
    OWNER memberships the removal of one of them, by its holder or by
    another member, succeeds and leaves one owner fewer.  (3) A removal of
    one's own membership leaves every organisation that had an OWNER with
    at least one.  (4) The removal of another member's membership is not
    held against the number of owners: it succeeds whenever that
    membership exists. *)
Theorem removal_of_an_owner w (requester target orgId role : string) (db : Db) :
  requester ∈ user db → orgId ≠ "" →
  orgMembership db !! (requester, orgId) = Some role →
  role ∈ ["OWNER"; "ADMIN"] →
  (target = requester → role = "OWNER" → owners orgId db = 1%nat →
     removeMember w (bearer requester) orgId target db
     = (Throw (AppErr (ValidationError "Cannot remove the only owner" Err.null)), db))
  ∧ (orgMembership db !! (target, orgId) = Some "OWNER" →
     (2 ≤ owners orgId db)%nat →
       (removeMember w (bearer requester) orgId target db).1 = Return "Member removed"
       ∧ orgMembership (removeMember w (bearer requester) orgId target db).2
         = delete (target, orgId) (orgMembership db)
       ∧ owners orgId (removeMember w (bearer requester) orgId target db).2
         = pred (owners orgId db))
  ∧ (target = requester →
     ∀ org', (1 ≤ owners org' db)%nat →
       (1 ≤ owners org' (removeMember w (bearer requester) orgId target db).2)%nat)
  ∧ (target ≠ requester → is_Some (orgMembership db !! (target, orgId)) →
       (removeMember w (bearer requester) orgId target db).1 = Return "Member removed"
       ∧ orgMembership (removeMember w (bearer requester) orgId target db).2
         = delete (target, orgId) (orgMembership db)).
Proof.
  intros Hu Ho Hm Hrole.
  assert (Hrun : removeMember w (bearer requester) orgId target db
    = ((if bool_decide (target = requester) then
          let* ownerCount := orgMembership_count orgId "OWNER" in
          if bool_decide (ownerCount = 1) then
            throw (ValidationError "Cannot remove the only owner" Err.null)
          else ret tt
        else ret tt) ;;;
       orgMembership_delete target orgId ;;;
       createAuditLog w
         {| Audit.organizationId := orgId; Audit.userId := requester;
            Audit.ticketId := None; Audit.action := "MEMBER_REMOVED";
            Audit.metadata := [("removedUserId", str target)] |} ;;;
       ret "Member removed") db).
  { unfold removeMember.
    rewrite (bind_return _ _ _ _ _ (authenticate_bearer _ _ Hu)).
    rewrite (bind_return _ _ _ _ _ (requireOrg_member _ _ _ _ Ho Hm)).
    by rewrite (bind_return _ _ _ _ _ (requireRole_allowed _ _ _ Hrole)). }
  split; [|split; [|split]].
  - intros -> _ H1. rewrite Hrun. rewrite bool_decide_eq_true_2 by done.
    apply bind_throw. by apply owner_guard_fires.
  - intros Ht H2. rewrite Hrun.
    destruct (removal_proceeds w requester target orgId "OWNER" db Ht)
      as (db' & Hgo & Hm' & Ho').
    rewrite decide_True in Ho' by done.
    destruct (bool_decide (target = requester)).
    + rewrite (bind_return _ _ _ _ _ (owner_guard_passes orgId db ltac:(lia))).
      rewrite Hgo. simpl. auto.
    + rewrite !bind_ret, Hgo. simpl. auto.
  - intros -> org' Hpos. by apply self_removal_keeps_owners.
  - intros Hne [r Ht]. rewrite Hrun.
    destruct (removal_proceeds w requester target orgId r db Ht)
      as (db' & Hgo & Hm' & _).
    rewrite (bool_decide_eq_false_2 _ Hne). rewrite !bind_ret, Hgo. simpl. auto.
Qed.

Lemma removal_of_an_owner_witness :
  removeMember Sample.audit_up (bearer "alice") "acme" "alice" Sample.db
  = (Throw (AppErr (ValidationError "Cannot remove the only owner" Err.null)),
     Sample.db)
  ∧ (removeMember Sample.audit_up (bearer "bob") "acme" "alice"
       Sample.db_two_owners).1 = Return "Member removed"
  ∧ (1 ≤ owners "acme"
           (removeMember Sample.audit_up (bearer "alice") "acme" "alice"
              Sample.db_two_owners).2)%nat.
Proof.
  split; [|split].
  - apply (removal_of_an_owner Sample.audit_up "alice" "alice" "acme" "OWNER"
             Sample.db); try by_computation; reflexivity.
  - apply (removal_of_an_owner Sample.audit_up "bob" "alice" "acme" "OWNER"
             Sample.db_two_owners); try by_computation; reflexivity.
  - apply (removal_of_an_owner Sample.audit_up "alice" "alice" "acme" "OWNER"
             Sample.db_two_owners); try by_computation; reflexivity.
Defined.

(** C3, as the spec has it, fails: ADMIN bob removes alice, the only OWNER
    of acme; the removal succeeds and acme is left without an owner. *)
Lemma sole_owner_removed_by_admin :
  orgMembership Sample.db !! ("alice", "acme") = Some "OWNER"
  ∧ owners "acme" Sample.db = 1%nat
  ∧ (removeMember Sample.audit_up (bearer "bob") "acme" "alice" Sample.db).1
    = Return "Member removed"
  ∧ orgMembership
      (removeMember Sample.audit_up (bearer "bob") "acme" "alice" Sample.db).2
    !! ("alice", "acme") = None
  ∧ owners "acme"
      (removeMember Sample.audit_up (bearer "bob") "acme" "alice" Sample.db).2
    = 0%nat.
Proof. vm_compute. by repeat split. Qed.

(** ** The update route, block by block *)

Lemma safeParse_reads (errs : list string) : reads (safeParse errs).
Proof. intros db. by destruct errs. Qed.

Lemma safeParse_returns (errs : list string) (db : Db) (x : unit) :
  safeParse errs db = (Return x, db) → errs = [].
Proof. by destruct errs. Qed.

Lemma refuse_nil (name : string) (ok : bool) : refuse name ok = [] → ok = true.
Proof. by destruct ok. Qed.

Lemma patchSchema_status (body : PatchBody.t) (s : string) :
  patchSchema body = [] → PatchBody.status body = Some s → s ∈ statusEnum.
Proof.
  unfold patchSchema. intros H Hs.
  apply app_eq_nil in H as [_ H]. apply app_eq_nil in H as [_ H].
  apply refuse_nil in H. rewrite Hs in H. simpl in H.
  by apply bool_decide_eq_true_1 in H.
Qed.

Lemma ticket_of_org_reads (ticketId orgId : string) : reads (ticket_of_org ticketId orgId).
Proof.
  intros db. unfold ticket_of_org, bind, ticket_findUnique, gets.
  destruct (ticket db !! ticketId); [|done]. by destruct (negb _).
Qed.

Lemma ticket_of_org_returns (ticketId orgId : string) (db : Db) (row : Ticket.t) :
  ticket_of_org ticketId orgId db = (Return row, db) →
  ticket db !! ticketId = Some row ∧ Ticket.organizationId row = orgId.
Proof.
  unfold ticket_of_org, bind, ticket_findUnique, gets.
  destruct (ticket db !! ticketId) as [t|]; [|discriminate].
  destruct (bool_decide (Ticket.organizationId t = orgId)) eqn:E; simpl; [|discriminate].
  intros [= ->]. split; [done|]. by apply bool_decide_eq_true_1 in E.
Qed.

Lemma title_description_frame role body row (c : Changes) :
  reads (title_description role body row c)
  ∧ ∀ db c', title_description role body row c db = (Return c', db) →
             status_fields c'.1 = status_fields c.1.
Proof.
  split.
  - intros db. unfold title_description.
    destruct (_ || _); [|done]. by destruct (negb _).
  - intros db c'. unfold title_description.
    destruct (_ || _); [|by intros [= <-]].
    destruct (negb _); [discriminate|].
    intros [= <-].
    destruct (PatchBody.title body) as [title|],
             (PatchBody.description body) as [description|]; simpl;
      repeat (destruct (negb _)); reflexivity.
Qed.

Lemma assignee_change_frame orgId body row (c : Changes) :
  reads (assignee_change orgId body row c)
  ∧ ∀ db c', assignee_change orgId body row c db = (Return c', db) →
             status_fields c'.1 = status_fields c.1.
Proof.
  unfold assignee_change.
  destruct (PatchBody.assigneeId body) as [newAssigneeId|];
    [|split; [done | by intros db c' [= <-]]].
  split.
  - intros db. unfold bind, orgMembership_findUnique, gets.
    destruct (truthy newAssigneeId); simpl.
    + destruct (orgMembership db !! _); simpl; [|done]. by destruct (negb _).
    + by destruct (negb _).
  - intros db c'. unfold bind, orgMembership_findUnique, gets.
    destruct (truthy newAssigneeId); simpl.
    + destruct (orgMembership db !! _); simpl; [|discriminate].
      destruct (negb _); by intros [= <-].
    + destruct (negb _); by intros [= <-].
Qed.

Lemma requiresApproval_change_frame body row (c : Changes) :
  status_fields (requiresApproval_change body row c).1 = status_fields c.1.
Proof.
  unfold requiresApproval_change.
  destruct (PatchBody.requiresApproval body); [|done]. by destruct (negb _).
Qed.

Lemma some_eq_decide (a b : string) :
  bool_decide (Some a = Some b) = bool_decide (a = b).
Proof. apply bool_decide_ext. split; congruence. Qed.

Lemma status_transition_spec role body row now (c : Changes) :
  (∀ s, PatchBody.status body = Some s → s ∈ statusEnum) →
  status_fields c.1 = (None, None, None) →
  reads (status_transition role body row now c)
  ∧ ∀ db c', status_transition role body row now c db = (Return c', db) →
             status_changes row now c'.1.
Proof.
  intros Henum Hc. unfold status_fields in Hc.
  injection Hc as Hs Hr Hcl.
  assert (Hnone : status_changes row now c.1).
  { unfold status_changes, stamp, enters. rewrite Hs, Hr, Hcl.
    split; [done|]. split; reflexivity. }
  unfold status_transition.
  destruct (PatchBody.status body) as [newStatus|] eqn:Eb;
    [|split; [done | by intros db c' [= <-]]].
  destruct (truthy (Some newStatus) && _) eqn:Ec;
    [|split; [done | by intros db c' [= <-]]].
  apply andb_true_iff in Ec as [_ Hne]. apply negb_true_iff in Hne.
  apply bool_decide_eq_false_1 in Hne.
  unfold bind, lift.
  destruct (validateStatusTransition (Ticket.status row) newStatus role) as [b|e] eqn:Ev;
    [|split; [done | discriminate]].
  split; [done|].
  intros db c'. intros [= <-].
  assert (Hin : newStatus ∈ validTransitions (Ticket.status row)).
  { unfold validateStatusTransition in Ev.
    destruct (bool_decide (role = "VIEWER")); [discriminate|].
    destruct (includes _ _) eqn:Ei; [|discriminate].
    by apply bool_decide_eq_true_1 in Ei. }
  unfold status_changes, stamp, enters.
  destruct (bool_decide (newStatus = "RESOLVED")) eqn:ER;
    destruct (bool_decide (newStatus = "CLOSED")) eqn:EC;
    destruct (Ticket.resolvedAt row) as [d1|];
    destruct (Ticket.closedAt row) as [d2|]; simpl;
    rewrite ?Hr, ?Hcl, ?some_eq_decide, ?ER, ?EC; simpl.
  all: (split; [intros s [= <-]; auto | done]).
Qed.

Lemma ticket_update_cases (ticketId : string) (u : UpdateData.t) (now : Z)
    (db : Db) (row : Ticket.t) :
  ticket db !! ticketId = Some row →
  (∃ e, ticket_update ticketId u now db = (Throw e, db))
  ∨ ticket_update ticketId u now db
    = (Return (write_update u now row),
       with_ticket (<[ticketId := write_update u now row]> (ticket db)) db).
Proof.
  intros Hrow. unfold ticket_update, bind, ticket_findUnique, gets. rewrite Hrow.
  destruct (negb _); [left; eauto | by right].
Qed.

(** Every run of the update route either leaves the table of tickets as it
    was (and then returns, if it returns, the stored row), or writes the
    row it found with an [updateData] whose status fields are those of
    [status_changes], and returns the written row. *)
Lemma patchTicket_cases w auth orgId ticketId body now db c db' :
  patchTicket w auth orgId ticketId body now db = (c, db') →
  (ticket db' = ticket db
   ∧ ∀ t', c = Return t' → ticket db !! ticketId = Some t')
  ∨ (∃ row u,
       ticket db !! ticketId = Some row
       ∧ status_changes row now u
       ∧ c = Return (write_update u now row)
       ∧ ticket db' = <[ticketId := write_update u now row]> (ticket db)).
Proof.
  unfold patchTicket.
  read_step (authenticate_reads auth) as u Eu; [|by intros [= <- <-]; left].
  read_step (requireOrg_reads u orgId) as role Er; [|by intros [= <- <-]; left].
  read_step (safeParse_reads (patchSchema body)) as ok Es;
    [|by intros [= <- <-]; left].
  apply safeParse_returns in Es.
  read_step (ticket_of_org_reads ticketId orgId) as row Et;
    [|by intros [= <- <-]; left].
  apply ticket_of_org_returns in Et as [Hrow Horg].
  destruct (title_description_frame role body row (UpdateData.empty, [])) as [R1 F1].
  read_step R1 as c1 E1; [|by intros [= <- <-]; left].
  apply F1 in E1.
  destruct (status_transition_spec role body row now c1
              (λ s, patchSchema_status body s Es) E1) as [R2 F2].
  read_step R2 as c2 E2; [|by intros [= <- <-]; left].
  apply F2 in E2.
  destruct (assignee_change_frame orgId body row c2) as [R3 F3].
  read_step R3 as c3 E3; [|by intros [= <- <-]; left].
  apply F3 in E3.
  pose proof (requiresApproval_change_frame body row c3) as F4.
  destruct (requiresApproval_change body row c3) as [updateData metadata].
  simpl in F4.
  assert (Hch : status_changes row now updateData).
  { unfold status_changes, enters in *. unfold status_fields in *.
    injection F4 as -> -> ->. injection E3 as -> -> ->. exact E2. }
  destruct (bool_decide _).
  { intros [= <- <-]. left. split; [done|]. by intros t' [= <-]. }
  destruct (ticket_update_cases ticketId updateData now db row Hrow) as [[e He]|Hup].
  { rewrite (bind_throw _ _ _ _ _ He). by intros [= <- <-]; left. }
  rewrite (bind_return _ _ _ _ _ Hup).
  match goal with
  | |- context [bind (createAuditLog w ?d) (λ _, ret ?a) ?s] =>
      destruct (audit_then_ret w d a s) as (db2 & -> & _ & _ & Ht)
  end.
  intros [= <- <-]. right. exists row, updateData. by rewrite Ht.
Qed.

(** ** Resolution and closure stamps *)

Lemma no_self_transition (s : string) : s ∉ validTransitions s.
Proof.
  unfold validTransitions, transitionRules, own_property.
  repeat (case_bool_decide; [subst; by_computation|]).
  simpl. apply not_elem_of_nil.
Qed.

Lemma is_Some_decide {A} (o : option A) :
  bool_decide (is_Some o) = match o with Some _ => true | None => false end.
Proof.
  destruct o.
  - by apply bool_decide_eq_true_2.
  - apply bool_decide_eq_false_2. by intros [? ?].
Qed.

Lemma stamp_milestone (new : option string) (cur target : string) (now : Z)
    (old : option Z) :
  (∀ s, new = Some s → s ≠ cur) →
  match stamp (bool_decide (new = Some target)) now old with
  | Some d => Some d
  | None => old
  end
  = milestone (bool_decide (default cur new = target)
               && negb (bool_decide (cur = target))) now old.
Proof.
  intros Hne. unfold stamp, milestone. rewrite is_Some_decide.
  destruct old as [d|], new as [s|]; simpl; rewrite ?some_eq_decide;
    repeat case_bool_decide; simpl; try congruence.
  subst. by destruct (Hne _ eq_refl).
Qed.

Lemma patch_one w auth orgId ticketId body now db row row' :
  ticket db !! ticketId = Some row →
  (patchTicket w auth orgId ticketId body now db).1 = Return row' →
  Ticket.resolvedAt row'
  = milestone (entered row row' "RESOLVED") now (Ticket.resolvedAt row)
  ∧ Ticket.closedAt row'
    = milestone (entered row row' "CLOSED") now (Ticket.closedAt row)
  ∧ ticket (patchTicket w auth orgId ticketId body now db).2 !! ticketId = Some row'.
Proof.
  intros Hrow Hret.
  destruct (patchTicket w auth orgId ticketId body now db) as [c db'] eqn:E.
  simpl in *. subst c.
  apply patchTicket_cases in E as [[Ht Hsame]|(r & u & Hr & Hch & Hc & Ht)].
  - specialize (Hsame row' eq_refl). rewrite Hrow in Hsame.
    injection Hsame as <-. rewrite Ht. split; [|split; [|done]].
    + unfold entered, milestone. destruct (bool_decide _); simpl;
        by destruct (Ticket.resolvedAt row).
    + unfold entered, milestone. destruct (bool_decide _); simpl;
        by destruct (Ticket.closedAt row).
  - rewrite Hrow in Hr. injection Hr as <-. injection Hc as ->.
    rewrite Ht, lookup_insert_eq.
    destruct Hch as (Hs & HR & HC).
    assert (Hne : ∀ s, UpdateData.status u = Some s → s ≠ Ticket.status row)
      by (intros s Hu; by destruct (Hs s Hu) as (_ & ? & _)).
    unfold entered, enters in *. simpl. rewrite HR, HC.
    by rewrite !(stamp_milestone _ (Ticket.status row)) by exact Hne.
Qed.

Lemma patch_keeps_stamps w auth orgId ticketId body now db id row :
  ticket db !! id = Some row →
  ∃ row', ticket (patchTicket w auth orgId ticketId body now db).2 !! id = Some row'
          ∧ (∀ d, Ticket.resolvedAt row = Some d → Ticket.resolvedAt row' = Some d)
          ∧ (∀ d, Ticket.closedAt row = Some d → Ticket.closedAt row' = Some d).
Proof.
  intros Hrow.
  destruct (patchTicket w auth orgId ticketId body now db) as [c db'] eqn:E.
  apply patchTicket_cases in E as [[Ht _]|(r & u & Hr & Hch & Hc & Ht)]; simpl.
  - rewrite Ht. by exists row.
  - rewrite Ht. destruct (decide (id = ticketId)) as [->|Hne].
    + rewrite lookup_insert_eq. rewrite Hrow in Hr. injection Hr as <-.
      exists (write_update u now row). split; [done|].
      destruct Hch as (_ & HR & HC). simpl. rewrite HR, HC.
      unfold stamp. rewrite !is_Some_decide.
      split; intros d ->; by rewrite andb_false_r.
    + rewrite lookup_insert_ne by done. by exists row.
Qed.

Lemma updates_keep_stamps w (rs : list Request) :
  Forall (λ r, is_update r = true) rs →
  ∀ db id row, ticket db !! id = Some row →
  ∃ row', ticket (serve_all w db rs) !! id = Some row'
          ∧ (∀ d, Ticket.resolvedAt row = Some d → Ticket.resolvedAt row' = Some d)
          ∧ (∀ d, Ticket.closedAt row = Some d → Ticket.closedAt row' = Some d).
Proof.
  induction 1 as [|r rs Hr _ IH]; intros db id row Hrow.
  - by exists row.
  - destruct r; try discriminate. unfold serve_all. simpl.
    destruct (patch_keeps_stamps w auth orgId ticketId body now db id row Hrow)
      as (row1 & H1 & HR1 & HC1).
    destruct (IH _ _ _ H1) as (row' & H' & HR' & HC').
    exists row'. split; [exact H'|]. split; eauto.
Qed.

Lemma ticket_of_org_found (ticketId orgId : string) (db : Db) (row : Ticket.t) :
  ticket db !! ticketId = Some row → Ticket.organizationId row = orgId →
  ticket_of_org ticketId orgId db = (Return row, db).
Proof.
  intros Hrow Horg. unfold ticket_of_org, bind, ticket_findUnique, gets.
  rewrite Hrow. by rewrite (bool_decide_eq_true_2 _ Horg).
Qed.

Lemma declared_truthy (s : string) : s ∈ statusEnum → truthy (Some s) = true.
Proof.
  unfold statusEnum. intros Hs.
  repeat (apply elem_of_cons in Hs as [->|Hs]); try done.
  by apply elem_of_nil in Hs.
Qed.

(** A member who is not a VIEWER and asks for nothing but a legal, declared
    status gets the ticket back in that status. *)
Lemma status_only_update w (u orgId role id target : string) (row : Ticket.t)
    (now : Z) (db : Db) :
  u ∈ user db → orgId ≠ "" →
  orgMembership db !! (u, orgId) = Some role → role ≠ "VIEWER" →
  ticket db !! id = Some row → Ticket.organizationId row = orgId →
  target ∈ statusEnum → target ∈ validTransitions (Ticket.status row) →
  ∃ row', (patchTicket w (bearer u) orgId id (status_only target) now db).1
          = Return row'
          ∧ Ticket.status row' = target.
Proof.
  intros Hu Ho Hm Hrole Hrow Horg Henum Hlegal.
  assert (Hne : target ≠ Ticket.status row).
  { intros ->. by apply (no_self_transition (Ticket.status row)). }
  unfold patchTicket.
  rewrite (bind_return _ _ _ _ _ (authenticate_bearer _ _ Hu)).
  rewrite (bind_return _ _ _ _ _ (requireOrg_member _ _ _ _ Ho Hm)).
  assert (Hs : patchSchema (status_only target) = []).
  { unfold patchSchema. simpl. by rewrite includes_true. }
  rewrite Hs. simpl safeParse. rewrite bind_ret.
  rewrite (bind_return _ _ _ _ _ (ticket_of_org_found _ _ _ _ Hrow Horg)).
  unfold title_description. simpl. rewrite bind_ret.
  unfold status_transition. simpl PatchBody.status. cbv iota.
  rewrite (declared_truthy _ Henum), (bool_decide_eq_false_2 _ Hne). simpl andb.
  cbv iota.
  rewrite not_viewer_check by done. rewrite includes_true by done.
  unfold lift at 1. unfold bind at 2. unfold bind at 1. simpl.
  unfold assignee_change, requiresApproval_change, ret. simpl.
  unfold ticket_update, bind, ticket_findUnique, gets. simpl.
  destruct (bool_decide (target = "RESOLVED") && _),
           (bool_decide (target = "CLOSED") && _); simpl; rewrite Hrow; simpl;
    (match goal with
     | |- context [createAuditLog w ?d ?s] =>
         destruct (createAuditLog_returns w d s) as (Hr & _);
         destruct (createAuditLog w d s) as [c s'] eqn:E; simpl in Hr; subst c
     end); simpl; eauto.
Qed.

(** C4. For a stored ticket: (1) an update that returns leaves the
    resolution stamp as it was when it was set, sets it to the time of the
    request when it was not set and the update moved the ticket into
    RESOLVED, and leaves it unset otherwise; the same holds of the closure
    stamp and CLOSED; the row returned is the row stored.  (2) Such updates
    happen: a member other than a VIEWER who asks for a legal status, and
    for nothing else, gets the ticket back in that status with the stamps
    of (1).  (3) After any sequence of update requests, legal or refused,
    the ticket is still stored and a stamp that was set has kept its
    value. *)
Theorem milestones_set_once w (db : Db) (id : string) (row : Ticket.t) :
  ticket db !! id = Some row →
  (∀ auth orgId body now row',
     (patchTicket w auth orgId id body now db).1 = Return row' →
     Ticket.resolvedAt row'
     = milestone (entered row row' "RESOLVED") now (Ticket.resolvedAt row)
     ∧ Ticket.closedAt row'
       = milestone (entered row row' "CLOSED") now (Ticket.closedAt row)
     ∧ ticket (patchTicket w auth orgId id body now db).2 !! id = Some row')
  ∧ (∀ u orgId role target now,
       u ∈ user db → orgId ≠ "" →
       orgMembership db !! (u, orgId) = Some role → role ≠ "VIEWER" →
       Ticket.organizationId row = orgId →
       target ∈ statusEnum → target ∈ validTransitions (Ticket.status row) →
       ∃ row', (patchTicket w (bearer u) orgId id (status_only target) now db).1
               = Return row'
               ∧ Ticket.status row' = target
               ∧ Ticket.resolvedAt row'
                 = milestone (bool_decide (target = "RESOLVED")) now
                     (Ticket.resolvedAt row)
               ∧ Ticket.closedAt row'
                 = milestone (bool_decide (target = "CLOSED")) now
                     (Ticket.closedAt row))
  ∧ (∀ rs, Forall (λ r, is_update r = true) rs →
       ∃ row', ticket (serve_all w db rs) !! id = Some row'
               ∧ (∀ d, Ticket.resolvedAt row = Some d →
                       Ticket.resolvedAt row' = Some d)
               ∧ (∀ d, Ticket.closedAt row = Some d →
                       Ticket.closedAt row' = Some d)).
Proof.
  intros Hrow. split; [|split].
  - intros auth orgId body now row' Hret. by apply patch_one.
  - intros u orgId role target now Hu Ho Hm Hrole Horg Henum Hlegal.
    destruct (status_only_update w u orgId role id target row now db)
      as (row' & Hret & Hst); try done.
    exists row'. split; [done|]. split; [done|].
    destruct (patch_one w _ _ _ _ _ _ _ _ Hrow Hret) as (HR & HC & _).
    assert (Hne : Ticket.status row ≠ target).
    { intros <-. by apply (no_self_transition (Ticket.status row)). }
    rewrite HR, HC. unfold entered. rewrite Hst.
    split; repeat case_bool_decide; simpl; congruence.
  - intros rs Hrs. by apply updates_keep_stamps.
Qed.

Lemma milestones_set_once_witness :
  (∃ row', (patchTicket Sample.audit_up (bearer "carol") "acme" "t1"
              (status_only "RESOLVED") 5000 Sample.db).1 = Return row'
           ∧ Ticket.status row' = "RESOLVED"
           ∧ Ticket.resolvedAt row' = Some 5000)
  ∧ (∃ row', ticket (serve_all Sample.audit_up Sample.db_resolved
                       [ PatchTicket (bearer "carol") "acme" "t1"
                           (status_only "CLOSED") 6000;
                         PatchTicket (bearer "carol") "acme" "t1"
                           (status_only "OPEN") 7000 ]) !! "t1" = Some row'
             ∧ Ticket.resolvedAt row' = Some 1500).
Proof.
  split.
  - destruct (milestones_set_once Sample.audit_up Sample.db "t1"
                (Sample.row "t1" "acme" "IN_PROGRESS" 1000 None))
      as (_ & H & _); [by vm_compute|].
    destruct (H "carol" "acme" "AGENT" "RESOLVED" 5000)
      as (row' & Hret & Hst & HR & _);
      try by_computation; try (by vm_compute).
    exists row'. split; [exact Hret|]. split; [exact Hst|]. exact HR.
  - destruct (milestones_set_once Sample.audit_up Sample.db_resolved "t1"
                (Sample.row "t1" "acme" "RESOLVED" 1000 (Some 1500)))
      as (_ & _ & H); [by vm_compute|].
    destruct (H [ PatchTicket (bearer "carol") "acme" "t1"
                    (status_only "CLOSED") 6000;
                  PatchTicket (bearer "carol") "acme" "t1"
                    (status_only "OPEN") 7000 ])
      as (row' & Hl & HR & _).
    { repeat constructor. }
    exists row'. split; [exact Hl|]. by apply HR.
Defined.

(** ** Looking a ticket up across organisations *)

Lemma ticket_of_org_absent (ticketId orgId : string) (db : Db) :
  ticket db !! ticketId = None →
  ticket_of_org ticketId orgId db
  = (Throw (AppErr (NotFoundError "Ticket not found")), db).
Proof.
  intros H. unfold ticket_of_org, bind, ticket_findUnique, gets. by rewrite H.
Qed.

Lemma ticket_of_org_foreign (ticketId orgId : string) (db : Db) (row : Ticket.t) :
  ticket db !! ticketId = Some row → Ticket.organizationId row ≠ orgId →
  ticket_of_org ticketId orgId db
  = (Throw (AppErr (ForbiddenError "Access denied to this ticket")), db).
Proof.
  intros H Hne. unfold ticket_of_org, bind, ticket_findUnique, gets.
  rewrite H. by rewrite (bool_decide_eq_false_2 _ Hne).
Qed.

(** The three routes that look a ticket up by its id, run by a member of
    the organisation of the request, up to the lookup. *)
Lemma lookup_routes w (u orgId role ticketId : string) (db : Db) (e : Err.AppError) :
  u ∈ user db → orgId ≠ "" → orgMembership db !! (u, orgId) = Some role →
  ticket_of_org ticketId orgId db = (Throw (AppErr e), db) →
  getTicket (bearer u) orgId ticketId db = (Throw (AppErr e), db)
  ∧ (∀ body now, patchSchema body = [] →
       patchTicket w (bearer u) orgId ticketId body now db = (Throw (AppErr e), db))
  ∧ (role ∈ ["OWNER"; "ADMIN"] →
       deleteTicket w (bearer u) orgId ticketId db = (Throw (AppErr e), db)).
Proof.
  intros Hu Ho Hm Ht. split; [|split].
  - unfold getTicket.
    rewrite (bind_return _ _ _ _ _ (authenticate_bearer _ _ Hu)).
    by rewrite (bind_return _ _ _ _ _ (requireOrg_member _ _ _ _ Ho Hm)).
  - intros body now Hs. unfold patchTicket.
    rewrite (bind_return _ _ _ _ _ (authenticate_bearer _ _ Hu)).
    rewrite (bind_return _ _ _ _ _ (requireOrg_member _ _ _ _ Ho Hm)).
    rewrite Hs. simpl safeParse. rewrite bind_ret.
    by rewrite (bind_throw _ _ _ _ _ Ht).
  - intros Hrole. unfold deleteTicket.
    rewrite (bind_return _ _ _ _ _ (authenticate_bearer _ _ Hu)).
    rewrite (bind_return _ _ _ _ _ (requireOrg_member _ _ _ _ Ho Hm)).
    rewrite (bind_return _ _ _ _ _ (requireRole_allowed _ _ _ Hrole)).
    by rewrite (bind_throw _ _ _ _ _ Ht).
Qed.

(** C5, as the code has it.  Let a member of the organisation of the
    request ask for a ticket by its id.  The update route answers a body
    that its schema refuses with ValidationError, and the delete route
    answers a member who is neither OWNER nor ADMIN with ForbiddenError
    ("Requires one of: OWNER, ADMIN"), before any lookup and whatever the
    ticket.  Every other request reaches the lookup: a ticket id that is
    not stored makes the get, update and delete routes throw NotFoundError
    (404, "Ticket not found"); a ticket stored under another organisation
    makes them throw ForbiddenError (403, "Access denied to this ticket").
    In every one of these cases the store is left as it was and no row is
    returned. *)
Theorem ticket_lookup_by_tenant w (u orgId role ticketId : string) (db : Db) :
  u ∈ user db → orgId ≠ "" → orgMembership db !! (u, orgId) = Some role →
  (ticket db !! ticketId = None →
     let e := NotFoundError "Ticket not found" in
     getTicket (bearer u) orgId ticketId db = (Throw (AppErr e), db)
     ∧ (∀ body now, patchSchema body = [] →
          patchTicket w (bearer u) orgId ticketId body now db
          = (Throw (AppErr e), db))
     ∧ (role ∈ ["OWNER"; "ADMIN"] →
          deleteTicket w (bearer u) orgId ticketId db = (Throw (AppErr e), db)))
  ∧ (∀ row, ticket db !! ticketId = Some row →
       Ticket.organizationId row ≠ orgId →
       let e := ForbiddenError "Access denied to this ticket" in
       getTicket (bearer u) orgId ticketId db = (Throw (AppErr e), db)
       ∧ (∀ body now, patchSchema body = [] →
            patchTicket w (bearer u) orgId ticketId body now db
            = (Throw (AppErr e), db))
       ∧ (role ∈ ["OWNER"; "ADMIN"] →
            deleteTicket w (bearer u) orgId ticketId db = (Throw (AppErr e), db)))
  ∧ (∀ body now, patchSchema body ≠ [] →
       patchTicket w (bearer u) orgId ticketId body now db
       = (Throw (AppErr (ValidationError "Validation failed"
                           (Err.fieldErrors (patchSchema body)))), db))
  ∧ (role ∉ ["OWNER"; "ADMIN"] →
       deleteTicket w (bearer u) orgId ticketId db
       = (Throw (AppErr (ForbiddenError "Requires one of: OWNER, ADMIN")), db)).
Proof.
  intros Hu Ho Hm. split; [|split; [|split]].
  - intros Habs e. apply (lookup_routes w u orgId role); try done.
    by apply ticket_of_org_absent.
  - intros row Hrow Hne e. apply (lookup_routes w u orgId role); try done.
    by apply (ticket_of_org_foreign _ _ _ row).
  - intros body now Hs. unfold patchTicket.
    rewrite (bind_return _ _ _ _ _ (authenticate_bearer _ _ Hu)).
    rewrite (bind_return _ _ _ _ _ (requireOrg_member _ _ _ _ Ho Hm)).
    apply bind_throw. unfold safeParse. by destruct (patchSchema body).
  - intros Hrole. unfold deleteTicket.
    rewrite (bind_return _ _ _ _ _ (authenticate_bearer _ _ Hu)).
    rewrite (bind_return _ _ _ _ _ (requireOrg_member _ _ _ _ Ho Hm)).
    apply bind_throw. unfold requireRole. by rewrite (includes_false _ _ Hrole).
Qed.

Lemma ticket_lookup_by_tenant_witness :
  getTicket (bearer "alice") "acme" "t9" Sample.db
  = (Throw (AppErr (NotFoundError "Ticket not found")), Sample.db)
  ∧ getTicket (bearer "alice") "acme" "t2" Sample.db
    = (Throw (AppErr (ForbiddenError "Access denied to this ticket")), Sample.db)
  ∧ deleteTicket Sample.audit_up (bearer "alice") "acme" "t2" Sample.db
    = (Throw (AppErr (ForbiddenError "Access denied to this ticket")), Sample.db)
  ∧ patchTicket Sample.audit_up (bearer "alice") "acme" "t2"
      (status_only "CLOSED") 5000 Sample.db
    = (Throw (AppErr (ForbiddenError "Access denied to this ticket")), Sample.db)
  ∧ patchTicket Sample.audit_up (bearer "alice") "acme" "t2"
      (status_only "REJECTED") 5000 Sample.db
    = (Throw (AppErr (ValidationError "Validation failed"
                        (Err.fieldErrors ["status"]))), Sample.db)
  ∧ deleteTicket Sample.audit_up (bearer "carol") "acme" "t2" Sample.db
    = (Throw (AppErr (ForbiddenError "Requires one of: OWNER, ADMIN")), Sample.db).
Proof.
  destruct (ticket_lookup_by_tenant Sample.audit_up "alice" "acme" "OWNER" "t9"
              Sample.db) as [Habs _]; try by_computation.
  destruct (ticket_lookup_by_tenant Sample.audit_up "alice" "acme" "OWNER" "t2"
              Sample.db) as (_ & Hfor & Hbody & _); try by_computation.
  destruct (ticket_lookup_by_tenant Sample.audit_up "carol" "acme" "AGENT" "t2"
              Sample.db) as (_ & _ & _ & Hrole); try by_computation.
  destruct (Habs ltac:(by vm_compute)) as (Hget & _).
  destruct (Hfor (Sample.row "t2" "globex" "OPEN" 2000 None)
              ltac:(by vm_compute) ltac:(by vm_compute)) as (Hget' & Hpatch & Hdel).
  split; [exact Hget|]. split; [exact Hget'|]. split; [|split; [|split]].
  - apply Hdel. by_computation.
  - apply Hpatch. by vm_compute.
  - apply (Hbody (status_only "REJECTED") 5000). by vm_compute.
  - apply Hrole. by_computation.
Defined.

(** C5, as the spec has it, fails: alice of acme asks for t2, a ticket of
    globex, and for t9, which no organisation has; the first request is
    answered 403 FORBIDDEN and the second 404 NOT_FOUND, on each of the
    three routes. *)
Lemma foreign_ticket_is_not_absent :
  ticket Sample.db !! "t9" = None
  ∧ (Ticket.organizationId <$> ticket Sample.db !! "t2") = Some "globex"
  ∧ thrown_code (getTicket (bearer "alice") "acme" "t2" Sample.db).1
    = Some "FORBIDDEN"
  ∧ thrown_code (getTicket (bearer "alice") "acme" "t9" Sample.db).1
    = Some "NOT_FOUND"
  ∧ thrown_code (patchTicket Sample.audit_up (bearer "alice") "acme" "t2"
                   (status_only "CLOSED") 5000 Sample.db).1 = Some "FORBIDDEN"
  ∧ thrown_code (patchTicket Sample.audit_up (bearer "alice") "acme" "t9"
                   (status_only "CLOSED") 5000 Sample.db).1 = Some "NOT_FOUND"
  ∧ thrown_code (deleteTicket Sample.audit_up (bearer "alice") "acme" "t2"
                   Sample.db).1 = Some "FORBIDDEN"
  ∧ thrown_code (deleteTicket Sample.audit_up (bearer "alice") "acme" "t9"
                   Sample.db).1 = Some "NOT_FOUND".
Proof. vm_compute. by repeat split. Qed.

(** ** Updates that change nothing *)

(** C6 at the failing input: owner alice sends the title the ticket
    already has.  The route does not compare it with the stored title: it
    runs the update, which moves [updatedAt] from 1000 to 5000, and writes
    an audit entry TICKET_UPDATED whose old and new title are equal. *)
Lemma repeated_title_is_written :
  (Ticket.title <$> ticket Sample.db !! "t1") = Some "Fix login bug"
  ∧ (Ticket.updatedAt <$> ticket Sample.db !! "t1") = Some 1000
  ∧ auditLog Sample.db = []
  ∧ (patchTicket Sample.audit_up (bearer "alice") "acme" "t1"
       (Sample.title_only "Fix login bug") 5000 Sample.db).1
    = Return
        {| Ticket.id := "t1"; Ticket.title := "Fix login bug";
           Ticket.description := "Users cannot login";
           Ticket.organizationId := "acme"; Ticket.status := "IN_PROGRESS";
           Ticket.requiresApproval := true; Ticket.creatorId := "alice";
           Ticket.assigneeId := None; Ticket.approvedById := None;
           Ticket.approvedAt := None; Ticket.createdAt := 1000;
           Ticket.updatedAt := 5000; Ticket.resolvedAt := None;
           Ticket.closedAt := None |}
  ∧ (Ticket.updatedAt
       <$> ticket (patchTicket Sample.audit_up (bearer "alice") "acme" "t1"
                     (Sample.title_only "Fix login bug") 5000 Sample.db).2
           !! "t1") = Some 5000
  ∧ auditLog (patchTicket Sample.audit_up (bearer "alice") "acme" "t1"
                (Sample.title_only "Fix login bug") 5000 Sample.db).2
    = [ {| Audit.organizationId := "acme"; Audit.userId := "alice";
           Audit.action := "TICKET_UPDATED"; Audit.ticketId := Some "t1";
           Audit.metadata :=
             [("oldTitle", str "Fix login bug"); ("newTitle", str "Fix login bug")] |} ].
Proof. vm_compute. by repeat split. Qed.

(** The fields the route does compare: a body without title and
    description whose status, assignee and approval flag repeat the stored
    values (the assignee, if any, being a member) returns the stored row
    and leaves the store as it was. *)
Lemma repeated_values_return_the_row w (u orgId role ticketId : string)
    (row : Ticket.t) (body : PatchBody.t) (now : Z) (db : Db) :
  u ∈ user db → orgId ≠ "" → orgMembership db !! (u, orgId) = Some role →
  ticket db !! ticketId = Some row → Ticket.organizationId row = orgId →
  patchSchema body = [] →
  PatchBody.title body = None → PatchBody.description body = None →
  (∀ s, PatchBody.status body = Some s → s = Ticket.status row) →
  (∀ a, PatchBody.assigneeId body = Some a →
        a = Ticket.assigneeId row
        ∧ (truthy a = true → is_Some (orgMembership db !! (default "" a, orgId)))) →
  (∀ b, PatchBody.requiresApproval body = Some b → b = Ticket.requiresApproval row) →
  patchTicket w (bearer u) orgId ticketId body now db = (Return row, db).
Proof.
  intros Hu Ho Hm Hrow Horg Hs Ht Hd Hst Ha Hra. unfold patchTicket.
  rewrite (bind_return _ _ _ _ _ (authenticate_bearer _ _ Hu)).
  rewrite (bind_return _ _ _ _ _ (requireOrg_member _ _ _ _ Ho Hm)).
  rewrite Hs. simpl safeParse. rewrite bind_ret.
  rewrite (bind_return _ _ _ _ _ (ticket_of_org_found _ _ _ _ Hrow Horg)).
  unfold title_description. rewrite Ht, Hd. simpl. rewrite bind_ret.
  assert (H1 : status_transition role body row now (UpdateData.empty, []) db
               = (Return (UpdateData.empty, []), db)).
  { unfold status_transition. destruct (PatchBody.status body) as [s|]; [|done].
    rewrite (Hst s eq_refl). rewrite (bool_decide_eq_true_2 _ eq_refl).
    by rewrite andb_false_r. }
  rewrite (bind_return _ _ _ _ _ H1).
  assert (H2 : assignee_change orgId body row (UpdateData.empty, []) db
               = (Return (UpdateData.empty, []), db)).
  { unfold assignee_change. destruct (PatchBody.assigneeId body) as [a|]; [|done].
    destruct (Ha a eq_refl) as [-> Hmem].
    rewrite (bool_decide_eq_true_2 _ eq_refl). simpl.
    destruct (truthy (Ticket.assigneeId row)); [|done].
    destruct (Hmem eq_refl) as [r Hr].
    unfold bind, orgMembership_findUnique, gets. by rewrite Hr. }
  rewrite (bind_return _ _ _ _ _ H2).
  unfold requiresApproval_change.
  destruct (PatchBody.requiresApproval body) as [b|]; [|done].
  rewrite (Hra b eq_refl). by rewrite (bool_decide_eq_true_2 _ eq_refl).
Qed.

(** ** Creating a ticket *)

Lemma ticket_create_cases (newId title description orgId creator : string)
    (assignee : option string) (flag : bool) (status : string) (now : Z) (db : Db) :
  (ticket db !! newId = None ∧ assignee_fkey assignee db = true
   ∧ ∃ row, ticket_create newId title description orgId creator assignee flag
              status now db
            = (Return row, with_ticket (<[newId := row]> (ticket db)) db)
            ∧ Ticket.status row = status
            ∧ Ticket.requiresApproval row = flag)
  ∨ ((ticket db !! newId ≠ None ∨ assignee_fkey assignee db = false)
     ∧ ∃ e, ticket_create newId title description orgId creator assignee flag
              status now db = (Throw e, db)).
Proof.
  unfold ticket_create, bind, gets, modify, raise, ret.
  destruct (ticket db !! newId) as [t|] eqn:Et.
  - right. split; [by left|]. rewrite bool_decide_eq_true_2 by eauto. eauto.
  - rewrite bool_decide_eq_false_2 by (by intros [? ?]).
    destruct (assignee_fkey assignee db) eqn:Ef; simpl.
    + left. split; [done|]. split; [done|]. eexists. by split.
    + right. split; [by right|]. eauto.
Qed.

Lemma assignee_member_reads (assigneeId : option string) (orgId : string) :
  reads (if truthy assigneeId then
           let* assignee := orgMembership_findUnique (default "" assigneeId) orgId in
           match assignee with
           | None =>
               throw (ValidationError "Assignee is not a member of this organization"
                        Err.null)
           | Some _ => ret tt
           end
         else ret tt).
Proof.
  intros db. destruct (truthy assigneeId); [|done].
  unfold bind, orgMembership_findUnique, gets. by destruct (orgMembership db !! _).
Qed.

Lemma createTicket_returns w auth orgId body newId now db row :
  (createTicket w auth orgId body newId now db).1 = Return row →
  create_accepted auth orgId body newId db
  ∧ Ticket.status row = "OPEN"
  ∧ Ticket.requiresApproval row = default false (CreateBody.requiresApproval body)
  ∧ ticket (createTicket w auth orgId body newId now db).2 !! newId = Some row.
Proof.
  unfold createTicket.
  read_step (authenticate_reads auth) as u Eu; [|discriminate].
  read_step (requireOrg_reads u orgId) as role Er; [|discriminate].
  read_step (safeParse_reads (createSchema body)) as ok Es; [|discriminate].
  read_step (assignee_member_reads (CreateBody.assigneeId body) orgId) as ok' Ea;
    [|discriminate].
  match goal with
  | |- context [ticket_create ?a ?b ?c ?d ?e ?f ?g ?h ?i] =>
      destruct (ticket_create_cases a b c d e f g h i db)
        as [(Hfree & Hfk & r & Hc & Hst & Hfl)|(_ & e' & Hc)]
  end.
  2:{ rewrite (bind_throw _ _ _ _ _ Hc). discriminate. }
  rewrite (bind_return _ _ _ _ _ Hc).
  match goal with
  | |- context [bind (createAuditLog w ?d) (λ _, ret ?a) ?s] =>
      destruct (audit_then_ret w d a s) as (db2 & -> & _ & _ & Ht)
  end.
  simpl. intros [= <-]. rewrite Ht. simpl. rewrite lookup_insert_eq.
  split; [|done].
  apply (f_equal fst) in Eu. apply authenticate_returns in Eu as [-> Hu].
  exists u. split; [done|]. split; [done|].
  split. { intros ->. revert Er. unfold requireOrg. simpl. discriminate. }
  split. { apply (f_equal fst) in Er. apply requireOrg_returns in Er. eauto. }
  split. { by apply safeParse_returns in Es. }
  split; [|done].
  intros Htr. rewrite Htr in Ea. revert Ea.
  unfold bind, orgMembership_findUnique, gets.
  destruct (orgMembership db !! _); [eauto|discriminate].
Qed.

Lemma create_accepted_returns w auth orgId body newId now db :
  create_accepted auth orgId body newId db →
  ∃ row, (createTicket w auth orgId body newId now db).1 = Return row.
Proof.
  intros (u & -> & Hu & Ho & [role Hm] & Hs & Ha & Hfree & Hfk).
  unfold createTicket.
  rewrite (bind_return _ _ _ _ _ (authenticate_bearer _ _ Hu)).
  rewrite (bind_return _ _ _ _ _ (requireOrg_member _ _ _ _ Ho Hm)).
  rewrite Hs. simpl safeParse. rewrite bind_ret.
  assert (Hmem : (if truthy (CreateBody.assigneeId body) then
           let* assignee :=
             orgMembership_findUnique (default "" (CreateBody.assigneeId body)) orgId in
           match assignee with
           | None =>
               throw (ValidationError "Assignee is not a member of this organization"
                        Err.null)
           | Some _ => ret tt
           end
         else ret tt) db = (Return tt, db)).
  { destruct (truthy (CreateBody.assigneeId body)); [|done].
    destruct (Ha eq_refl) as [r Hr].
    unfold bind, orgMembership_findUnique, gets. by rewrite Hr. }
  rewrite (bind_return _ _ _ _ _ Hmem).
  match goal with
  | |- context [ticket_create ?a ?b ?c ?d ?e ?f ?g ?h ?i] =>
      destruct (ticket_create_cases a b c d e f g h i db)
        as [(_ & _ & r & Hc & _)|([Hx|Hx] & _)]; [|congruence..]
  end.
  rewrite (bind_return _ _ _ _ _ Hc).
  match goal with
  | |- context [bind (createAuditLog w ?d) (λ _, ret ?a) ?s] =>
      destruct (audit_then_ret w d a s) as (db2 & -> & _)
  end.
  by exists r.
Qed.

(** C7. A create request that returns stores and returns a ticket whose
    status is OPEN, with the approval flag of the request (false when it
    names none).  The route returns exactly for the requests of
    [create_accepted], a condition in which the flag does not occur: a
    request that returns still returns, with an OPEN ticket, under any
    other value of the flag. *)
Theorem created_ticket_is_open w auth orgId body newId now db :
  (∀ row, (createTicket w auth orgId body newId now db).1 = Return row →
          Ticket.status row = "OPEN"
          ∧ Ticket.requiresApproval row
            = default false (CreateBody.requiresApproval body)
          ∧ ticket (createTicket w auth orgId body newId now db).2 !! newId
            = Some row)
  ∧ (create_accepted auth orgId body newId db
     ↔ ∃ row, (createTicket w auth orgId body newId now db).1 = Return row)
  ∧ (∀ flag row,
       (createTicket w auth orgId body newId now db).1 = Return row →
       ∃ row', (createTicket w auth orgId (with_requiresApproval flag body)
                  newId now db).1 = Return row'
               ∧ Ticket.status row' = "OPEN"
               ∧ Ticket.requiresApproval row' = default false flag).
Proof.
  split; [|split].
  - intros row Hret. by destruct (createTicket_returns _ _ _ _ _ _ _ _ Hret) as (_ & ?).
  - split.
    + apply create_accepted_returns.
    + intros [row Hret]. by destruct (createTicket_returns _ _ _ _ _ _ _ _ Hret).
  - intros flag row Hret.
    destruct (createTicket_returns _ _ _ _ _ _ _ _ Hret) as (Hacc & _).
    assert (Hacc' : create_accepted auth orgId (with_requiresApproval flag body)
                      newId db) by exact Hacc.
    destruct (create_accepted_returns w _ _ _ _ now _ Hacc') as [row' Hret'].
    exists row'. split; [done|].
    by destruct (createTicket_returns _ _ _ _ _ _ _ _ Hret') as (_ & ? & ? & _).
Qed.

Lemma created_ticket_is_open_witness :
  ∃ row row',
    (createTicket Sample.audit_up (bearer "carol") "acme"
       (Sample.new_ticket (Some true)) "t3" 3000 Sample.db).1 = Return row
    ∧ Ticket.status row = "OPEN" ∧ Ticket.requiresApproval row = true
    ∧ (createTicket Sample.audit_up (bearer "carol") "acme"
         (with_requiresApproval None (Sample.new_ticket (Some true)))
         "t3" 3000 Sample.db).1 = Return row'
    ∧ Ticket.status row' = "OPEN" ∧ Ticket.requiresApproval row' = false.
Proof.
  destruct (created_ticket_is_open Sample.audit_up (bearer "carol") "acme"
              (Sample.new_ticket (Some true)) "t3" 3000 Sample.db)
    as (Hopen & [Hacc _] & Hflag).
  destruct Hacc as [row Hret].
  { exists "carol". repeat split; by_computation. }
  destruct (Hopen row Hret) as (Hst & Hra & _).
  destruct (Hflag None row Hret) as (row' & Hret' & Hst' & Hra').
  exists row, row'. repeat split; assumption.
Defined.

(** ** Listing tickets *)

Lemma Math_ceil_div_spec (total limit : Z) :
  0 < limit →
  (Math_ceil_div total limit - 1) * limit < total ≤ Math_ceil_div total limit * limit.
Proof.
  intros Hl. unfold Math_ceil_div.
  pose proof (Z.div_mod (- total) limit ltac:(lia)) as Hdm.
  pose proof (Z.mod_pos_bound (- total) limit Hl) as Hb.
  nia.
Qed.

Lemma listSchema_bounds (q : Query.t) :
  listSchema q = [] →
  1 ≤ default 1 (Query.page q)
  ∧ 1 ≤ default 10 (Query.limit q) ≤ 100.
Proof.
  unfold listSchema. intros H.
  apply app_eq_nil in H as [_ H]. apply app_eq_nil in H as [Hp Hl].
  apply refuse_nil in Hp. apply refuse_nil in Hl.
  destruct (Query.page q) as [p|], (Query.limit q) as [l|]; simpl in *.
  all: try apply andb_true_iff in Hl as [Hl1 Hl2].
  all: repeat match goal with
         | H : bool_decide _ = true |- _ => apply bool_decide_eq_true_1 in H
         end; lia.
Qed.

Lemma listSchema_limit (q : Query.t) (l : Z) :
  Query.limit q = Some l → 100 < l → "limit" ∈ listSchema q.
Proof.
  intros Hq Hl. unfold listSchema. rewrite Hq. simpl.
  rewrite (bool_decide_eq_false_2 (l ≤ 100)) by lia.
  rewrite andb_false_r. simpl. rewrite !elem_of_app. right. right.
  apply list_elem_of_here.
Qed.

Lemma page_length (rows : list Ticket.t) (skip take : Z) :
  0 ≤ skip → 0 ≤ take →
  Z.of_nat (length (firstn (Z.to_nat take)
                      (skipn (Z.to_nat skip) (merge_sort createdAt_desc rows))))
  = Z.min take (Z.max 0 (Z.of_nat (length rows) - skip)).
Proof.
  intros Hs Ht. rewrite length_take, length_drop.
  rewrite (Permutation_length (merge_sort_Permutation createdAt_desc rows)).
  lia.
Qed.

Lemma listTickets_accepted (u orgId role : string) (q : Query.t) (db : Db) :
  u ∈ user db → orgId ≠ "" → orgMembership db !! (u, orgId) = Some role →
  listSchema q = [] →
  listTickets (bearer u) orgId q db
  = (Return
       {| Listing.data :=
            firstn (Z.to_nat (default 10 (Query.limit q)))
              (skipn (Z.to_nat ((default 1 (Query.page q) - 1)
                                * default 10 (Query.limit q)))
                 (merge_sort createdAt_desc (ticket_where (build_where orgId q) db)));
          Listing.pagination :=
            {| Pagination.page := default 1 (Query.page q);
               Pagination.limit := default 10 (Query.limit q);
               Pagination.total :=
                 Z.of_nat (length (ticket_where (build_where orgId q) db));
               Pagination.pages :=
                 Math_ceil_div
                   (Z.of_nat (length (ticket_where (build_where orgId q) db)))
                   (default 10 (Query.limit q)) |} |}, db).
Proof.
  intros Hu Ho Hm Hs. unfold listTickets.
  rewrite (bind_return _ _ _ _ _ (authenticate_bearer _ _ Hu)).
  rewrite (bind_return _ _ _ _ _ (requireOrg_member _ _ _ _ Ho Hm)).
  rewrite Hs. reflexivity.
Qed.

Lemma listTickets_refused (u orgId role : string) (q : Query.t) (db : Db) :
  u ∈ user db → orgId ≠ "" → orgMembership db !! (u, orgId) = Some role →
  listSchema q ≠ [] →
  listTickets (bearer u) orgId q db
  = (Throw (AppErr (ValidationError "Validation failed"
                      (Err.fieldErrors (listSchema q)))), db).
Proof.
  intros Hu Ho Hm Hs. unfold listTickets.
  rewrite (bind_return _ _ _ _ _ (authenticate_bearer _ _ Hu)).
  rewrite (bind_return _ _ _ _ _ (requireOrg_member _ _ _ _ Ho Hm)).
  destruct (listSchema q); [done|]. reflexivity.
Qed.

Lemma listTickets_limit_unanswered auth (orgId : string) (q : Query.t) (db : Db)
    (l : Z) :
  Query.limit q = Some l → 100 < l →
  ∀ r, (listTickets auth orgId q db).1 ≠ Return r.
Proof.
  intros Hq Hl r. pose proof (listSchema_limit q l Hq Hl) as Hin.
  unfold listTickets.
  read_step (authenticate_reads auth) as u Eu; [|done].
  read_step (requireOrg_reads u orgId) as role Er; [|done].
  read_step (safeParse_reads (listSchema q)) as ok Es; [|done].
  apply safeParse_returns in Es. rewrite Es in Hin. by apply elem_of_nil in Hin.
Qed.

(** C8. No request with a limit above 100 is answered with a listing.  For
    a member of the organisation: (1) a limit above 100 is refused
    with a ValidationError that names the field [limit]; (2) a query the
    schema accepts is answered, with a limit that is the one of the query
    or 10 when it names none and lies between 1 and 100, with the total
    count of the matching rows, with [pages] the ceiling of total / limit
    (the least number of pages of that size that hold the total) and with
    as many rows as the page holds, never more than the limit; (3) page 1
    with limit 10 over 25 matching tickets has 10 rows and 3 pages. *)
Theorem listing_is_paginated (u orgId role : string) (q : Query.t) (db : Db) :
  u ∈ user db → orgId ≠ "" → orgMembership db !! (u, orgId) = Some role →
  (∀ auth l r, Query.limit q = Some l → 100 < l →
     (listTickets auth orgId q db).1 ≠ Return r)
  ∧ (∀ l, Query.limit q = Some l → 100 < l →
     ∃ fields,
       listTickets (bearer u) orgId q db
       = (Throw (AppErr (ValidationError "Validation failed"
                           (Err.fieldErrors fields))), db)
       ∧ "limit" ∈ fields)
  ∧ (listSchema q = [] →
       ∃ r, listTickets (bearer u) orgId q db = (Return r, db)
            ∧ Pagination.limit (Listing.pagination r) = default 10 (Query.limit q)
            ∧ 1 ≤ Pagination.limit (Listing.pagination r) ≤ 100
            ∧ Pagination.total (Listing.pagination r)
              = Z.of_nat (length (ticket_where (build_where orgId q) db))
            ∧ (Pagination.pages (Listing.pagination r) - 1)
              * Pagination.limit (Listing.pagination r)
              < Pagination.total (Listing.pagination r)
              ≤ Pagination.pages (Listing.pagination r)
                * Pagination.limit (Listing.pagination r)
            ∧ Z.of_nat (length (Listing.data r))
              = Z.min (Pagination.limit (Listing.pagination r))
                  (Z.max 0 (Pagination.total (Listing.pagination r)
                            - (Pagination.page (Listing.pagination r) - 1)
                              * Pagination.limit (Listing.pagination r)))
            ∧ Z.of_nat (length (Listing.data r))
              ≤ Pagination.limit (Listing.pagination r))
  ∧ (listSchema q = [] →
     default 1 (Query.page q) = 1 → default 10 (Query.limit q) = 10 →
     length (ticket_where (build_where orgId q) db) = 25%nat →
       ∃ r, listTickets (bearer u) orgId q db = (Return r, db)
            ∧ length (Listing.data r) = 10%nat
            ∧ Pagination.pages (Listing.pagination r) = 3).
Proof.
  intros Hu Ho Hm. split; [|split; [|split]].
  - intros auth l r Hq Hl. by apply (listTickets_limit_unanswered auth orgId q db l).
  - intros l Hq Hl. exists (listSchema q).
    pose proof (listSchema_limit q l Hq Hl) as Hin.
    split; [|done]. apply (listTickets_refused u orgId role); try done.
    intros Hnil. rewrite Hnil in Hin. by apply elem_of_nil in Hin.
  - intros Hs. destruct (listSchema_bounds q Hs) as [Hp Hl].
    eexists. split; [by apply (listTickets_accepted u orgId role)|]. simpl.
    split; [done|]. split; [done|]. split; [done|].
    split; [apply Math_ceil_div_spec; lia|].
    rewrite page_length by nia. split; [done|]. lia.
  - intros Hs Hp Hl H25. destruct (listSchema_bounds q Hs) as [_ _].
    eexists. split; [by apply (listTickets_accepted u orgId role)|]. simpl.
    rewrite Hp, Hl, H25. split; [|reflexivity].
    apply Nat2Z.inj. rewrite page_length by lia. rewrite H25. reflexivity.
Qed.

Lemma listing_is_paginated_witness :
  (∃ fields,
     listTickets (bearer "alice") "acme" (Sample.page_of (Some 1) (Some 101))
       Sample.db25
     = (Throw (AppErr (ValidationError "Validation failed"
                         (Err.fieldErrors fields))), Sample.db25)
     ∧ "limit" ∈ fields)
  ∧ (∃ r, listTickets (bearer "alice") "acme" (Sample.page_of (Some 1) (Some 10))
            Sample.db25 = (Return r, Sample.db25)
          ∧ length (Listing.data r) = 10%nat
          ∧ Pagination.pages (Listing.pagination r) = 3)
  ∧ (∃ r, listTickets (bearer "alice") "acme" (Sample.page_of None None)
            Sample.db25 = (Return r, Sample.db25)
          ∧ Pagination.limit (Listing.pagination r) = 10).
Proof.
  split; [|split].
  - destruct (listing_is_paginated "alice" "acme" "OWNER"
                (Sample.page_of (Some 1) (Some 101)) Sample.db25)
      as (_ & H & _); try by_computation.
    apply (H 101); [reflexivity | lia].
  - destruct (listing_is_paginated "alice" "acme" "OWNER"
                (Sample.page_of (Some 1) (Some 10)) Sample.db25)
      as (_ & _ & _ & H); try by_computation.
    apply H; by vm_compute.
  - destruct (listing_is_paginated "alice" "acme" "OWNER"
                (Sample.page_of None None) Sample.db25)
      as (_ & _ & H & _); try by_computation.
    destruct H as (r & Hr & Hl & _); [by vm_compute|].
    exists r. split; [exact Hr | exact Hl].
Defined.

(** ** The audit sink *)

Lemma same_refl {A} (r : Completion A * Db) : same_outcome r r.
Proof. by repeat split. Qed.

Lemma bind_same {A B} (m : Handler A) (k1 k2 : A → Handler B) db :
  (∀ a db', same_outcome (k1 a db') (k2 a db')) →
  same_outcome (bind m k1 db) (bind m k2 db).
Proof.
  intros H. unfold bind. destruct (m db) as [[a|e] db']; [apply H | apply same_refl].
Qed.

Lemma audit_same {A} w1 w2 (data : Audit.data) (a : A) (db : Db) :
  same_outcome ((createAuditLog w1 data ;;; ret a) db)
               ((createAuditLog w2 data ;;; ret a) db).
Proof.
  destruct (audit_then_ret w1 data a db) as (db1 & -> & Hu1 & Hm1 & Ht1).
  destruct (audit_then_ret w2 data a db) as (db2 & -> & Hu2 & Hm2 & Ht2).
  unfold same_outcome. simpl. by rewrite Hu1, Hu2, Hm1, Hm2, Ht1, Ht2.
Qed.

Ltac same_step :=
  first
    [ apply audit_same
    | apply same_refl
    | apply bind_same; intros ? ?
    | match goal with
      | |- same_outcome ((if ?b then _ else _) _) _ => destruct b
      | |- same_outcome ((let '(_, _) := ?x in _) _) _ => destruct x
      end ].

(** C9 at the failing input.  Owner alice deletes t1, a ticket of her
    organisation.  When the audit table accepts the row, the request fails
    with the error of the expired transaction, the ticket stays, and the
    audit table holds an entry that says it was deleted; when the audit
    write fails, the request succeeds and the ticket is gone.  The
    outcome of the delete route depends on the outcome of the audit
    write. *)
Lemma delete_depends_on_the_audit_write :
  (Ticket.organizationId <$> ticket Sample.db !! "t1") = Some "acme"
  ∧ deleteTicket Sample.audit_up (bearer "alice") "acme" "t1" Sample.db
    = (Throw (StoreErr "Transaction already closed"),
       with_auditLog
         [{| Audit.organizationId := "acme"; Audit.userId := "alice";
             Audit.action := "TICKET_UPDATED"; Audit.ticketId := Some "t1";
             Audit.metadata :=
               [("action", str "deleted"); ("title", str "Fix login bug")] |}]
         Sample.db)
  ∧ (deleteTicket Sample.audit_down (bearer "alice") "acme" "t1" Sample.db).1
    = Return "Ticket deleted"
  ∧ ticket (deleteTicket Sample.audit_down (bearer "alice") "acme" "t1"
              Sample.db).2 !! "t1" = None
  ∧ logger (deleteTicket Sample.audit_down (bearer "alice") "acme" "t1"
              Sample.db).2 = ["Failed to create audit log"].
Proof. vm_compute. by repeat split. Qed.

(** X22. (1) The audit-record operation returns normally whatever the
    write against the audit table does: a write that fails is caught, one
    line goes to the error log and nothing else changes; a write that
    succeeds replaces the audit table.  (2) For any two behaviours of that
    write, the create and update routes of tickets and the two member
    routes complete in the same way, with the same value or the same
    error, and leave the same users, memberships and tickets. *)
Theorem audit_write_is_not_observed w1 w2 :
  (∀ data db,
     (createAuditLog w1 data db).1 = Return tt
     ∧ (w1 data (auditLog db) = None →
        (createAuditLog w1 data db).2
        = with_logger (logger db ++ ["Failed to create audit log"]) db)
     ∧ (∀ rows, w1 data (auditLog db) = Some rows →
        (createAuditLog w1 data db).2 = with_auditLog rows db))
  ∧ (∀ auth orgId body newId now db,
       same_outcome (createTicket w1 auth orgId body newId now db)
                    (createTicket w2 auth orgId body newId now db))
  ∧ (∀ auth orgId ticketId body now db,
       same_outcome (patchTicket w1 auth orgId ticketId body now db)
                    (patchTicket w2 auth orgId ticketId body now db))
  ∧ (∀ auth orgId userId db,
       same_outcome (removeMember w1 auth orgId userId db)
                    (removeMember w2 auth orgId userId db))
  ∧ (∀ auth orgId userId body db,
       same_outcome (changeMemberRole w1 auth orgId userId body db)
                    (changeMemberRole w2 auth orgId userId body db)).
Proof.
  split; [|split; [|split; [|split]]].
  - intros data db.
    unfold createAuditLog, try_catch, prisma_auditLog_create, logger_error, modify.
    destruct (w1 data (auditLog db)) as [rows|]; simpl.
    + split; [done|]. split; [discriminate|]. by intros ? [= <-].
    + by repeat split.
  - intros. unfold createTicket. repeat same_step.
  - intros. unfold patchTicket. repeat same_step.
  - intros. unfold removeMember. repeat same_step.
  - intros. unfold changeMemberRole.
    repeat first
      [ same_step
      | match goal with
        | |- same_outcome ((match ?x with Some _ => _ | None => _ end) _) _ =>
            destruct x
        end ].
Qed.

Lemma audit_write_is_not_observed_witness :
  (createAuditLog Sample.audit_down
     {| Audit.organizationId := "acme"; Audit.userId := "alice";
        Audit.action := "TICKET_CREATED"; Audit.ticketId := None;
        Audit.metadata := [] |} Sample.db).1 = Return tt
  ∧ logger
      (createAuditLog Sample.audit_down
         {| Audit.organizationId := "acme"; Audit.userId := "alice";
            Audit.action := "TICKET_CREATED"; Audit.ticketId := None;
            Audit.metadata := [] |} Sample.db).2
    = ["Failed to create audit log"]
  ∧ (patchTicket Sample.audit_down (bearer "carol") "acme" "t1"
       (status_only "RESOLVED") 5000 Sample.db).1
    = (patchTicket Sample.audit_up (bearer "carol") "acme" "t1"
         (status_only "RESOLVED") 5000 Sample.db).1.
Proof.
  destruct (audit_write_is_not_observed Sample.audit_down Sample.audit_up)
    as (Hsink & _ & Hpatch & _).
  destruct (Hsink {| Audit.organizationId := "acme"; Audit.userId := "alice";
                     Audit.action := "TICKET_CREATED"; Audit.ticketId := None;
                     Audit.metadata := [] |} Sample.db) as (Hret & Hfail & _).
  split; [exact Hret|]. split.
  - rewrite (Hfail eq_refl). reflexivity.
  - apply Hpatch.
Defined.

(** ** The statuses a ticket can reach *)

Lemma listTickets_reads auth orgId q : reads (listTickets auth orgId q).
Proof.
  intros db. unfold listTickets.
  read_step (authenticate_reads auth) as u Eu; [|done].
  read_step (requireOrg_reads u orgId) as role Er; [|done].
  read_step (safeParse_reads (listSchema q)) as ok Es; [|done].
  reflexivity.
Qed.

Lemma getTicket_reads auth orgId ticketId : reads (getTicket auth orgId ticketId).
Proof.
  intros db. unfold getTicket.
  read_step (authenticate_reads auth) as u Eu; [|done].
  read_step (requireOrg_reads u orgId) as role Er; [|done].
  apply ticket_of_org_reads.
Qed.

Lemma createTicket_tickets w auth orgId body newId now db :
  ticket (createTicket w auth orgId body newId now db).2 = ticket db
  ∨ ∃ row, Ticket.status row = "OPEN"
           ∧ ticket (createTicket w auth orgId body newId now db).2
             = <[newId := row]> (ticket db).
Proof.
  unfold createTicket.
  read_step (authenticate_reads auth) as u Eu; [|by left].
  read_step (requireOrg_reads u orgId) as role Er; [|by left].
  read_step (safeParse_reads (createSchema body)) as ok Es; [|by left].
  read_step (assignee_member_reads (CreateBody.assigneeId body) orgId) as ok' Ea;
    [|by left].
  match goal with
  | |- context [ticket_create ?a ?b ?c ?d ?e ?f ?g ?h ?i] =>
      destruct (ticket_create_cases a b c d e f g h i db)
        as [(_ & _ & r & Hc & Hst & _)|(_ & e' & Hc)]
  end.
  2:{ rewrite (bind_throw _ _ _ _ _ Hc). by left. }
  rewrite (bind_return _ _ _ _ _ Hc).
  match goal with
  | |- context [bind (createAuditLog w ?d) (λ _, ret ?a) ?s] =>
      destruct (audit_then_ret w d a s) as (db2 & -> & _ & _ & Ht)
  end.
  right. exists r. simpl. by rewrite Ht.
Qed.

(** The transaction of the delete route on a stored ticket. *)
Lemma delete_with_audit_cases w (ticketId : string) (data : Audit.data) (db : Db)
    (row : Ticket.t) :
  ticket db !! ticketId = Some row →
  (∃ rows, w data (auditLog db) = Some rows
           ∧ delete_with_audit w ticketId data db
             = (Throw (StoreErr "Transaction already closed"),
                with_auditLog rows db))
  ∨ (w data (auditLog db) = None
     ∧ delete_with_audit w ticketId data db
       = (Return tt,
          with_logger (logger db ++ ["Failed to create audit log"])
            (with_auditLog
               (filter (λ a, Audit.ticketId a ≠ Some ticketId) (auditLog db))
               (with_ticket (delete ticketId (ticket db)) db)))).
Proof.
  intros Hrow. unfold delete_with_audit, bind, gets.
  destruct (w data (auditLog db)) as [rows|].
  - left. by exists rows.
  - right. split; [done|].
    unfold ticket_delete, bind, ticket_findUnique, gets. by rewrite Hrow.
Qed.

Lemma deleteTicket_tickets w auth orgId ticketId db :
  ticket (deleteTicket w auth orgId ticketId db).2 = ticket db
  ∨ ticket (deleteTicket w auth orgId ticketId db).2 = delete ticketId (ticket db).
Proof.
  unfold deleteTicket.
  read_step (authenticate_reads auth) as u Eu; [|by left].
  read_step (requireOrg_reads u orgId) as role Er; [|by left].
  read_step (λ db, requireRole_reads ["OWNER"; "ADMIN"] role db) as ok Ea; [|by left].
  read_step (ticket_of_org_reads ticketId orgId) as row Et; [|by left].
  apply ticket_of_org_returns in Et as [Hrow _].
  match goal with
  | |- context [delete_with_audit w ticketId ?d] =>
      destruct (delete_with_audit_cases w ticketId d db row Hrow)
        as [(rows & _ & Hd)|(_ & Hd)]
  end.
  - rewrite (bind_throw _ _ _ _ _ Hd). by left.
  - rewrite (bind_return _ _ _ _ _ Hd). by right.
Qed.

Lemma removeMember_tickets w auth orgId userId db :
  ticket (removeMember w auth orgId userId db).2 = ticket db.
Proof.
  unfold removeMember.
  read_step (authenticate_reads auth) as u Eu; [|done].
  read_step (requireOrg_reads u orgId) as role Er; [|done].
  read_step (λ db, requireRole_reads ["OWNER"; "ADMIN"] role db) as ok Ea; [|done].
  assert (Hg : reads (if bool_decide (userId = u) then
                        let* ownerCount := orgMembership_count orgId "OWNER" in
                        if bool_decide (ownerCount = 1) then
                          throw (ValidationError "Cannot remove the only owner" Err.null)
                        else ret tt
                      else ret tt)).
  { intros db0. destruct (bool_decide (userId = u)); [|done].
    unfold bind, orgMembership_count, gets. by destruct (bool_decide _). }
  read_step Hg as ok' Eg; [|done].
  unfold orgMembership_delete at 1. unfold bind at 1.
  unfold bind at 1. unfold orgMembership_findUnique, gets.
  destruct (orgMembership db !! (userId, orgId)); [|done].
  unfold modify.
  match goal with
  | |- context [bind (createAuditLog w ?d) (λ _, ret ?a) ?s] =>
      destruct (audit_then_ret w d a s) as (db2 & -> & _ & _ & Ht)
  end.
  simpl. by rewrite Ht.
Qed.

Lemma serve_declared w (db : Db) (r : Request) :
  statuses_declared db → statuses_declared (serve w db r).
Proof.
  unfold statuses_declared. intros Hdb. destruct r; simpl.
  - by rewrite listTickets_reads.
  - destruct (createTicket_tickets w auth orgId body newId now db)
      as [->|(row & Hst & ->)]; [done|].
    apply map_Forall_insert_2; [|done]. rewrite Hst. by_computation.
  - by rewrite getTicket_reads.
  - destruct (patchTicket w auth orgId ticketId body now db) as [c db'] eqn:E.
    simpl.
    apply patchTicket_cases in E as [[-> _]|(row & u & Hrow & Hch & _ & ->)];
      [done|].
    apply map_Forall_insert_2; [|done]. simpl.
    destruct Hch as (Hs & _).
    destruct (UpdateData.status u) as [s|]; simpl.
    + by destruct (Hs s eq_refl).
    + by apply (Hdb ticketId).
  - destruct (deleteTicket_tickets w auth orgId ticketId db) as [->| ->]; [done|].
    by apply map_Forall_delete.
  - by rewrite removeMember_tickets.
Qed.

Lemma serve_all_declared w (rs : list Request) (db : Db) :
  statuses_declared db → statuses_declared (serve_all w db rs).
Proof.
  revert db. induction rs as [|r rs IH]; intros db Hdb; [done|].
  unfold serve_all. simpl. apply IH. by apply serve_declared.
Qed.

Lemma rejected_body_refused w auth orgId ticketId body now db :
  PatchBody.status body = Some "REJECTED" →
  (∀ row, (patchTicket w auth orgId ticketId body now db).1 ≠ Return row)
  ∧ (patchTicket w auth orgId ticketId body now db).2 = db.
Proof.
  intros Hb. unfold patchTicket.
  read_step (authenticate_reads auth) as u Eu; [|done].
  read_step (requireOrg_reads u orgId) as role Er; [|done].
  read_step (safeParse_reads (patchSchema body)) as ok Es; [|done].
  apply safeParse_returns in Es.
  pose proof (patchSchema_status body "REJECTED" Es Hb) as Hin.
  exfalso. revert Hin. by_computation.
Qed.

(** C10. The table lists REJECTED among the targets of PENDING_APPROVAL
    and the transition check accepts that pair; the update schema accepts
    the six names of the declared enumeration and REJECTED is not one of
    them; so an update request that asks for REJECTED never returns and
    leaves the store as it was (a member gets a ValidationError), and over
    every sequence of requests to the routes, from a store whose tickets
    have declared statuses, every ticket keeps a declared status and none
    is REJECTED. *)
Theorem rejected_is_unreachable w :
  "REJECTED" ∈ validTransitions "PENDING_APPROVAL"
  ∧ validateStatusTransition "PENDING_APPROVAL" "REJECTED" "ADMIN" = Return true
  ∧ statusEnum = status_name <$> all_statuses
  ∧ ("REJECTED" ∉ statusEnum)
  ∧ (∀ auth orgId ticketId body now db,
       PatchBody.status body = Some "REJECTED" →
       (∀ row, (patchTicket w auth orgId ticketId body now db).1 ≠ Return row)
       ∧ (patchTicket w auth orgId ticketId body now db).2 = db)
  ∧ (∀ u orgId role ticketId body now db,
       u ∈ user db → orgId ≠ "" → orgMembership db !! (u, orgId) = Some role →
       PatchBody.status body = Some "REJECTED" →
       thrown_code (patchTicket w (bearer u) orgId ticketId body now db).1
       = Some "VALIDATION_ERROR")
  ∧ (∀ rs db,
       statuses_declared db →
       statuses_declared (serve_all w db rs)
       ∧ ∀ id row, ticket (serve_all w db rs) !! id = Some row →
                   Ticket.status row ≠ "REJECTED").
Proof.
  split; [by_computation|]. split; [reflexivity|]. split; [reflexivity|].
  split; [by_computation|]. split; [|split].
  - intros. by apply rejected_body_refused.
  - intros u orgId role ticketId body now db Hu Ho Hm Hb. unfold patchTicket.
    rewrite (bind_return _ _ _ _ _ (authenticate_bearer _ _ Hu)).
    rewrite (bind_return _ _ _ _ _ (requireOrg_member _ _ _ _ Ho Hm)).
    destruct (patchSchema body) as [|f fs] eqn:Es; [|reflexivity].
    exfalso. pose proof (patchSchema_status body "REJECTED" Es Hb) as Hin.
    revert Hin. by_computation.
  - intros rs db Hdb.
    pose proof (serve_all_declared w rs db Hdb) as Hall.
    split; [exact Hall|].
    intros id row Hrow Hrej. specialize (Hall id row Hrow). simpl in Hall.
    rewrite Hrej in Hall. revert Hall. by_computation.
Qed.

Lemma rejected_is_unreachable_witness :
  patchTicket Sample.audit_up (bearer "bob") "acme" "t1"
    (status_only "REJECTED") 5000 Sample.db_pending
  = (Throw (AppErr (ValidationError "Validation failed" (Err.fieldErrors ["status"]))),
     Sample.db_pending)
  ∧ thrown_code (patchTicket Sample.audit_up (bearer "bob") "acme" "t1"
                   (status_only "REJECTED") 5000 Sample.db_pending).1
    = Some "VALIDATION_ERROR"
  ∧ statuses_declared
      (serve_all Sample.audit_up Sample.db_pending
         [ PatchTicket (bearer "bob") "acme" "t1" (status_only "REJECTED") 5000;
           PatchTicket (bearer "bob") "acme" "t1" (status_only "APPROVED") 6000 ]).
Proof.
  destruct (rejected_is_unreachable Sample.audit_up)
    as (_ & _ & _ & _ & _ & Hcode & Hseq).
  split; [by vm_compute|]. split.
  - apply (Hcode "bob" "acme" "ADMIN"); by_computation.
  - apply Hseq. unfold statuses_declared. by_computation.
Defined.

(** * Further properties of the routes *)

(** A closed goal, by its decision procedure or by evaluation of both
    sides. *)
Ltac by_evaluation := first [by_computation | by vm_compute].

(** ** The update route, run by run *)

Lemma own_property_assign_eq {A} (o : list (string * A)) (k : string) (v : A) :
  own_property (assign o k v) k = Some v.
Proof.
  induction o as [|[k' v'] o IH]; simpl.
  - by rewrite bool_decide_eq_true_2.
  - destruct (bool_decide (k' = k)) eqn:E; simpl.
    + by rewrite bool_decide_eq_true_2.
    + by rewrite E.
Qed.

Lemma own_property_assign_ne {A} (o : list (string * A)) (k k' : string) (v : A) :
  k ≠ k' → own_property (assign o k v) k' = own_property o k'.
Proof.
  intros Hne. induction o as [|[k0 v0] o IH]; simpl.
  - by rewrite bool_decide_eq_false_2.
  - destruct (bool_decide (k0 = k)) eqn:E; simpl.
    + apply bool_decide_eq_true_1 in E as ->.
      by rewrite !(bool_decide_eq_false_2 (k = k')).
    + destruct (bool_decide (k0 = k')); [done|exact IH].
Qed.

Lemma status_keys_assign (m : list (string * Value)) (k : string) (v : Value) :
  k ≠ "oldStatus" → k ≠ "newStatus" → status_keys (assign m k v) = status_keys m.
Proof.
  intros H1 H2. unfold status_keys. by rewrite !own_property_assign_ne.
Qed.

Lemma title_description_returns role body row (c c' : Changes) db :
  title_description role body row c db = (Return c', db) →
  beside_text c'.1 = beside_text c.1
  ∧ status_keys c'.2 = status_keys c.2
  ∧ UpdateData.title c'.1
    = (if truthy (PatchBody.title body) then PatchBody.title body
       else UpdateData.title c.1)
  ∧ UpdateData.description c'.1
    = (if truthy (PatchBody.description body) then PatchBody.description body
       else UpdateData.description c.1)
  ∧ (truthy (PatchBody.title body) || truthy (PatchBody.description body) = true →
     hasRole role ["OWNER"; "ADMIN"] = true).
Proof.
  unfold title_description.
  destruct (truthy (PatchBody.title body) || truthy (PatchBody.description body))
    eqn:Ec.
  2:{ intros [= <-]. apply orb_false_iff in Ec as [-> ->]. by repeat split. }
  destruct (hasRole role ["OWNER"; "ADMIN"]); simpl; [|discriminate].
  intros [= <-].
  destruct (PatchBody.title body) as [t|], (PatchBody.description body) as [d|];
    simpl; repeat (destruct (negb _); simpl);
    rewrite ?status_keys_assign by done; by repeat split.
Qed.

Lemma status_transition_returns role body row now (c c' : Changes) db :
  status_transition role body row now c db = (Return c', db) →
  beside_status c'.1 = beside_status c.1
  ∧ ((c' = c
      ∧ ∀ s, PatchBody.status body = Some s → s = "" ∨ s = Ticket.status row)
     ∨ ∃ s, PatchBody.status body = Some s
            ∧ s ≠ "" ∧ s ≠ Ticket.status row
            ∧ role ≠ "VIEWER"
            ∧ s ∈ validTransitions (Ticket.status row)
            ∧ UpdateData.status c'.1 = Some s
            ∧ status_keys c'.2 = (Some (str (Ticket.status row)), Some (str s))).
Proof.
  unfold status_transition.
  destruct (PatchBody.status body) as [s|] eqn:Eb.
  2:{ intros [= <-]. split; [done|]. left. by split. }
  destruct (truthy (Some s) && negb (bool_decide (s = Ticket.status row))) eqn:Ec.
  2:{ intros [= <-]. split; [done|]. left. split; [done|]. intros s' [= <-].
      apply andb_false_iff in Ec as [Ec|Ec].
      - left. simpl in Ec. apply negb_false_iff in Ec.
        by apply bool_decide_eq_true_1 in Ec.
      - right. apply negb_false_iff in Ec. by apply bool_decide_eq_true_1 in Ec. }
  apply andb_true_iff in Ec as [Ht Hne]. simpl in Ht.
  apply negb_true_iff in Ht, Hne.
  apply bool_decide_eq_false_1 in Ht, Hne.
  unfold bind, lift.
  destruct (validateStatusTransition (Ticket.status row) s role) as [b|e] eqn:Ev;
    [|discriminate].
  intros [= <-].
  assert (Hrole : role ≠ "VIEWER").
  { intros ->. by rewrite viewer_forbidden in Ev. }
  assert (Hin : s ∈ validTransitions (Ticket.status row)).
  { rewrite not_viewer_check in Ev by done.
    destruct (includes _ _) eqn:Ei; [|discriminate].
    by apply bool_decide_eq_true_1 in Ei. }
  split.
  { by destruct (bool_decide (s = "RESOLVED") && _),
                (bool_decide (s = "CLOSED") && _). }
  right. exists s. split; [done|]. split; [done|]. split; [done|].
  split; [done|]. split; [done|]. split.
  { by destruct (bool_decide (s = "RESOLVED") && _),
                (bool_decide (s = "CLOSED") && _). }
  simpl. unfold status_keys.
  rewrite own_property_assign_ne by done.
  by rewrite !own_property_assign_eq.
Qed.

Lemma assignee_change_returns orgId body row (c c' : Changes) db :
  assignee_change orgId body row c db = (Return c', db) →
  beside_assignee c'.1 = beside_assignee c.1
  ∧ status_keys c'.2 = status_keys c.2
  ∧ match PatchBody.assigneeId body with
    | None => UpdateData.assigneeId c'.1 = UpdateData.assigneeId c.1
    | Some a =>
        (truthy a = true → is_Some (orgMembership db !! (default "" a, orgId)))
        ∧ UpdateData.assigneeId c'.1
          = (if bool_decide (a = Ticket.assigneeId row)
             then UpdateData.assigneeId c.1 else Some a)
    end.
Proof.
  unfold assignee_change.
  destruct (PatchBody.assigneeId body) as [a|]; [|by intros [= <-]].
  unfold bind, orgMembership_findUnique, gets.
  destruct (truthy a); simpl.
  - destruct (orgMembership db !! _) as [r|]; simpl; [|discriminate].
    destruct (bool_decide (a = Ticket.assigneeId row)); simpl; intros [= <-];
      simpl; rewrite ?status_keys_assign by done; repeat split; eauto.
  - destruct (bool_decide (a = Ticket.assigneeId row)); simpl; intros [= <-];
      simpl; rewrite ?status_keys_assign by done; by repeat split.
Qed.

Lemma requiresApproval_change_spec body row (c : Changes) :
  beside_approval (requiresApproval_change body row c).1 = beside_approval c.1
  ∧ status_keys (requiresApproval_change body row c).2 = status_keys c.2
  ∧ UpdateData.requiresApproval (requiresApproval_change body row c).1
    = match PatchBody.requiresApproval body with
      | Some b =>
          if bool_decide (b = Ticket.requiresApproval row)
          then UpdateData.requiresApproval c.1 else Some b
      | None => UpdateData.requiresApproval c.1
      end.
Proof.
  unfold requiresApproval_change.
  destruct (PatchBody.requiresApproval body) as [b|]; [|done].
  destruct (bool_decide (b = Ticket.requiresApproval row)); simpl;
    rewrite ?status_keys_assign by done; by repeat split.
Qed.

(** The update route once the middleware, the schema and the lookup have
    let the request through. *)
Lemma patchTicket_member w (u orgId role id : string) (body : PatchBody.t) (now : Z)
    (db : Db) (row : Ticket.t) :
  u ∈ user db → orgId ≠ "" → orgMembership db !! (u, orgId) = Some role →
  patchSchema body = [] →
  ticket db !! id = Some row → Ticket.organizationId row = orgId →
  patchTicket w (bearer u) orgId id body now db
  = (let* c := title_description role body row (UpdateData.empty, []) in
     let* c := status_transition role body row now c in
     let* c := assignee_change orgId body row c in
     let '(updateData, metadata) := requiresApproval_change body row c in
     if bool_decide (length (UpdateData.keys updateData) = 0%nat) then ret row
     else
       let* updated := ticket_update id updateData now in
       createAuditLog w (update_entry orgId u id metadata) ;;;
       ret updated) db.
Proof.
  intros Hu Ho Hm Hs Hrow Horg. unfold patchTicket.
  rewrite (bind_return _ _ _ _ _ (authenticate_bearer _ _ Hu)).
  rewrite (bind_return _ _ _ _ _ (requireOrg_member _ _ _ _ Ho Hm)).
  rewrite Hs. simpl safeParse. rewrite bind_ret.
  by rewrite (bind_return _ _ _ _ _ (ticket_of_org_found _ _ _ _ Hrow Horg)).
Qed.

Lemma requireOrg_not_empty (u orgId role : string) (db : Db) :
  requireOrg u orgId db = (Return role, db) → orgId ≠ "".
Proof. intros H ->. revert H. unfold requireOrg. simpl. discriminate. Qed.

Lemma ticket_update_written (id : string) (u : UpdateData.t) (now : Z)
    (db db1 : Db) (row t' : Ticket.t) :
  ticket db !! id = Some row →
  ticket_update id u now db = (Return t', db1) →
  t' = write_update u now row
  ∧ db1 = with_ticket (<[id := write_update u now row]> (ticket db)) db
  ∧ assignee_fkey (default None (UpdateData.assigneeId u)) db = true.
Proof.
  intros Hrow. unfold ticket_update, bind, ticket_findUnique, gets. rewrite Hrow.
  destruct (assignee_fkey _ db); simpl; [|discriminate].
  by intros [= <- <-].
Qed.

(** Every run of the update route that returns went through the four
    blocks, and either wrote nothing or wrote the row with the collected
    [updateData] and handed the collected [metadata] to the audit sink. *)
Lemma patchTicket_inv w auth (orgId id : string) (body : PatchBody.t) (now : Z)
    (db db' : Db) (row' : Ticket.t) :
  patchTicket w auth orgId id body now db = (Return row', db') →
  ∃ u role row c1 c2 c3,
    auth = bearer u ∧ u ∈ user db ∧ orgId ≠ ""
    ∧ orgMembership db !! (u, orgId) = Some role
    ∧ patchSchema body = []
    ∧ ticket db !! id = Some row ∧ Ticket.organizationId row = orgId
    ∧ title_description role body row (UpdateData.empty, []) db = (Return c1, db)
    ∧ status_transition role body row now c1 db = (Return c2, db)
    ∧ assignee_change orgId body row c2 db = (Return c3, db)
    ∧ ((UpdateData.keys (requiresApproval_change body row c3).1 = []
        ∧ row' = row ∧ db' = db)
       ∨ (UpdateData.keys (requiresApproval_change body row c3).1 ≠ []
          ∧ row' = write_update (requiresApproval_change body row c3).1 now row
          ∧ assignee_fkey
              (default None
                 (UpdateData.assigneeId (requiresApproval_change body row c3).1))
              db = true
          ∧ db' = (createAuditLog w
                     (update_entry orgId u id (requiresApproval_change body row c3).2)
                     (with_ticket (<[id := row']> (ticket db)) db)).2)).
Proof.
  unfold patchTicket.
  read_step (authenticate_reads auth) as u Eu; [|discriminate].
  apply (f_equal fst) in Eu. apply authenticate_returns in Eu as [-> Hu].
  read_step (requireOrg_reads u orgId) as role Er; [|discriminate].
  pose proof (requireOrg_not_empty _ _ _ _ Er) as Ho.
  apply (f_equal fst) in Er. apply requireOrg_returns in Er.
  read_step (safeParse_reads (patchSchema body)) as ok Es; [|discriminate].
  apply safeParse_returns in Es.
  read_step (ticket_of_org_reads id orgId) as row Et; [|discriminate].
  apply ticket_of_org_returns in Et as [Hrow Horg].
  destruct (title_description_frame role body row (UpdateData.empty, [])) as [R1 _].
  read_step R1 as c1 E1; [|discriminate].
  destruct (status_transition_spec role body row now c1
              (λ s, patchSchema_status body s Es)) as [R2 _].
  { destruct (title_description_frame role body row (UpdateData.empty, []))
      as [_ F1]. by apply (F1 db). }
  read_step R2 as c2 E2; [|discriminate].
  destruct (assignee_change_frame orgId body row c2) as [R3 _].
  read_step R3 as c3 E3; [|discriminate].
  intros H. exists u, role, row, c1, c2, c3.
  do 10 (split; [done|]).
  revert H.
  destruct (requiresApproval_change body row c3) as [updateData metadata]. simpl.
  case_bool_decide as Hk.
  { intros [= <- <-]. left. by apply length_zero_iff_nil in Hk. }
  assert (Hk' : UpdateData.keys updateData ≠ []).
  { intros Hnil. by rewrite Hnil in Hk. }
  destruct (ticket_update id updateData now db) as [[t'|e] db1] eqn:Eup.
  2:{ rewrite (bind_throw _ _ _ _ _ Eup). discriminate. }
  rewrite (bind_return _ _ _ _ _ Eup).
  apply (ticket_update_written _ _ _ _ _ _ _ Hrow) in Eup as (-> & -> & Hfk).
  match goal with
  | |- context [bind (createAuditLog w ?d) (λ _, ret ?a) ?s] =>
      destruct (audit_then_ret w d a s) as (db2 & Hrun & _);
      pose proof (f_equal snd Hrun) as Hsnd; rewrite Hrun
  end.
  intros [= <- <-]. right.
  split; [done|]. split; [done|]. split; [done|].
  revert Hsnd. unfold bind.
  match goal with
  | |- context [createAuditLog w ?d ?s] =>
      destruct (createAuditLog_returns w d s) as (Hr & _);
      destruct (createAuditLog w d s) as [c s'] eqn:E; simpl in Hr; subst c
  end.
  simpl. intros <-. unfold update_entry. by rewrite E.
Qed.

Lemma strlen_positive (s : string) : 1 ≤ strlen s → s ≠ "".
Proof. intros H ->. unfold strlen in H. simpl in H. lia. Qed.

Lemma patchSchema_text (body : PatchBody.t) :
  patchSchema body = [] →
  (∀ t, PatchBody.title body = Some t → truthy (Some t) = true)
  ∧ (∀ d, PatchBody.description body = Some d → truthy (Some d) = true).
Proof.
  unfold patchSchema. intros H.
  apply app_eq_nil in H as [Ht H]. apply app_eq_nil in H as [Hd _].
  apply refuse_nil in Ht. apply refuse_nil in Hd.
  split.
  - intros t Et. rewrite Et in Ht. simpl in Ht.
    apply andb_true_iff in Ht as [Ht _]. apply bool_decide_eq_true_1 in Ht.
    simpl. by rewrite (bool_decide_eq_false_2 _ (strlen_positive _ Ht)).
  - intros d Ed. rewrite Ed in Hd. simpl in Hd.
    apply bool_decide_eq_true_1 in Hd.
    simpl. by rewrite (bool_decide_eq_false_2 _ (strlen_positive _ Hd)).
Qed.

(** X1. A member who is neither OWNER nor ADMIN and sends a title or a
    description is never served, whatever else the body asks for: the
    update route throws an application error and nothing is written.
    When the body passes the schema and the ticket is a stored ticket of
    the organisation, the error is ForbiddenError "Only admins can update
    ticket title/description". *)
Theorem text_edit_needs_admin w (u orgId role id : string) (body : PatchBody.t)
    (now : Z) (db : Db) :
  u ∈ user db → orgId ≠ "" → orgMembership db !! (u, orgId) = Some role →
  role ∉ ["OWNER"; "ADMIN"] →
  is_Some (PatchBody.title body) ∨ is_Some (PatchBody.description body) →
  (∃ e, patchTicket w (bearer u) orgId id body now db = (Throw (AppErr e), db))
  ∧ (patchSchema body = [] →
     ∀ row, ticket db !! id = Some row → Ticket.organizationId row = orgId →
       patchTicket w (bearer u) orgId id body now db
       = (Throw (AppErr (ForbiddenError
                           "Only admins can update ticket title/description")),
          db)).
Proof.
  intros Hu Ho Hm Hrole Htext.
  assert (Hown : patchSchema body = [] →
                 ∀ row, ticket db !! id = Some row →
                        Ticket.organizationId row = orgId →
                 patchTicket w (bearer u) orgId id body now db
                 = (Throw (AppErr (ForbiddenError
                             "Only admins can update ticket title/description")),
                    db)).
  { intros Hs row Hrow Horg.
    rewrite (patchTicket_member w u orgId role id body now db row) by done.
    apply bind_throw. unfold title_description.
    destruct (patchSchema_text body Hs) as [Ht Hd].
    assert (Hc : truthy (PatchBody.title body)
                 || truthy (PatchBody.description body) = true).
    { destruct Htext as [[t Et]|[d Ed]].
      - rewrite Et, (Ht t Et). done.
      - rewrite Ed, (Hd d Ed). by rewrite orb_true_r. }
    rewrite Hc. unfold hasRole. by rewrite includes_false. }
  split; [|exact Hown].
  destruct (decide (patchSchema body = [])) as [Hs|Hs].
  - destruct (ticket db !! id) as [row|] eqn:Hrow.
    + destruct (decide (Ticket.organizationId row = orgId)) as [Horg|Horg].
      * eexists. by apply (Hown Hs row).
      * eexists.
        by apply (lookup_routes w u orgId role id db _ Hu Ho Hm
                    (ticket_of_org_foreign _ _ _ row Hrow Horg)).
    + eexists.
      by apply (lookup_routes w u orgId role id db _ Hu Ho Hm
                  (ticket_of_org_absent _ _ _ Hrow)).
  - exists (ValidationError "Validation failed"
              (Err.fieldErrors (patchSchema body))).
    unfold patchTicket.
    rewrite (bind_return _ _ _ _ _ (authenticate_bearer _ _ Hu)).
    rewrite (bind_return _ _ _ _ _ (requireOrg_member _ _ _ _ Ho Hm)).
    apply bind_throw. unfold safeParse. by destruct (patchSchema body).
Qed.

Lemma text_edit_needs_admin_witness :
  patchTicket Sample.audit_up (bearer "carol") "acme" "t1"
    {| PatchBody.title := Some "Renamed"; PatchBody.description := None;
       PatchBody.status := Some "RESOLVED"; PatchBody.assigneeId := None;
       PatchBody.requiresApproval := None |} 5000 Sample.db
  = (Throw (AppErr (ForbiddenError
                      "Only admins can update ticket title/description")),
     Sample.db).
Proof.
  destruct (text_edit_needs_admin Sample.audit_up "carol" "acme" "AGENT" "t1"
              {| PatchBody.title := Some "Renamed"; PatchBody.description := None;
                 PatchBody.status := Some "RESOLVED";
                 PatchBody.assigneeId := None;
                 PatchBody.requiresApproval := None |} 5000 Sample.db)
    as [_ H]; [by_computation..| |].
  { left. by eexists. }
  apply (H ltac:(by vm_compute) (Sample.row "t1" "acme" "IN_PROGRESS" 1000 None));
    by vm_compute.
Defined.

(** X2. An update that returns has changed the title or the description
    only for an OWNER or ADMIN, and the status only for a role other than
    VIEWER, to the status the body names, along an edge of the transition
    table. *)
Theorem update_respects_roles w auth (orgId id : string) (body : PatchBody.t)
    (now : Z) (db : Db) (row row' : Ticket.t) :
  ticket db !! id = Some row →
  (patchTicket w auth orgId id body now db).1 = Return row' →
  ∃ u role,
    auth = bearer u ∧ orgMembership db !! (u, orgId) = Some role
    ∧ Ticket.organizationId row = orgId
    ∧ (Ticket.title row' ≠ Ticket.title row
       ∨ Ticket.description row' ≠ Ticket.description row →
       role ∈ ["OWNER"; "ADMIN"])
    ∧ (Ticket.status row' ≠ Ticket.status row →
       role ≠ "VIEWER"
       ∧ PatchBody.status body = Some (Ticket.status row')
       ∧ Ticket.status row' ∈ validTransitions (Ticket.status row)).
Proof.
  intros Hrow Hret.
  destruct (patchTicket w auth orgId id body now db) as [c db'] eqn:E.
  simpl in Hret. subst c.
  apply patchTicket_inv in E
    as (u & role & row0 & c1 & c2 & c3 & -> & Hu & Ho & Hm & Hs & Hrow0 & Horg
        & E1 & E2 & E3 & Hend).
  rewrite Hrow in Hrow0. injection Hrow0 as <-.
  exists u, role. do 3 (split; [done|]).
  apply title_description_returns in E1 as (F1 & _ & Ht & Hd & Hadmin).
  apply status_transition_returns in E2 as (F2 & Hst).
  apply assignee_change_returns in E3 as (F3 & _).
  destruct (requiresApproval_change_spec body row c3) as (F4 & _).
  destruct Hend as [(_ & -> & _)|(_ & -> & _)]; [by split; [intros [?|?]|]|].
  unfold beside_text, beside_status, beside_assignee, beside_approval in *.
  simpl in *.
  injection F4 as Ft4 Fd4 Fs4 _ _ _. injection F3 as Ft3 Fd3 Fs3 _ _ _.
  injection F2 as Ft2 Fd2 _ _. injection F1 as Fs1 _ _ _ _.
  rewrite Ft4, Ft3, Ft2, Ht. rewrite Fd4, Fd3, Fd2, Hd. rewrite Fs4, Fs3.
  split.
  - intros Hchg.
    assert (Hc : truthy (PatchBody.title body)
                 || truthy (PatchBody.description body) = true).
    { destruct (truthy (PatchBody.title body)); [done|].
      destruct (truthy (PatchBody.description body)); [done|].
      simpl in Hchg. by destruct Hchg. }
    specialize (Hadmin Hc). unfold hasRole, includes in Hadmin.
    by apply bool_decide_eq_true_1 in Hadmin.
  - destruct Hst as [[-> _]|(s & Hb & _ & Hne & Hrole & Hin & Hc2 & _)].
    + rewrite Fs1. simpl. done.
    + rewrite Hc2. simpl. by intros _.
Qed.

Lemma update_respects_roles_witness :
  ∃ u role,
    bearer "carol" = bearer u
    ∧ orgMembership Sample.db !! (u, "acme") = Some role
    ∧ role ≠ "VIEWER"
    ∧ "RESOLVED" ∈ validTransitions "IN_PROGRESS".
Proof.
  destruct (update_respects_roles Sample.audit_up (bearer "carol") "acme" "t1"
              (status_only "RESOLVED") 5000 Sample.db
              (Sample.row "t1" "acme" "IN_PROGRESS" 1000 None)
              (write_update
                 (UpdateData.set_resolvedAt 5000
                    (UpdateData.set_status "RESOLVED" UpdateData.empty))
                 5000 (Sample.row "t1" "acme" "IN_PROGRESS" 1000 None)))
    as (u & role & Hu & Hm & _ & _ & Hst); [by vm_compute | by vm_compute |].
  destruct Hst as (Hrole & _ & Hin); [by vm_compute|].
  exists u, role. by repeat split.
Defined.

Lemma patchTicket_members w auth (orgId id : string) (body : PatchBody.t) (now : Z)
    (db : Db) :
  user (patchTicket w auth orgId id body now db).2 = user db
  ∧ orgMembership (patchTicket w auth orgId id body now db).2 = orgMembership db.
Proof.
  unfold patchTicket.
  read_step (authenticate_reads auth) as u Eu; [|done].
  read_step (requireOrg_reads u orgId) as role Er; [|done].
  read_step (safeParse_reads (patchSchema body)) as ok Es; [|done].
  read_step (ticket_of_org_reads id orgId) as row Et; [|done].
  apply ticket_of_org_returns in Et as [Hrow _].
  destruct (title_description_frame role body row (UpdateData.empty, [])) as [R1 _].
  read_step R1 as c1 E1; [|done].
  assert (R2 : reads (status_transition role body row now c1)).
  { intros db0. unfold status_transition.
    destruct (PatchBody.status body); [|done].
    destruct (_ && _); [|done]. unfold bind, lift.
    by destruct (validateStatusTransition _ _ _). }
  read_step R2 as c2 E2; [|done].
  destruct (assignee_change_frame orgId body row c2) as [R3 _].
  read_step R3 as c3 E3; [|done].
  destruct (requiresApproval_change body row c3) as [updateData metadata].
  destruct (bool_decide _); [done|].
  destruct (ticket_update_cases id updateData now db row Hrow) as [[e He]|Hup].
  { by rewrite (bind_throw _ _ _ _ _ He). }
  rewrite (bind_return _ _ _ _ _ Hup).
  match goal with
  | |- context [bind (createAuditLog w ?d) (λ _, ret ?a) ?s] =>
      destruct (audit_then_ret w d a s) as (db2 & -> & Hu & Hm & _)
  end.
  simpl. by rewrite Hu, Hm.
Qed.

(** X3. Whatever an update request asks and however it ends, the users
    and the memberships are left as they were, no ticket is added or
    removed, every ticket other than the one addressed keeps its row, and
    the ticket addressed keeps its id, organisation, creator, creation
    time and approval fields. *)
Theorem update_frame w auth (orgId id : string) (body : PatchBody.t) (now : Z)
    (db : Db) :
  user (patchTicket w auth orgId id body now db).2 = user db
  ∧ orgMembership (patchTicket w auth orgId id body now db).2 = orgMembership db
  ∧ dom (ticket (patchTicket w auth orgId id body now db).2) = dom (ticket db)
  ∧ (∀ id' row,
       ticket db !! id' = Some row →
       ∃ row', ticket (patchTicket w auth orgId id body now db).2 !! id' = Some row'
               ∧ (id' ≠ id → row' = row)
               ∧ Ticket.id row' = Ticket.id row
               ∧ Ticket.organizationId row' = Ticket.organizationId row
               ∧ Ticket.creatorId row' = Ticket.creatorId row
               ∧ Ticket.createdAt row' = Ticket.createdAt row
               ∧ Ticket.approvedById row' = Ticket.approvedById row
               ∧ Ticket.approvedAt row' = Ticket.approvedAt row).
Proof.
  destruct (patchTicket_members w auth orgId id body now db) as [Hu Hm].
  split; [done|]. split; [done|].
  destruct (patchTicket w auth orgId id body now db) as [c db'] eqn:E. simpl.
  apply patchTicket_cases in E as [[Ht _]|(r & u & Hr & _ & _ & Ht)]; rewrite Ht.
  - split; [done|]. intros id' row Hrow. exists row. by repeat split.
  - split.
    { apply dom_insert_lookup_L. by exists r. }
    intros id' row Hrow. destruct (decide (id' = id)) as [->|Hne].
    + rewrite lookup_insert_eq. rewrite Hr in Hrow. injection Hrow as <-.
      eexists. split; [done|]. by repeat split.
    + rewrite lookup_insert_ne by done. exists row. by repeat split.
Qed.

(** X4. When an update that returns has changed the assignee, the new
    assignee is the one the body names: either none (the body says null),
    or a stored user who, unless the body names the empty string, holds a
    membership of the organisation of the request. *)
Theorem new_assignee_is_a_member w auth (orgId id : string) (body : PatchBody.t)
    (now : Z) (db : Db) (row row' : Ticket.t) :
  ticket db !! id = Some row →
  (patchTicket w auth orgId id body now db).1 = Return row' →
  Ticket.assigneeId row' ≠ Ticket.assigneeId row →
  PatchBody.assigneeId body = Some (Ticket.assigneeId row')
  ∧ ∀ a, Ticket.assigneeId row' = Some a →
         a ∈ user db ∧ (a ≠ "" → is_Some (orgMembership db !! (a, orgId))).
Proof.
  intros Hrow Hret Hchg.
  destruct (patchTicket w auth orgId id body now db) as [c db'] eqn:E.
  simpl in Hret. subst c.
  apply patchTicket_inv in E
    as (u & role & row0 & c1 & c2 & c3 & -> & Hu & Ho & Hm & Hs & Hrow0 & Horg
        & E1 & E2 & E3 & Hend).
  rewrite Hrow in Hrow0. injection Hrow0 as <-.
  apply title_description_returns in E1 as (F1 & _).
  apply status_transition_returns in E2 as (F2 & _).
  apply assignee_change_returns in E3 as (_ & _ & Ha).
  destruct (requiresApproval_change_spec body row c3) as (F4 & _).
  destruct Hend as [(_ & -> & _)|(_ & -> & Hfk & _)]; [done|].
  unfold beside_text, beside_status, beside_approval in *. simpl in *.
  injection F4 as _ _ _ _ _ Fa4. injection F2 as _ _ Fa2 _.
  injection F1 as _ _ _ Fa1 _.
  rewrite Fa4 in Hchg, Hfk |- *.
  destruct (PatchBody.assigneeId body) as [a|].
  2:{ rewrite Ha, Fa2, Fa1 in Hchg. by simpl in Hchg. }
  destruct Ha as [Hmem Ha]. rewrite Ha in Hchg, Hfk |- *.
  case_bool_decide as Heq.
  { rewrite Fa2, Fa1 in Hchg. by simpl in Hchg. }
  simpl in *. split; [done|]. intros x ->. simpl in *.
  split; [by apply bool_decide_eq_true_1 in Hfk|].
  intros Hx. apply Hmem. by rewrite bool_decide_eq_false_2.
Qed.

Lemma update_frame_witness :
  ∃ row', ticket (patchTicket Sample.audit_up (bearer "carol") "acme" "t1"
                    (status_only "RESOLVED") 5000 Sample.db).2 !! "t2" = Some row'
          ∧ row' = Sample.row "t2" "globex" "OPEN" 2000 None.
Proof.
  destruct (update_frame Sample.audit_up (bearer "carol") "acme" "t1"
              (status_only "RESOLVED") 5000 Sample.db) as (_ & _ & _ & H).
  destruct (H "t2" (Sample.row "t2" "globex" "OPEN" 2000 None))
    as (row' & Hl & Hsame & _); [by vm_compute|].
  exists row'. split; [exact Hl|]. apply Hsame. by_computation.
Defined.

Lemma new_assignee_is_a_member_witness :
  PatchBody.assigneeId (assignee_only (Some "bob")) = Some (Some "bob")
  ∧ "bob" ∈ user Sample.db
  ∧ is_Some (orgMembership Sample.db !! ("bob", "acme")).
Proof.
  destruct (new_assignee_is_a_member Sample.audit_up (bearer "alice") "acme" "t1"
              (assignee_only (Some "bob")) 5000 Sample.db
              (Sample.row "t1" "acme" "IN_PROGRESS" 1000 None)
              (write_update
                 (UpdateData.set_assigneeId (Some "bob") UpdateData.empty) 5000
                 (Sample.row "t1" "acme" "IN_PROGRESS" 1000 None)))
    as [Hb Ha]; [by vm_compute | by vm_compute | by vm_compute |].
  destruct (Ha "bob" eq_refl) as [Hu Hm].
  split; [exact Hb|]. split; [exact Hu|]. apply Hm. by_computation.
Defined.

(** ** The status machine over sequences of updates *)

Lemma patch_follows_the_table w auth (orgId ticketId : string) (body : PatchBody.t)
    (now : Z) (db : Db) (id : string) (row : Ticket.t) :
  ticket db !! id = Some row →
  ∃ row', ticket (patchTicket w auth orgId ticketId body now db).2 !! id = Some row'
          ∧ (Ticket.status row' = Ticket.status row
             ∨ edge (Ticket.status row) (Ticket.status row')).
Proof.
  intros Hrow.
  destruct (patchTicket w auth orgId ticketId body now db) as [c db'] eqn:E.
  apply patchTicket_cases in E as [[Ht _]|(r & u & Hr & Hch & _ & Ht)]; simpl;
    rewrite Ht.
  - exists row. split; [done|]. by left.
  - destruct (decide (id = ticketId)) as [->|Hne].
    + rewrite lookup_insert_eq. rewrite Hrow in Hr. injection Hr as <-.
      eexists. split; [done|]. simpl. destruct Hch as (Hs & _).
      destruct (UpdateData.status u) as [s|]; simpl; [|by left].
      right. by destruct (Hs s eq_refl) as (_ & _ & ?).
    + rewrite lookup_insert_ne by done. exists row. split; [done|]. by left.
Qed.

Lemma closed_has_no_edge (s : string) : ¬ edge "CLOSED" s.
Proof. unfold edge. by_computation. Qed.

Lemma closed_rtc (a b : string) : rtc edge a b → a = "CLOSED" → b = "CLOSED".
Proof.
  induction 1 as [|a b c Hab _ IH]; [done|].
  intros ->. by destruct (closed_has_no_edge b).
Qed.

(** X5. Over any sequence of update requests, accepted or refused, a
    stored ticket stays stored and its status moves only along edges of the
    transition table; in particular a CLOSED ticket stays CLOSED. *)
Theorem updates_follow_the_table w (rs : list Request) (db : Db) (id : string)
    (row : Ticket.t) :
  Forall (λ r, is_update r = true) rs →
  ticket db !! id = Some row →
  ∃ row', ticket (serve_all w db rs) !! id = Some row'
          ∧ rtc edge (Ticket.status row) (Ticket.status row')
          ∧ (Ticket.status row = "CLOSED" → Ticket.status row' = "CLOSED").
Proof.
  intros Hrs. revert db row.
  induction Hrs as [|r rs Hr _ IH]; intros db row Hrow.
  - exists row. by repeat split.
  - destruct r; try discriminate. unfold serve_all. simpl.
    destruct (patch_follows_the_table w auth orgId ticketId body now db id row Hrow)
      as (row1 & H1 & Hstep).
    destruct (IH _ _ H1) as (row' & H' & Hrtc & _).
    assert (Hall : rtc edge (Ticket.status row) (Ticket.status row')).
    { destruct Hstep as [Heq|He]; [by rewrite <- Heq|].
      by apply (rtc_l _ _ (Ticket.status row1)). }
    exists row'. split; [exact H'|]. split; [exact Hall|].
    by apply closed_rtc.
Qed.

Lemma updates_follow_the_table_witness :
  ∃ row', ticket (serve_all Sample.audit_up Case.db_closed
                    [ PatchTicket (bearer "alice") "acme" "t1"
                        (status_only "OPEN") 6000;
                      PatchTicket (bearer "alice") "acme" "t1"
                        (status_only "IN_PROGRESS") 7000 ]) !! "t1" = Some row'
          ∧ Ticket.status row' = "CLOSED".
Proof.
  destruct (updates_follow_the_table Sample.audit_up
              [ PatchTicket (bearer "alice") "acme" "t1" (status_only "OPEN") 6000;
                PatchTicket (bearer "alice") "acme" "t1"
                  (status_only "IN_PROGRESS") 7000 ]
              Case.db_closed "t1" (Sample.row "t1" "acme" "CLOSED" 1000 (Some 1500)))
    as (row' & Hl & _ & Hc); [repeat constructor | by vm_compute |].
  exists row'. split; [exact Hl|]. apply Hc. reflexivity.
Defined.

(** ** Reading back what was written *)

Lemma getTicket_member (u orgId role id : string) (db : Db) (row : Ticket.t) :
  u ∈ user db → orgId ≠ "" → orgMembership db !! (u, orgId) = Some role →
  ticket db !! id = Some row → Ticket.organizationId row = orgId →
  getTicket (bearer u) orgId id db = (Return row, db).
Proof.
  intros Hu Ho Hm Hrow Horg. unfold getTicket.
  rewrite (bind_return _ _ _ _ _ (authenticate_bearer _ _ Hu)).
  rewrite (bind_return _ _ _ _ _ (requireOrg_member _ _ _ _ Ho Hm)).
  by apply ticket_of_org_found.
Qed.

Lemma ticket_create_written (newId title description orgId creator : string)
    (assignee : option string) (flag : bool) (status : string) (now : Z)
    (db db1 : Db) (row : Ticket.t) :
  ticket_create newId title description orgId creator assignee flag status now db
  = (Return row, db1) →
  row = {| Ticket.id := newId; Ticket.title := title;
           Ticket.description := description;
           Ticket.organizationId := orgId; Ticket.status := status;
           Ticket.requiresApproval := flag; Ticket.creatorId := creator;
           Ticket.assigneeId := assignee;
           Ticket.approvedById := None; Ticket.approvedAt := None;
           Ticket.createdAt := now; Ticket.updatedAt := now;
           Ticket.resolvedAt := None; Ticket.closedAt := None |}
  ∧ db1 = with_ticket (<[newId := row]> (ticket db)) db
  ∧ ticket db !! newId = None.
Proof.
  unfold ticket_create, bind, gets, modify, raise, ret.
  destruct (ticket db !! newId) as [t|] eqn:Et.
  { rewrite bool_decide_eq_true_2 by eauto. discriminate. }
  rewrite bool_decide_eq_false_2 by (by intros [? ?]).
  destruct (assignee_fkey assignee db); simpl; [|discriminate].
  by intros [= <- <-].
Qed.

(** The row a create request that returns has stored. *)
Lemma createTicket_row w auth (orgId : string) (body : CreateBody.t) (newId : string)
    (now : Z) (db : Db) (row : Ticket.t) :
  (createTicket w auth orgId body newId now db).1 = Return row →
  ∃ u role,
    auth = bearer u ∧ u ∈ user db ∧ orgId ≠ ""
    ∧ orgMembership db !! (u, orgId) = Some role
    ∧ row = {| Ticket.id := newId;
               Ticket.title := default "" (CreateBody.title body);
               Ticket.description := default "" (CreateBody.description body);
               Ticket.organizationId := orgId;
               Ticket.status := "OPEN";
               Ticket.requiresApproval :=
                 default false (CreateBody.requiresApproval body);
               Ticket.creatorId := u;
               Ticket.assigneeId := CreateBody.assigneeId body;
               Ticket.approvedById := None; Ticket.approvedAt := None;
               Ticket.createdAt := now; Ticket.updatedAt := now;
               Ticket.resolvedAt := None; Ticket.closedAt := None |}
    ∧ ticket db !! newId = None
    ∧ user (createTicket w auth orgId body newId now db).2 = user db
    ∧ orgMembership (createTicket w auth orgId body newId now db).2
      = orgMembership db
    ∧ ticket (createTicket w auth orgId body newId now db).2
      = <[newId := row]> (ticket db).
Proof.
  unfold createTicket.
  read_step (authenticate_reads auth) as u Eu; [|discriminate].
  apply (f_equal fst) in Eu. apply authenticate_returns in Eu as [-> Hu].
  read_step (requireOrg_reads u orgId) as role Er; [|discriminate].
  pose proof (requireOrg_not_empty _ _ _ _ Er) as Ho.
  apply (f_equal fst) in Er. apply requireOrg_returns in Er.
  read_step (safeParse_reads (createSchema body)) as ok Es; [|discriminate].
  read_step (assignee_member_reads (CreateBody.assigneeId body) orgId) as ok' Ea;
    [|discriminate].
  match goal with
  | |- context [bind (ticket_create ?a ?b ?c ?d ?e ?f ?g ?h ?i) _ db] =>
      destruct (ticket_create a b c d e f g h i db) as [[r|e'] db1] eqn:Ec
  end.
  2:{ rewrite (bind_throw _ _ _ _ _ Ec). discriminate. }
  rewrite (bind_return _ _ _ _ _ Ec).
  apply ticket_create_written in Ec as (-> & -> & Et).
  match goal with
  | |- context [bind (createAuditLog w ?d) (λ _, ret ?a) ?s] =>
      destruct (audit_then_ret w d a s) as (db2 & -> & Hu2 & Hm2 & Ht2)
  end.
  simpl. intros [= <-]. exists u, role. rewrite Hu2, Hm2, Ht2.
  by repeat split.
Qed.

(** X6. A ticket that a create request has returned can be read back: the
    same requester gets the same row from the get route, in a store that
    holds it under the new id and holds every earlier ticket as before.
    The row carries the organisation of the request and the requester as
    its creator, and no resolution or closure stamp. *)
Theorem created_ticket_is_readable w auth (orgId : string) (body : CreateBody.t)
    (newId : string) (now : Z) (db : Db) (row : Ticket.t) :
  (createTicket w auth orgId body newId now db).1 = Return row →
  getTicket auth orgId newId (createTicket w auth orgId body newId now db).2
  = (Return row, (createTicket w auth orgId body newId now db).2)
  ∧ Ticket.id row = newId
  ∧ Ticket.organizationId row = orgId
  ∧ auth = bearer (Ticket.creatorId row)
  ∧ Ticket.resolvedAt row = None ∧ Ticket.closedAt row = None
  ∧ (∀ id old, ticket db !! id = Some old →
               ticket (createTicket w auth orgId body newId now db).2 !! id
               = Some old).
Proof.
  intros Hret.
  destruct (createTicket_row _ _ _ _ _ _ _ _ Hret)
    as (u & role & -> & Hu & Ho & Hm & Hrow & Hfree & Hu' & Hm' & Ht').
  split.
  { apply (getTicket_member u orgId role); rewrite ?Hu', ?Hm', ?Ht'; try done.
    - apply lookup_insert_eq.
    - by rewrite Hrow. }
  rewrite Hrow at 1 2 3 4 5. simpl. do 5 (split; [done|]).
  intros id old Hold. rewrite Ht'. rewrite lookup_insert_ne; [done|].
  intros <-. by rewrite Hfree in Hold.
Qed.

Lemma created_ticket_is_readable_witness :
  ∃ row,
    (createTicket Sample.audit_up (bearer "carol") "acme"
       (Sample.new_ticket (Some true)) "t3" 3000 Sample.db).1 = Return row
    ∧ getTicket (bearer "carol") "acme" "t3"
        (createTicket Sample.audit_up (bearer "carol") "acme"
           (Sample.new_ticket (Some true)) "t3" 3000 Sample.db).2
      = (Return row,
         (createTicket Sample.audit_up (bearer "carol") "acme"
            (Sample.new_ticket (Some true)) "t3" 3000 Sample.db).2).
Proof.
  eexists. split; [vm_compute; reflexivity|].
  apply (created_ticket_is_readable Sample.audit_up (bearer "carol") "acme"
           (Sample.new_ticket (Some true)) "t3" 3000 Sample.db).
  vm_compute. reflexivity.
Defined.

(** X7. A ticket that an update request has returned can be read back:
    the same requester gets the same row from the get route in the store
    the update has left. *)
Theorem updated_ticket_is_readable w auth (orgId id : string) (body : PatchBody.t)
    (now : Z) (db : Db) (row' : Ticket.t) :
  (patchTicket w auth orgId id body now db).1 = Return row' →
  getTicket auth orgId id (patchTicket w auth orgId id body now db).2
  = (Return row', (patchTicket w auth orgId id body now db).2).
Proof.
  intros Hret.
  destruct (patchTicket_members w auth orgId id body now db) as [Hu' Hm'].
  destruct (patchTicket w auth orgId id body now db) as [c db'] eqn:E.
  simpl in *. subst c.
  pose proof E as E'.
  apply patchTicket_inv in E
    as (u & role & row & c1 & c2 & c3 & -> & Hu & Ho & Hm & Hs & Hrow & Horg
        & _ & _ & _ & Hend).
  pose proof (patch_one w (bearer u) orgId id body now db row row' Hrow) as Hone.
  rewrite E' in Hone. destruct (Hone eq_refl) as (_ & _ & Hstored).
  apply (getTicket_member u orgId role); rewrite ?Hu', ?Hm'; try done.
  destruct Hend as [(_ & -> & _)|(_ & -> & _)]; done.
Qed.

Lemma updated_ticket_is_readable_witness :
  ∃ row',
    getTicket (bearer "carol") "acme" "t1"
      (patchTicket Sample.audit_up (bearer "carol") "acme" "t1"
         (status_only "RESOLVED") 5000 Sample.db).2
    = (Return row',
       (patchTicket Sample.audit_up (bearer "carol") "acme" "t1"
          (status_only "RESOLVED") 5000 Sample.db).2).
Proof.
  eexists.
  apply (updated_ticket_is_readable Sample.audit_up (bearer "carol") "acme" "t1"
           (status_only "RESOLVED") 5000 Sample.db).
  vm_compute. reflexivity.
Defined.

(** ** Deleting a ticket *)

(** X8. The delete route is for OWNER and ADMIN: any other member is
    refused with ForbiddenError "Requires one of: OWNER, ADMIN" whether or
    not the ticket exists, and nothing changes.  For an OWNER or ADMIN and
    a ticket of the organisation, the audit write decides.  When the audit
    table accepts the entry of the deletion, the transaction expires: the
    route throws the error of the store client, the ticket, the users and
    the memberships stay, and the audit table is the one with the entry.
    When the write fails, the route returns, the ticket and its audit
    rows are gone from the store, users and memberships are as before, one
    line goes to the error log, and the get route then answers
    NotFoundError for that id. *)
Theorem delete_gate_and_effect w (u orgId role id : string) (db : Db) :
  u ∈ user db → orgId ≠ "" → orgMembership db !! (u, orgId) = Some role →
  (role ∉ ["OWNER"; "ADMIN"] →
     deleteTicket w (bearer u) orgId id db
     = (Throw (AppErr (ForbiddenError "Requires one of: OWNER, ADMIN")), db))
  ∧ (role ∈ ["OWNER"; "ADMIN"] →
     ∀ row, ticket db !! id = Some row → Ticket.organizationId row = orgId →
       (∀ rows,
          w (delete_entry orgId u id (Ticket.title row)) (auditLog db) = Some rows →
          deleteTicket w (bearer u) orgId id db
          = (Throw (StoreErr "Transaction already closed"), with_auditLog rows db))
       ∧ (w (delete_entry orgId u id (Ticket.title row)) (auditLog db) = None →
          (deleteTicket w (bearer u) orgId id db).1 = Return "Ticket deleted"
          ∧ ticket (deleteTicket w (bearer u) orgId id db).2 = delete id (ticket db)
          ∧ auditLog (deleteTicket w (bearer u) orgId id db).2
            = filter (λ a, Audit.ticketId a ≠ Some id) (auditLog db)
          ∧ logger (deleteTicket w (bearer u) orgId id db).2
            = (logger db ++ ["Failed to create audit log"])%list
          ∧ user (deleteTicket w (bearer u) orgId id db).2 = user db
          ∧ orgMembership (deleteTicket w (bearer u) orgId id db).2
            = orgMembership db
          ∧ getTicket (bearer u) orgId id (deleteTicket w (bearer u) orgId id db).2
            = (Throw (AppErr (NotFoundError "Ticket not found")),
               (deleteTicket w (bearer u) orgId id db).2))).
Proof.
  intros Hu Ho Hm. split.
  - intros Hrole. unfold deleteTicket.
    rewrite (bind_return _ _ _ _ _ (authenticate_bearer _ _ Hu)).
    rewrite (bind_return _ _ _ _ _ (requireOrg_member _ _ _ _ Ho Hm)).
    apply bind_throw. unfold requireRole. by rewrite includes_false.
  - intros Hrole row Hrow Horg.
    assert (Hrun : deleteTicket w (bearer u) orgId id db
                   = (delete_with_audit w id
                        (delete_entry orgId u id (Ticket.title row)) ;;;
                      ret "Ticket deleted") db).
    { unfold deleteTicket.
      rewrite (bind_return _ _ _ _ _ (authenticate_bearer _ _ Hu)).
      rewrite (bind_return _ _ _ _ _ (requireOrg_member _ _ _ _ Ho Hm)).
      rewrite (bind_return _ _ _ _ _ (requireRole_allowed _ _ _ Hrole)).
      by rewrite (bind_return _ _ _ _ _ (ticket_of_org_found _ _ _ _ Hrow Horg)). }
    rewrite Hrun.
    destruct (delete_with_audit_cases w id
                (delete_entry orgId u id (Ticket.title row)) db row Hrow)
      as [(rows & Hw & Hd)|(Hw & Hd)].
    + split; [|by rewrite Hw].
      intros rows' Hw'. rewrite Hw in Hw'. injection Hw' as <-.
      by rewrite (bind_throw _ _ _ _ _ Hd).
    + split; [by rewrite Hw|]. intros _.
      rewrite (bind_return _ _ _ _ _ Hd). simpl. do 6 (split; [done|]).
      unfold getTicket.
      erewrite bind_return; [|by apply authenticate_bearer].
      erewrite bind_return; [|by apply requireOrg_member].
      apply ticket_of_org_absent. simpl. apply lookup_delete_eq.
Qed.

Lemma delete_gate_and_effect_witness :
  deleteTicket Sample.audit_up (bearer "carol") "acme" "t1" Sample.db
  = (Throw (AppErr (ForbiddenError "Requires one of: OWNER, ADMIN")), Sample.db)
  ∧ (deleteTicket Sample.audit_up (bearer "bob") "acme" "t1" Sample.db).1
    = Throw (StoreErr "Transaction already closed")
  ∧ (deleteTicket Sample.audit_down (bearer "bob") "acme" "t1" Sample.db).1
    = Return "Ticket deleted"
  ∧ ticket (deleteTicket Sample.audit_down (bearer "bob") "acme" "t1" Sample.db).2
    = delete "t1" (ticket Sample.db).
Proof.
  split.
  - apply (delete_gate_and_effect Sample.audit_up "carol" "acme" "AGENT" "t1"
             Sample.db); by_evaluation.
  - destruct (delete_gate_and_effect Sample.audit_up "bob" "acme" "ADMIN" "t1"
                Sample.db) as [_ Hup]; [by_computation..|].
    destruct (delete_gate_and_effect Sample.audit_down "bob" "acme" "ADMIN" "t1"
                Sample.db) as [_ Hdown]; [by_computation..|].
    destruct (Hup ltac:(by_computation)
                (Sample.row "t1" "acme" "IN_PROGRESS" 1000 None))
      as (H1 & _); [by vm_compute | by vm_compute |].
    destruct (Hdown ltac:(by_computation)
                (Sample.row "t1" "acme" "IN_PROGRESS" 1000 None))
      as (_ & H2); [by vm_compute | by vm_compute |].
    split; [by rewrite (H1 _ eq_refl)|].
    destruct (H2 eq_refl) as (H3 & H4 & _). split; [exact H3 | exact H4].
Defined.

(** ** What a listing holds *)

Lemma createdAt_desc_transitive : Transitive createdAt_desc.
Proof. intros a b c. unfold createdAt_desc. lia. Qed.

Lemma createdAt_desc_total : Total createdAt_desc.
Proof. intros a b. unfold createdAt_desc. lia. Qed.

Lemma StronglySorted_of_sublist {A} (R : A → A → Prop) (l l' : list A) :
  l' `sublist_of` l → StronglySorted R l → StronglySorted R l'.
Proof.
  induction 1 as [|x l1 l2 Hsub IH|x l1 l2 Hsub IH]; intros Hs.
  - constructor.
  - apply StronglySorted_inv in Hs as [Hs Hall]. constructor; [by apply IH|].
    apply Forall_forall. intros y Hy.
    apply (proj1 (Forall_forall _ _) Hall). by apply (elem_of_sublist l1 l2).
  - apply StronglySorted_inv in Hs as [Hs _]. by apply IH.
Qed.

Lemma ticket_where_elem (w : Where.t) (db : Db) (row : Ticket.t) :
  row ∈ ticket_where w db →
  Where.matches w row = true ∧ ∃ id, ticket db !! id = Some row.
Proof.
  unfold ticket_where. intros H.
  apply list_elem_of_filter in H as [Hm H]. split; [done|].
  apply list_elem_of_fmap in H as ([id r] & -> & H).
  exists id. by apply elem_of_map_to_list in H.
Qed.

Lemma when_truthy_Some (s : option string) (x : string) :
  s = Some x → x ≠ "" → when_truthy s = Some x.
Proof.
  intros -> Hx. unfold when_truthy, truthy. by rewrite bool_decide_eq_false_2.
Qed.

(** X9. Every row of a listing is a stored ticket of the organisation of
    the request that satisfies each filter the query names (a status, a
    non-empty assignee id, a non-empty creator id), and the rows come in
    order of decreasing creation time. *)
Theorem listing_is_scoped auth (orgId : string) (q : Query.t) (db : Db)
    (r : Listing.t) :
  (listTickets auth orgId q db).1 = Return r →
  Forall (λ row,
            Ticket.organizationId row = orgId
            ∧ (∃ id, ticket db !! id = Some row)
            ∧ (∀ s, Query.status q = Some s → Ticket.status row = s)
            ∧ (∀ a, Query.assigneeId q = Some a → a ≠ "" →
                    Ticket.assigneeId row = Some a)
            ∧ (∀ c, Query.creatorId q = Some c → c ≠ "" →
                    Ticket.creatorId row = c))
         (Listing.data r)
  ∧ StronglySorted createdAt_desc (Listing.data r).
Proof.
  unfold listTickets.
  read_step (authenticate_reads auth) as u Eu; [|discriminate].
  read_step (requireOrg_reads u orgId) as role Er; [|discriminate].
  read_step (safeParse_reads (listSchema q)) as ok Es; [|discriminate].
  apply safeParse_returns in Es.
  unfold bind, ticket_findMany, ticket_count, gets, ret. simpl.
  intros [= <-]. simpl.
  set (sorted := merge_sort createdAt_desc (ticket_where (build_where orgId q) db)).
  assert (Hsub : take (Z.to_nat (default 10 (Query.limit q)))
                   (drop (Z.to_nat ((default 1 (Query.page q) - 1)
                                    * default 10 (Query.limit q))) sorted)
                 `sublist_of` sorted).
  { etrans; [apply sublist_take | apply sublist_drop]. }
  split.
  - apply Forall_forall. intros row Hrow.
    apply (elem_of_sublist _ _ _ Hrow) in Hsub.
    unfold sorted in Hsub. rewrite merge_sort_Permutation in Hsub.
    apply ticket_where_elem in Hsub as [Hm Hstored].
    unfold Where.matches, build_where in Hm. simpl in Hm.
    apply andb_true_iff in Hm as [Hm Hc]. apply andb_true_iff in Hm as [Hm Ha].
    apply andb_true_iff in Hm as [Ho Hs].
    apply bool_decide_eq_true_1 in Ho.
    split; [done|]. split; [done|]. split; [|split].
    + intros s Hq.
      assert (Hne : s ≠ "").
      { unfold listSchema in Es. apply app_eq_nil in Es as [Es _].
        apply refuse_nil in Es. rewrite Hq in Es. simpl in Es.
        intros ->. revert Es. by_computation. }
      rewrite (when_truthy_Some _ _ Hq Hne) in Hs. simpl in Hs.
      by apply bool_decide_eq_true_1 in Hs.
    + intros a Hq Hne. rewrite (when_truthy_Some _ _ Hq Hne) in Ha. simpl in Ha.
      by apply bool_decide_eq_true_1 in Ha.
    + intros c Hq Hne. rewrite (when_truthy_Some _ _ Hq Hne) in Hc. simpl in Hc.
      by apply bool_decide_eq_true_1 in Hc.
  - apply (StronglySorted_of_sublist _ sorted); [done|].
    apply (@StronglySorted_merge_sort _ createdAt_desc _
             createdAt_desc_transitive createdAt_desc_total).
Qed.

Lemma listing_is_scoped_witness :
  ∃ r, (listTickets (bearer "alice") "acme" (Sample.page_of None None) Sample.db).1
       = Return r
       ∧ Forall (λ row, Ticket.organizationId row = "acme") (Listing.data r)
       ∧ StronglySorted createdAt_desc (Listing.data r).
Proof.
  eexists. split; [vm_compute; reflexivity|].
  destruct (listing_is_scoped (bearer "alice") "acme" (Sample.page_of None None)
              Sample.db _ ltac:(vm_compute; reflexivity)) as [Hall Hs].
  split; [|exact Hs].
  eapply Forall_impl; [exact Hall|]. by intros row (Ho & _).
Defined.

(** ** Who gets past the middleware *)

Lemma authenticate_throws auth (db : Db) (e : Thrown) :
  authenticate auth db = (Throw e, db) →
  thrown_code (Throw e : Completion string) = Some "UNAUTHORIZED".
Proof.
  destruct auth as [| |u]; simpl; try by intros [= <-].
  unfold bind, gets. destruct (bool_decide _); simpl; [discriminate|].
  by intros [= <-].
Qed.

Lemma requireOrg_throws (u orgId : string) (db : Db) (e : Thrown) :
  requireOrg u orgId db = (Throw e, db) →
  thrown_code (Throw e : Completion string) = Some "FORBIDDEN".
Proof.
  unfold requireOrg. destruct (bool_decide _); [by intros [= <-]|].
  unfold bind, orgMembership_findUnique, gets.
  destruct (orgMembership db !! _); simpl; [discriminate|]. by intros [= <-].
Qed.

Lemma gate_refuses {A} auth (orgId : string) (k : string → string → Handler A)
    (db : Db) :
  ¬ (∃ u, auth = bearer u ∧ u ∈ user db ∧ is_Some (orgMembership db !! (u, orgId))) →
  ((let* userId := authenticate auth in
    let* role := requireOrg userId orgId in
    k userId role) db).2 = db
  ∧ (thrown_code ((let* userId := authenticate auth in
                   let* role := requireOrg userId orgId in
                   k userId role) db).1 = Some "UNAUTHORIZED"
     ∨ thrown_code ((let* userId := authenticate auth in
                     let* role := requireOrg userId orgId in
                     k userId role) db).1 = Some "FORBIDDEN").
Proof.
  intros Hnot.
  read_step (authenticate_reads auth) as u Eu.
  2:{ split; [done|]. left. by apply (authenticate_throws auth db). }
  read_step (requireOrg_reads u orgId) as role Er.
  2:{ split; [done|]. right. by apply (requireOrg_throws u orgId db). }
  destruct Hnot. exists u.
  apply (f_equal fst) in Eu, Er.
  apply authenticate_returns in Eu as [-> Hu]. apply requireOrg_returns in Er.
  eauto.
Qed.

(** X10. A requester who is not the bearer of a stored user with a
    membership of the organisation of the request gets nothing from the
    ticket routes and the member-removal route: each of them throws with
    code UNAUTHORIZED or FORBIDDEN and leaves the store as it was. *)
Theorem routes_are_for_members w auth (orgId : string) (db : Db) :
  ¬ (∃ u, auth = bearer u ∧ u ∈ user db ∧ is_Some (orgMembership db !! (u, orgId))) →
  let refused {A} (r : Completion A * Db) :=
    r.2 = db
    ∧ (thrown_code r.1 = Some "UNAUTHORIZED" ∨ thrown_code r.1 = Some "FORBIDDEN") in
  (∀ q, refused (listTickets auth orgId q db))
  ∧ (∀ body newId now, refused (createTicket w auth orgId body newId now db))
  ∧ (∀ id, refused (getTicket auth orgId id db))
  ∧ (∀ id body now, refused (patchTicket w auth orgId id body now db))
  ∧ (∀ id, refused (deleteTicket w auth orgId id db))
  ∧ (∀ userId, refused (removeMember w auth orgId userId db)).
Proof.
  intros Hnot refused. unfold refused.
  repeat split; intros; by apply gate_refuses.
Qed.

Lemma routes_are_for_members_witness :
  (getTicket (bearer "frank") "acme" "t1" Case.db_visitor).2 = Case.db_visitor
  ∧ (thrown_code (getTicket (bearer "frank") "acme" "t1" Case.db_visitor).1
     = Some "UNAUTHORIZED"
     ∨ thrown_code (getTicket (bearer "frank") "acme" "t1" Case.db_visitor).1
       = Some "FORBIDDEN").
Proof.
  destruct (routes_are_for_members Sample.audit_up (bearer "frank") "acme"
              Case.db_visitor) as (_ & _ & Hget & _).
  { intros (u & [= <-] & _ & Hm). revert Hm. by_computation. }
  exact (Hget "t1").
Defined.

(** ** What the update route tells the audit sink *)

(** X11. An update that returns either wrote nothing, returns the stored
    row and leaves the store as it was, or stored the returned row and
    handed the audit sink one entry, for the organisation, the requester
    and the ticket of the request: its action is STATUS_CHANGED when the
    status changed, with the old and the new status in its metadata, and
    TICKET_UPDATED when it did not. *)
Theorem update_audit_entry w auth (orgId id : string) (body : PatchBody.t) (now : Z)
    (db db' : Db) (row row' : Ticket.t) :
  ticket db !! id = Some row → Ticket.status row ≠ "" →
  patchTicket w auth orgId id body now db = (Return row', db') →
  (row' = row ∧ db' = db)
  ∨ ∃ u metadata,
      auth = bearer u
      ∧ db' = (createAuditLog w (update_entry orgId u id metadata)
                 (with_ticket (<[id := row']> (ticket db)) db)).2
      ∧ Audit.action (update_entry orgId u id metadata)
        = (if bool_decide (Ticket.status row' = Ticket.status row)
           then "TICKET_UPDATED" else "STATUS_CHANGED")
      ∧ (Ticket.status row' ≠ Ticket.status row →
         own_property metadata "oldStatus" = Some (str (Ticket.status row))
         ∧ own_property metadata "newStatus" = Some (str (Ticket.status row'))).
Proof.
  intros Hrow Hne E.
  apply patchTicket_inv in E
    as (u & role & row0 & c1 & c2 & c3 & -> & Hu & Ho & Hm & Hs & Hrow0 & Horg
        & E1 & E2 & E3 & Hend).
  rewrite Hrow in Hrow0. injection Hrow0 as <-.
  destruct Hend as [(_ & -> & ->)|(_ & Hr & _ & Hdb)]; [by left|].
  right. exists u, (requiresApproval_change body row c3).2.
  split; [done|]. split; [done|].
  apply title_description_returns in E1 as (F1 & K1 & _).
  apply status_transition_returns in E2 as (_ & Hst).
  apply assignee_change_returns in E3 as (F3 & K3 & _).
  destruct (requiresApproval_change_spec body row c3) as (F4 & K4 & _).
  assert (Hs4 : UpdateData.status (requiresApproval_change body row c3).1
                = UpdateData.status c2.1).
  { unfold beside_assignee, beside_approval in *.
    injection F4 as _ _ -> _ _ _. by injection F3 as _ _ -> _ _ _. }
  assert (Hk4 : status_keys (requiresApproval_change body row c3).2
                = status_keys c2.2) by (by rewrite K4, K3).
  rewrite Hr. simpl. rewrite Hs4. unfold status_keys in *.
  injection Hk4 as -> ->.
  destruct Hst as [[-> _]|(s & _ & _ & Hchg & _ & _ & -> & Hk)].
  - injection K1 as -> ->. unfold beside_text in F1. injection F1 as -> _ _ _ _.
    simpl. rewrite bool_decide_eq_true_2 by done. by split.
  - injection Hk as -> ->. simpl.
    rewrite (bool_decide_eq_false_2 (Ticket.status row = "")) by done.
    rewrite (bool_decide_eq_false_2 (s = Ticket.status row)) by done.
    by split.
Qed.

Lemma update_audit_entry_witness :
  ∃ db',
    patchTicket Sample.audit_up (bearer "carol") "acme" "t1"
      (status_only "RESOLVED") 5000 Sample.db
    = (Return (write_update
                 (UpdateData.set_resolvedAt 5000
                    (UpdateData.set_status "RESOLVED" UpdateData.empty))
                 5000 (Sample.row "t1" "acme" "IN_PROGRESS" 1000 None)), db')
    ∧ ∃ u metadata,
        bearer "carol" = bearer u
        ∧ Audit.action (update_entry "acme" u "t1" metadata) = "STATUS_CHANGED"
        ∧ own_property metadata "newStatus" = Some (str "RESOLVED").
Proof.
  eexists. split; [vm_compute; reflexivity|].
  edestruct (update_audit_entry Sample.audit_up (bearer "carol") "acme" "t1"
               (status_only "RESOLVED") 5000 Sample.db)
    as [[Hsame _]|(u & metadata & Hu & _ & Hact & Hmeta)].
  - vm_compute. reflexivity.
  - shelve.
  - vm_compute. reflexivity.
  - discriminate Hsame.
  - exists u, metadata. split; [exact Hu|]. split; [exact Hact|].
    by destruct Hmeta as [_ Hn].
  Unshelve. by_computation.
Defined.

(** ** Changing a member's role *)

Lemma owners_insert (orgId u r : string) (db : Db) :
  owners orgId
    (with_orgMembership (<[(u, orgId) := r]> (orgMembership db)) db)
  = (owners orgId (with_orgMembership (delete (u, orgId) (orgMembership db)) db)
     + owner_weight r)%nat.
Proof.
  unfold owners, members_with, owner_weight. simpl.
  set (m' := delete (u, orgId) (orgMembership db)).
  assert (Hins : <[(u, orgId) := r]> (orgMembership db) = <[(u, orgId) := r]> m')
    by (symmetry; apply insert_delete_eq).
  assert (Hnone : m' !! (u, orgId) = None) by apply lookup_delete_eq.
  rewrite Hins.
  case_bool_decide as Hr.
  - rewrite map_filter_insert_True by (by split).
    rewrite map_size_insert_None; [lia|].
    apply map_lookup_filter_None. by left.
  - rewrite map_filter_insert_not'; [lia | by intros [_ ?] |].
    intros y Hy. by rewrite Hnone in Hy.
Qed.

Lemma changeMemberRole_owner w (u orgId target : string) (body : RoleBody.t)
    (db : Db) :
  u ∈ user db → orgId ≠ "" → orgMembership db !! (u, orgId) = Some "OWNER" →
  changeMemberRole w (bearer u) orgId target body db
  = (safeParse (roleSchema body) ;;;
     let newRole := default "" (RoleBody.role body) in
     let* membership := orgMembership_findUnique target orgId in
     match membership with
     | None => throw (NotFoundError "Membership not found")
     | Some oldRole =>
         let* updated := orgMembership_update target orgId newRole in
         createAuditLog w
           {| Audit.organizationId := orgId; Audit.userId := u;
              Audit.ticketId := None; Audit.action := "ROLE_CHANGED";
              Audit.metadata :=
                [("targetUserId", str target); ("oldRole", str oldRole);
                 ("newRole", str newRole)] |} ;;;
         ret updated
     end) db.
Proof.
  intros Hu Ho Hm. unfold changeMemberRole.
  rewrite (bind_return _ _ _ _ _ (authenticate_bearer _ _ Hu)).
  rewrite (bind_return _ _ _ _ _ (requireOrg_member _ _ _ _ Ho Hm)).
  by rewrite (bind_return _ _ db tt db)
    by (apply requireRole_allowed; by_computation).
Qed.

(** X12. The role route refuses without writing: a member who is not an
    OWNER (an ADMIN included) gets ForbiddenError "Requires one of:
    OWNER"; an OWNER who names no role, or a role outside the four of the
    enumeration, gets a ValidationError on the field [role]; an OWNER who
    names a user without a membership of the organisation gets
    NotFoundError "Membership not found". *)
Theorem role_change_refusals w (u orgId role target : string) (body : RoleBody.t)
    (db : Db) :
  u ∈ user db → orgId ≠ "" → orgMembership db !! (u, orgId) = Some role →
  (role ≠ "OWNER" →
     changeMemberRole w (bearer u) orgId target body db
     = (Throw (AppErr (ForbiddenError "Requires one of: OWNER")), db))
  ∧ (role = "OWNER" →
     (∀ r, RoleBody.role body = Some r → r ∉ roleEnum) →
     changeMemberRole w (bearer u) orgId target body db
     = (Throw (AppErr (ValidationError "Validation failed"
                         (Err.fieldErrors ["role"]))), db))
  ∧ (role = "OWNER" →
     (∃ r, RoleBody.role body = Some r ∧ r ∈ roleEnum) →
     orgMembership db !! (target, orgId) = None →
     changeMemberRole w (bearer u) orgId target body db
     = (Throw (AppErr (NotFoundError "Membership not found")), db)).
Proof.
  intros Hu Ho Hm. split; [|split].
  - intros Hrole. unfold changeMemberRole.
    rewrite (bind_return _ _ _ _ _ (authenticate_bearer _ _ Hu)).
    rewrite (bind_return _ _ _ _ _ (requireOrg_member _ _ _ _ Ho Hm)).
    apply bind_throw. unfold requireRole. rewrite includes_false; [done|].
    intros Hin. apply list_elem_of_singleton in Hin. done.
  - intros -> Hbad. rewrite changeMemberRole_owner by done.
    apply bind_throw. unfold roleSchema.
    destruct (RoleBody.role body) as [r|]; simpl; [|done].
    by rewrite (includes_false _ _ (Hbad r eq_refl)).
  - intros -> (r & Hr & Hin) Hnone. rewrite changeMemberRole_owner by done.
    unfold roleSchema. rewrite Hr. simpl. rewrite (includes_true _ _ Hin). simpl.
    rewrite bind_ret. unfold bind, orgMembership_findUnique, gets.
    by rewrite Hnone.
Qed.

Lemma role_change_refusals_witness :
  changeMemberRole Sample.audit_up (bearer "bob") "acme" "carol"
    {| RoleBody.role := Some "VIEWER" |} Sample.db
  = (Throw (AppErr (ForbiddenError "Requires one of: OWNER")), Sample.db)
  ∧ changeMemberRole Sample.audit_up (bearer "alice") "acme" "carol"
      {| RoleBody.role := Some "REJECTED" |} Sample.db
    = (Throw (AppErr (ValidationError "Validation failed"
                        (Err.fieldErrors ["role"]))), Sample.db)
  ∧ changeMemberRole Sample.audit_up (bearer "alice") "acme" "erin"
      {| RoleBody.role := Some "ADMIN" |} Sample.db
    = (Throw (AppErr (NotFoundError "Membership not found")), Sample.db).
Proof.
  split; [|split].
  - apply (role_change_refusals Sample.audit_up "bob" "acme" "ADMIN");
      by_computation.
  - apply (role_change_refusals Sample.audit_up "alice" "acme" "OWNER");
      try by_computation.
    intros r [= <-]. by_computation.
  - apply (role_change_refusals Sample.audit_up "alice" "acme" "OWNER");
      try by_computation.
    exists "ADMIN". split; [reflexivity | by_computation].
Defined.

Lemma orgMembership_update_present (target orgId old r : string) (db : Db) :
  orgMembership db !! (target, orgId) = Some old →
  orgMembership_update target orgId r db
  = (Return {| Membership.userId := target; Membership.organizationId := orgId;
               Membership.role := r |},
     with_orgMembership (<[(target, orgId) := r]> (orgMembership db)) db).
Proof.
  intros H. unfold orgMembership_update, bind, orgMembership_findUnique, gets.
  by rewrite H.
Qed.

(** The role route, for an OWNER, a declared role and a member. *)
Lemma changeMemberRole_runs w (u orgId target r old : string) (db : Db) :
  u ∈ user db → orgId ≠ "" → orgMembership db !! (u, orgId) = Some "OWNER" →
  r ∈ roleEnum → orgMembership db !! (target, orgId) = Some old →
  ∃ db',
    changeMemberRole w (bearer u) orgId target {| RoleBody.role := Some r |} db
    = (Return {| Membership.userId := target; Membership.organizationId := orgId;
                 Membership.role := r |}, db')
    ∧ user db' = user db
    ∧ orgMembership db' = <[(target, orgId) := r]> (orgMembership db)
    ∧ ticket db' = ticket db.
Proof.
  intros Hu Ho Hm Hr Ht. rewrite changeMemberRole_owner by done.
  unfold roleSchema. simpl. rewrite (includes_true _ _ Hr). simpl.
  rewrite bind_ret.
  unfold bind at 1. unfold orgMembership_findUnique at 1. unfold gets at 1.
  rewrite Ht.
  rewrite (bind_return _ _ _ _ _ (orgMembership_update_present _ _ _ r _ Ht)).
  match goal with
  | |- context [bind (createAuditLog w ?d) (λ _, ret ?a) ?s] =>
      destruct (audit_then_ret w d a s) as (db' & -> & Hu' & Hm' & Ht')
  end.
  by exists db'.
Qed.

(** X13. When an OWNER gives a member of the organisation one of the four
    roles, the route returns the membership with the new role; afterwards
    the store holds that role for the member, so that the member's next
    request is served under it; every other membership, the users and the
    tickets are as before. *)
Theorem role_change_effect w (u orgId target r old : string) (db : Db) :
  u ∈ user db → orgId ≠ "" → orgMembership db !! (u, orgId) = Some "OWNER" →
  r ∈ roleEnum → orgMembership db !! (target, orgId) = Some old →
  (changeMemberRole w (bearer u) orgId target {| RoleBody.role := Some r |} db).1
  = Return {| Membership.userId := target; Membership.organizationId := orgId;
              Membership.role := r |}
  ∧ requireOrg target orgId
      (changeMemberRole w (bearer u) orgId target {| RoleBody.role := Some r |} db).2
    = (Return r,
       (changeMemberRole w (bearer u) orgId target
          {| RoleBody.role := Some r |} db).2)
  ∧ (∀ k, k ≠ (target, orgId) →
       orgMembership
         (changeMemberRole w (bearer u) orgId target
            {| RoleBody.role := Some r |} db).2 !! k
       = orgMembership db !! k)
  ∧ user (changeMemberRole w (bearer u) orgId target
            {| RoleBody.role := Some r |} db).2 = user db
  ∧ ticket (changeMemberRole w (bearer u) orgId target
              {| RoleBody.role := Some r |} db).2 = ticket db.
Proof.
  intros Hu Ho Hm Hr Ht.
  destruct (changeMemberRole_runs w u orgId target r old db)
    as (db' & -> & Hu' & Hm' & Ht'); try done.
  simpl. split; [done|]. split; [|split; [|done]].
  - apply requireOrg_member; [done|]. rewrite Hm'. apply lookup_insert_eq.
  - intros k Hk. rewrite Hm'. by apply lookup_insert_ne.
Qed.

Lemma role_change_effect_witness :
  (changeMemberRole Sample.audit_up (bearer "alice") "acme" "carol"
     {| RoleBody.role := Some "ADMIN" |} Sample.db).1
  = Return {| Membership.userId := "carol"; Membership.organizationId := "acme";
              Membership.role := "ADMIN" |}
  ∧ requireOrg "carol" "acme"
      (changeMemberRole Sample.audit_up (bearer "alice") "acme" "carol"
         {| RoleBody.role := Some "ADMIN" |} Sample.db).2
    = (Return "ADMIN",
       (changeMemberRole Sample.audit_up (bearer "alice") "acme" "carol"
          {| RoleBody.role := Some "ADMIN" |} Sample.db).2).
Proof.
  destruct (role_change_effect Sample.audit_up "alice" "acme" "carol" "ADMIN"
              "AGENT" Sample.db) as (H1 & H2 & _); [by_computation..|].
  split; [exact H1 | exact H2].
Defined.

(** X14. A role change moves the number of OWNER memberships of the
    organisation by the difference between the new and the old role, and
    nothing holds it at one: an only OWNER who gives themselves another
    role is served, and the organisation is left without an owner. *)
Theorem role_change_counts_owners w (u orgId target r old : string) (db : Db) :
  u ∈ user db → orgId ≠ "" → orgMembership db !! (u, orgId) = Some "OWNER" →
  r ∈ roleEnum → orgMembership db !! (target, orgId) = Some old →
  (owners orgId
     (changeMemberRole w (bearer u) orgId target {| RoleBody.role := Some r |} db).2
   + owner_weight old
   = owners orgId db + owner_weight r)%nat
  ∧ (target = u → owners orgId db = 1%nat → r ≠ "OWNER" →
     (changeMemberRole w (bearer u) orgId target {| RoleBody.role := Some r |} db).1
     = Return {| Membership.userId := u; Membership.organizationId := orgId;
                 Membership.role := r |}
     ∧ owners orgId
         (changeMemberRole w (bearer u) orgId target
            {| RoleBody.role := Some r |} db).2 = 0%nat).
Proof.
  intros Hu Ho Hm Hr Ht.
  destruct (changeMemberRole_runs w u orgId target r old db)
    as (db' & -> & Hu' & Hm' & Ht'); try done.
  simpl.
  assert (Heq : (owners orgId db' + owner_weight old
                 = owners orgId db + owner_weight r)%nat).
  { rewrite (owners_ext orgId
               (with_orgMembership (<[(target, orgId) := r]> (orgMembership db)) db)
               db') by done.
    rewrite owners_insert, owners_delete, Ht.
    unfold owner_weight. case_decide as Hd.
    - destruct Hd as [_ Hd]. injection Hd as ->.
      pose proof (owners_positive orgId target db Ht) as Hpos.
      rewrite (bool_decide_eq_true_2 ("OWNER" = "OWNER")) by done.
      case_bool_decide; lia.
    - assert (Hold : old ≠ "OWNER") by (intros ->; by apply Hd).
      rewrite (bool_decide_eq_false_2 _ Hold). lia. }
  split; [exact Heq|].
  intros -> H1 Hne. split; [done|].
  rewrite Hm in Ht. injection Ht as <-. revert Heq. unfold owner_weight.
  rewrite bool_decide_eq_true_2 by done. rewrite bool_decide_eq_false_2 by done.
  lia.
Qed.

Lemma role_change_counts_owners_witness :
  owners "acme" Sample.db = 1%nat
  ∧ owners "acme"
      (changeMemberRole Sample.audit_up (bearer "alice") "acme" "alice"
         {| RoleBody.role := Some "VIEWER" |} Sample.db).2 = 0%nat.
Proof.
  split; [by vm_compute|].
  destruct (role_change_counts_owners Sample.audit_up "alice" "acme" "alice"
              "VIEWER" "OWNER" Sample.db) as [_ H]; [by_computation..|].
  apply H; by_computation.
Defined.

Lemma roleSchema_accepts (body : RoleBody.t) :
  roleSchema body = [] → ∃ r, RoleBody.role body = Some r ∧ r ∈ roleEnum.
Proof.
  unfold roleSchema. intros H. apply refuse_nil in H.
  destruct (RoleBody.role body) as [r|]; [|done].
  exists r. split; [done|]. by apply bool_decide_eq_true_1 in H.
Qed.

(** What the role route can do to the memberships. *)
Lemma changeMemberRole_memberships w auth (orgId target : string)
    (body : RoleBody.t) (db : Db) :
  ∃ c db', changeMemberRole w auth orgId target body db = (c, db')
    ∧ (orgMembership db' = orgMembership db
       ∨ ∃ r, r ∈ roleEnum
              ∧ orgMembership db' = <[(target, orgId) := r]> (orgMembership db)).
Proof.
  unfold changeMemberRole.
  read_step (authenticate_reads auth) as u Eu; [|by eexists _, _; split; [|left]].
  read_step (requireOrg_reads u orgId) as role Er;
    [|by eexists _, _; split; [|left]].
  read_step (λ db, requireRole_reads ["OWNER"] role db) as ok Ea;
    [|by eexists _, _; split; [|left]].
  read_step (safeParse_reads (roleSchema body)) as ok' Es;
    [|by eexists _, _; split; [|left]].
  destruct ok'. apply safeParse_returns in Es.
  apply roleSchema_accepts in Es as (r & Hr & Hin). rewrite Hr. simpl.
  unfold bind at 1. unfold orgMembership_findUnique at 1. unfold gets at 1.
  destruct (orgMembership db !! (target, orgId)) as [old|] eqn:Ht;
    [|by eexists _, _; split; [|left]].
  rewrite (bind_return _ _ _ _ _ (orgMembership_update_present _ _ _ r _ Ht)).
  match goal with
  | |- context [bind (createAuditLog w ?d) (λ _, ret ?a) ?s] =>
      destruct (audit_then_ret w d a s) as (db' & -> & _ & Hm' & _)
  end.
  eexists _, _. split; [done|]. right. exists r. by split.
Qed.

(** What the member-removal route can do to the memberships. *)
Lemma removeMember_memberships w auth (orgId userId : string) (db : Db) :
  ∃ c db', removeMember w auth orgId userId db = (c, db')
    ∧ (orgMembership db' = orgMembership db
       ∨ orgMembership db' = delete (userId, orgId) (orgMembership db)).
Proof.
  unfold removeMember.
  read_step (authenticate_reads auth) as u Eu; [|by eexists _, _; split; [|left]].
  read_step (requireOrg_reads u orgId) as role Er;
    [|by eexists _, _; split; [|left]].
  read_step (λ db, requireRole_reads ["OWNER"; "ADMIN"] role db) as ok Ea;
    [|by eexists _, _; split; [|left]].
  assert (Hg : reads (if bool_decide (userId = u) then
                        let* ownerCount := orgMembership_count orgId "OWNER" in
                        if bool_decide (ownerCount = 1) then
                          throw (ValidationError "Cannot remove the only owner" Err.null)
                        else ret tt
                      else ret tt)).
  { intros db0. destruct (bool_decide (userId = u)); [|done].
    unfold bind, orgMembership_count, gets. by destruct (bool_decide _). }
  read_step Hg as ok' Eg; [|by eexists _, _; split; [|left]].
  unfold orgMembership_delete at 1. unfold bind at 1.
  unfold bind at 1. unfold orgMembership_findUnique, gets.
  destruct (orgMembership db !! (userId, orgId));
    [|by eexists _, _; split; [|left]].
  unfold modify.
  match goal with
  | |- context [bind (createAuditLog w ?d) (λ _, ret ?a) ?s] =>
      destruct (audit_then_ret w d a s) as (db2 & -> & _ & Hm & _)
  end.
  eexists _, _. split; [done|]. right. by rewrite Hm.
Qed.

(** X15. The member routes keep the roles of the store within the four
    declared ones: whatever the requester, the target and the body, after
    a role change or a removal every stored membership still has one of
    the roles OWNER, ADMIN, AGENT, VIEWER. *)
Theorem roles_stay_declared w (db : Db) :
  roles_declared db →
  (∀ auth orgId target body,
     roles_declared (changeMemberRole w auth orgId target body db).2)
  ∧ (∀ auth orgId userId,
       roles_declared (removeMember w auth orgId userId db).2).
Proof.
  intros Hd. unfold roles_declared in *. split.
  - intros auth orgId target body.
    destruct (changeMemberRole_memberships w auth orgId target body db)
      as (c & db' & -> & [Hm|(r & Hr & Hm)]); simpl; rewrite Hm; [done|].
    by apply map_Forall_insert_2.
  - intros auth orgId userId.
    destruct (removeMember_memberships w auth orgId userId db)
      as (c & db' & -> & [Hm|Hm]); simpl; rewrite Hm; [done|].
    by apply map_Forall_delete.
Qed.

Lemma roles_stay_declared_witness :
  roles_declared Sample.db
  ∧ roles_declared
      (changeMemberRole Sample.audit_up (bearer "alice") "acme" "carol"
         {| RoleBody.role := Some "ADMIN" |} Sample.db).2
  ∧ roles_declared (removeMember Sample.audit_up (bearer "alice") "acme" "carol"
                      Sample.db).2.
Proof.
  assert (H : roles_declared Sample.db) by by_computation.
  split; [exact H|].
  split; by apply (roles_stay_declared Sample.audit_up Sample.db).
Defined.

(** ** The slug of an organisation name *)

Lemma is_dash_true (c : N) : is_dash c = true → c = dash.
Proof. unfold is_dash. by intros ?%N.eqb_eq. Qed.

Lemma class_not_dash (c : N) : a_z0_9 c = true → is_dash c = false.
Proof.
  intros H. unfold is_dash. destruct (N.eqb_spec c dash) as [->|]; [|done].
  by vm_compute in H.
Qed.

Lemma replace_runs_apart (b : bool) (s : JsString) :
  dashes_apart b (replace_runs b s) = true.
Proof.
  revert b. induction s as [|c s IH]; intros b; [done|]. simpl.
  destruct (a_z0_9 c) eqn:Hc; simpl.
  - by rewrite Hc.
  - destruct b; [done|]. simpl. by rewrite IH.
Qed.

Lemma dashes_apart_weaken (b : bool) (s : JsString) :
  dashes_apart true s = true → dashes_apart b s = true.
Proof.
  destruct s as [|c s]; [done|]. simpl. destruct (a_z0_9 c); [done|].
  by rewrite andb_false_r.
Qed.

Lemma strip_start_apart (s : JsString) :
  dashes_apart false s = true → dashes_apart true (strip_start s) = true.
Proof.
  destruct s as [|c s]; [done|]. simpl.
  destruct (is_dash c) eqn:Hd.
  - apply is_dash_true in Hd as ->. simpl. by intros H.
  - simpl. destruct (a_z0_9 c); [done|]. rewrite Hd. simpl. done.
Qed.

Lemma strip_end_nil (d : N) (s : JsString) :
  strip_end (d :: s) = [] → s = [] ∧ d = dash.
Proof.
  destruct s as [|e s]; [|done]. simpl.
  destruct (is_dash d) eqn:Hd; [|done]. by apply is_dash_true in Hd as ->.
Qed.

Lemma strip_end_apart (b : bool) (s : JsString) :
  dashes_apart b s = true →
  dashes_apart b (strip_end s) = true ∧ ends_with_dash (strip_end s) = false.
Proof.
  revert b. induction s as [|c s IH]; intros b H; [done|].
  destruct s as [|d s].
  - simpl in *. destruct (is_dash c) eqn:Hd; [done|]. simpl.
    rewrite Hd. split; [|done]. by destruct (a_z0_9 c).
  - change (strip_end (c :: d :: s)) with (c :: strip_end (d :: s)).
    change (dashes_apart b (c :: d :: s))
      with (if a_z0_9 c then dashes_apart false (d :: s)
            else is_dash c && negb b && dashes_apart true (d :: s)) in H.
    destruct (strip_end (d :: s)) as [|e t] eqn:Hr.
    + apply strip_end_nil in Hr as [-> ->].
      destruct (a_z0_9 c) eqn:Hc.
      * simpl. rewrite Hc. by rewrite (class_not_dash c Hc).
      * by rewrite andb_false_r in H.
    + destruct (a_z0_9 c) eqn:Hc.
      * destruct (IH false H) as [H1 H2]. split; [|exact H2].
        change (dashes_apart b (c :: e :: t))
          with (if a_z0_9 c then dashes_apart false (e :: t)
                else is_dash c && negb b && dashes_apart true (e :: t)).
        by rewrite Hc.
      * apply andb_true_iff in H as [H0 H]. destruct (IH true H) as [H1 H2].
        split; [|exact H2].
        change (dashes_apart b (c :: e :: t))
          with (if a_z0_9 c then dashes_apart false (e :: t)
                else is_dash c && negb b && dashes_apart true (e :: t)).
        by rewrite Hc, H0, H1.
Qed.

Lemma slug_kebab (toLowerCase : JsString → JsString) (name : JsString) :
  kebab (slug toLowerCase name) = true.
Proof.
  unfold kebab, slug.
  destruct (strip_end_apart true
              (strip_start (replace_runs false (toLowerCase name)))) as [H1 H2].
  { apply strip_start_apart, replace_runs_apart. }
  by rewrite H1, H2.
Qed.

Lemma dashes_apart_units (b : bool) (s : JsString) (c : N) :
  dashes_apart b s = true → c ∈ s → a_z0_9 c = true ∨ c = dash.
Proof.
  revert b. induction s as [|d s IH]; intros b H Hin; simpl in *.
  - by apply elem_of_nil in Hin.
  - apply elem_of_cons in Hin as [->|Hin].
    + destruct (a_z0_9 d); [by left|]. right.
      apply andb_true_iff in H as [H _]. apply andb_true_iff in H as [H _].
      by apply is_dash_true.
    + destruct (a_z0_9 d); [by eapply IH|].
      apply andb_true_iff in H as [_ H]. by eapply IH.
Qed.

Lemma ends_with_dash_snoc (t : JsString) : ends_with_dash (t ++ [dash])%list = true.
Proof.
  induction t as [|c t IH]; [done|].
  destruct t as [|d t]; [done|]. exact IH.
Qed.

Lemma dashes_apart_pair (b : bool) (t1 t2 : JsString) :
  dashes_apart b (t1 ++ dash :: dash :: t2)%list = false.
Proof.
  revert b. induction t1 as [|c t1 IH]; intros b.
  - simpl. by rewrite andb_false_r.
  - simpl. rewrite !IH. destruct (a_z0_9 c); [done|]. by rewrite andb_false_r.
Qed.

(** X16. Whatever the name and whatever [toLowerCase] makes of it, the
    slug is made of the letters a-z, the digits and dashes only; it
    neither begins nor ends with a dash, and no two of its dashes are
    adjacent. *)
Theorem slug_shape (toLowerCase : JsString → JsString) (name : JsString) :
  (∀ c, c ∈ slug toLowerCase name → a_z0_9 c = true ∨ c = dash)
  ∧ (∀ t, slug toLowerCase name ≠ dash :: t)
  ∧ (∀ t, slug toLowerCase name ≠ (t ++ [dash])%list)
  ∧ (∀ t1 t2, slug toLowerCase name ≠ (t1 ++ dash :: dash :: t2)%list).
Proof.
  pose proof (slug_kebab toLowerCase name) as H. unfold kebab in H.
  apply andb_true_iff in H as [H1 H2]. apply negb_true_iff in H2.
  repeat split.
  - intros c. by apply dashes_apart_units with true.
  - intros t Ht. rewrite Ht in H1. done.
  - intros t Ht. rewrite Ht, ends_with_dash_snoc in H2. done.
  - intros t1 t2 Ht. rewrite Ht, dashes_apart_pair in H1. done.
Qed.

Lemma slug_shape_witness :
  slug ascii_lower (units "  Acme, Inc. (EU)") = units "acme-inc-eu"
  ∧ ∀ t, units "acme-inc-eu" ≠ (t ++ [dash])%list.
Proof.
  split; [by vm_compute|].
  destruct (slug_shape ascii_lower (units "  Acme, Inc. (EU)")) as (_ & _ & H & _).
  exact H.
Defined.

Lemma replace_runs_fixes (b : bool) (s : JsString) :
  dashes_apart b s = true → replace_runs b s = s.
Proof.
  revert b. induction s as [|c s IH]; intros b H; [done|]. simpl in *.
  destruct (a_z0_9 c) eqn:Hc.
  - by rewrite (IH false).
  - apply andb_true_iff in H as [H0 H]. apply andb_true_iff in H0 as [H0 Hb].
    destruct b; [done|]. apply is_dash_true in H0 as ->. by rewrite (IH true).
Qed.

Lemma strip_start_fixes (s : JsString) :
  dashes_apart true s = true → strip_start s = s.
Proof.
  destruct s as [|c s]; [done|]. simpl. destruct (is_dash c) eqn:Hd; [|done].
  apply is_dash_true in Hd as ->. done.
Qed.

Lemma strip_end_fixes (s : JsString) :
  ends_with_dash s = false → strip_end s = s.
Proof.
  induction s as [|c s IH]; [done|]. destruct s as [|d s].
  - simpl. by intros ->.
  - intros H. change (strip_end (c :: d :: s)) with (c :: strip_end (d :: s)).
    by rewrite IH.
Qed.

(** The two replacements leave a string of words joined by single dashes
    as it is. *)
Lemma replacements_fix_kebab (s : JsString) :
  kebab s = true → strip_end (strip_start (replace_runs false s)) = s.
Proof.
  unfold kebab. intros H. apply andb_true_iff in H as [H1 H2].
  apply negb_true_iff in H2.
  rewrite replace_runs_fixes by by apply dashes_apart_weaken.
  rewrite strip_start_fixes by done. by apply strip_end_fixes.
Qed.

Lemma ascii_lower_apart (b : bool) (t : JsString) :
  dashes_apart b t = true → ascii_lower t = t.
Proof.
  revert b. induction t as [|c t IH]; intros b H; [done|].
  unfold ascii_lower in *. simpl in *.
  assert (Hc : (if (65 <=? c)%N && (c <=? 90)%N then (c + 32)%N else c) = c).
  { destruct (a_z0_9 c) eqn:Hc.
    - unfold a_z0_9 in Hc.
      destruct (N.leb_spec 65 c), (N.leb_spec c 90); simpl; try done.
      destruct (N.leb_spec 97 c), (N.leb_spec c 122), (N.leb_spec 48 c),
        (N.leb_spec c 57); simpl in Hc; try done; lia.
    - apply andb_true_iff in H as [H _]. apply andb_true_iff in H as [H _].
      by apply is_dash_true in H as ->. }
  rewrite Hc. f_equal.
  destruct (a_z0_9 c); [by apply (IH false)|].
  apply andb_true_iff in H as [_ H]. by apply (IH true).
Qed.

Lemma ascii_lower_kebab (t : JsString) : kebab t = true → ascii_lower t = t.
Proof.
  unfold kebab. intros H. apply andb_true_iff in H as [H _].
  by apply (ascii_lower_apart true).
Qed.

(** X17. For a [toLowerCase] that leaves words of the letters a-z and
    digits joined by single dashes as they are, as the lower-casing of the
    language does, taking the slug twice is taking it once, and the
    strings that are their own slug are exactly those words joined by
    single dashes.  Without the assumption, applying the two replacements
    again to a slug changes nothing. *)
Theorem slug_idempotent (toLowerCase : JsString → JsString) (name : JsString) :
  strip_end (strip_start (replace_runs false (slug toLowerCase name)))
  = slug toLowerCase name
  ∧ ((∀ t, kebab t = true → toLowerCase t = t) →
     slug toLowerCase (slug toLowerCase name) = slug toLowerCase name
     ∧ (slug toLowerCase name = name ↔ kebab name = true)).
Proof.
  pose proof (slug_kebab toLowerCase name) as Hk.
  split; [by apply replacements_fix_kebab|].
  intros Hlower. split.
  - unfold slug at 1. rewrite (Hlower _ Hk). by apply replacements_fix_kebab.
  - split; [by intros <-|].
    intros H. unfold slug. rewrite (Hlower _ H). by apply replacements_fix_kebab.
Qed.

Lemma slug_idempotent_witness :
  slug ascii_lower (units "ACME inc") = units "acme-inc"
  ∧ slug ascii_lower (units "acme-inc") = units "acme-inc".
Proof.
  split; [by vm_compute|].
  destruct (slug_idempotent ascii_lower (units "acme-inc")) as [_ H].
  destruct (H ascii_lower_kebab) as [_ [_ Hfix]]. by apply Hfix.
Defined.

Lemma replace_runs_class (b : bool) (s : JsString) :
  List.filter a_z0_9 (replace_runs b s) = List.filter a_z0_9 s.
Proof.
  revert b. induction s as [|c s IH]; intros b; [done|]. simpl.
  destruct (a_z0_9 c) eqn:Hc; simpl.
  - by rewrite Hc, IH.
  - destruct b; simpl; by rewrite IH.
Qed.

Lemma strip_start_class (s : JsString) :
  List.filter a_z0_9 (strip_start s) = List.filter a_z0_9 s.
Proof.
  destruct s as [|c s]; [done|]. simpl. destruct (is_dash c) eqn:Hd; [|done].
  by apply is_dash_true in Hd as ->.
Qed.

Lemma strip_end_class (s : JsString) :
  List.filter a_z0_9 (strip_end s) = List.filter a_z0_9 s.
Proof.
  induction s as [|c s IH]; [done|]. destruct s as [|d s].
  - simpl. destruct (is_dash c) eqn:Hd; [|done].
    by apply is_dash_true in Hd as ->.
  - change (strip_end (c :: d :: s)) with (c :: strip_end (d :: s)).
    change (List.filter a_z0_9 (c :: ?l))
      with (if a_z0_9 c then c :: List.filter a_z0_9 l else List.filter a_z0_9 l).
    by rewrite IH.
Qed.

Lemma slug_class (toLowerCase : JsString → JsString) (name : JsString) :
  List.filter a_z0_9 (slug toLowerCase name)
  = List.filter a_z0_9 (toLowerCase name).
Proof.
  unfold slug. by rewrite strip_end_class, strip_start_class, replace_runs_class.
Qed.

Lemma no_class_unit (s : JsString) :
  List.filter a_z0_9 s = [] ↔ ∀ c, c ∈ s → a_z0_9 c = false.
Proof.
  induction s as [|c s IH]; simpl.
  - split; [|done]. intros _ c Hc. by apply elem_of_nil in Hc.
  - destruct (a_z0_9 c) eqn:Hc.
    + split; [done|]. intros H. rewrite (H c) in Hc; [done|]. apply elem_of_cons.
      by left.
    + rewrite IH. split.
      * intros H d Hd. apply elem_of_cons in Hd as [->|Hd]; [done|]. by apply H.
      * intros H d Hd. apply H, elem_of_cons. by right.
Qed.

Lemma kebab_without_class (s : JsString) :
  dashes_apart true s = true → List.filter a_z0_9 s = [] → s = [].
Proof.
  destruct s as [|c s]; [done|]. simpl.
  destruct (a_z0_9 c); [by intros _ ?|]. by rewrite andb_false_r.
Qed.

(** X18. The slug keeps the code units of the class [a-z0-9] of the
    lower-cased name, in their order, and keeps no other unit of it; so
    the slug is empty exactly when the lower-cased name has no unit of the
    class, whether or not the name is empty. *)
Theorem slug_keeps_the_words (toLowerCase : JsString → JsString)
    (name : JsString) :
  List.filter a_z0_9 (slug toLowerCase name)
  = List.filter a_z0_9 (toLowerCase name)
  ∧ (slug toLowerCase name = []
     ↔ ∀ c, c ∈ toLowerCase name → a_z0_9 c = false).
Proof.
  split; [apply slug_class|]. rewrite <- no_class_unit, <- slug_class. split.
  - by intros ->.
  - apply kebab_without_class. pose proof (slug_kebab toLowerCase name) as H.
    unfold kebab in H. by apply andb_true_iff in H as [H _].
Qed.

Lemma slug_keeps_the_words_witness :
  slug ascii_lower (units "?!") = [] ∧ slug ascii_lower (units "#1") ≠ [].
Proof.
  split.
  - destruct (slug_keeps_the_words ascii_lower (units "?!")) as [_ [_ H]].
    apply H. intros c Hc.
    apply elem_of_cons in Hc as [->|Hc]; [done|].
    apply elem_of_cons in Hc as [->|Hc]; [done|]. by apply elem_of_nil in Hc.
  - destruct (slug_keeps_the_words ascii_lower (units "#1")) as [_ [H _]].
    intros Hs. specialize (H Hs 49%N). discriminate H.
    apply elem_of_cons. right. apply elem_of_cons. by left.
Defined.

(** ** The status of the answer to a refused request *)

Ltac refusal_done := unfold refusal; simpl; by repeat constructor.

Tactic Notation "pass" constr(Hreads) "as" ident(x) ident(E) "or" constr(lem) :=
  read_step Hreads as x E; [|simpl; intros [= <-]; by eapply lem].

Lemma authenticate_refusal auth (db : Db) (e : Thrown) :
  authenticate auth db = (Throw e, db) → refusal e.
Proof.
  destruct auth as [| |u]; simpl; try (intros [= <-]; refusal_done).
  unfold bind, gets. destruct (bool_decide _); simpl; [discriminate|].
  intros [= <-]. refusal_done.
Qed.

Lemma requireOrg_refusal (u orgId : string) (db : Db) (e : Thrown) :
  requireOrg u orgId db = (Throw e, db) → refusal e.
Proof.
  unfold requireOrg. destruct (bool_decide _); [intros [= <-]; refusal_done|].
  unfold bind, orgMembership_findUnique, gets.
  destruct (orgMembership db !! _); simpl; [discriminate|].
  intros [= <-]. refusal_done.
Qed.

Lemma requireRole_refusal (allowed : list string) (role : string) (db : Db)
    (e : Thrown) :
  requireRole allowed role db = (Throw e, db) → refusal e.
Proof.
  unfold requireRole. destruct (includes allowed role); simpl; [discriminate|].
  intros [= <-]. refusal_done.
Qed.

Lemma safeParse_refusal (errs : list string) (db : Db) (e : Thrown) :
  safeParse errs db = (Throw e, db) → refusal e.
Proof. destruct errs; simpl; [discriminate|]. intros [= <-]. refusal_done. Qed.

Lemma ticket_of_org_refusal (id orgId : string) (db : Db) (e : Thrown) :
  ticket_of_org id orgId db = (Throw e, db) → refusal e.
Proof.
  unfold ticket_of_org, bind, ticket_findUnique, gets.
  destruct (ticket db !! id) as [row|]; [|intros [= <-]; refusal_done].
  destruct (bool_decide _); simpl; [discriminate|]. intros [= <-]. refusal_done.
Qed.

Lemma title_description_refusal role body row (c : Changes) (db : Db) (e : Thrown) :
  title_description role body row c db = (Throw e, db) → refusal e.
Proof.
  unfold title_description.
  destruct (truthy (PatchBody.title body) || truthy (PatchBody.description body));
    [|discriminate].
  destruct (hasRole role ["OWNER"; "ADMIN"]); simpl; [discriminate|].
  intros [= <-]. refusal_done.
Qed.

Lemma status_transition_refusal role body row now (c : Changes) (db : Db)
    (e : Thrown) :
  status_transition role body row now c db = (Throw e, db) → refusal e.
Proof.
  unfold status_transition.
  destruct (PatchBody.status body) as [s|]; [|discriminate].
  destruct (truthy (Some s) && negb (bool_decide (s = Ticket.status row)));
    [|discriminate].
  unfold bind, lift, validateStatusTransition.
  destruct (bool_decide (role = "VIEWER")); [intros [= <-]; refusal_done|].
  destruct (includes _ s); simpl; [discriminate|]. intros [= <-]. refusal_done.
Qed.

Lemma assignee_member_refusal (a : option string) (orgId : string) (db : Db)
    (e : Thrown) :
  (if truthy a then
     let* assignee := orgMembership_findUnique (default "" a) orgId in
     match assignee with
     | None =>
         throw (ValidationError "Assignee is not a member of this organization"
                  Err.null)
     | Some _ => ret tt
     end
   else ret tt) db = (Throw e, db) → refusal e.
Proof.
  destruct (truthy a); [|discriminate].
  unfold bind, orgMembership_findUnique, gets.
  destruct (orgMembership db !! _); simpl; [discriminate|].
  intros [= <-]. refusal_done.
Qed.

Lemma assignee_member_returns (a : option string) (orgId : string) (db : Db)
    (x : unit) :
  (if truthy a then
     let* assignee := orgMembership_findUnique (default "" a) orgId in
     match assignee with
     | None =>
         throw (ValidationError "Assignee is not a member of this organization"
                  Err.null)
     | Some _ => ret tt
     end
   else ret tt) db = (Return x, db) →
  truthy a = true → is_Some (orgMembership db !! (default "" a, orgId)).
Proof.
  intros H Ht. rewrite Ht in H. revert H.
  unfold bind, orgMembership_findUnique, gets.
  by destruct (orgMembership db !! _).
Qed.

Lemma assignee_change_refusal orgId body row (c : Changes) (db : Db) (e : Thrown) :
  assignee_change orgId body row c db = (Throw e, db) → refusal e.
Proof.
  unfold assignee_change. destruct (PatchBody.assigneeId body) as [a|];
    [|discriminate].
  read_step (assignee_member_reads a orgId) as ok Ea.
  - by destruct (negb _).
  - intros [= <-]. by eapply assignee_member_refusal.
Qed.

(** The foreign key of a named assignee holds when the assignee is a
    member, the empty name apart. *)
Lemma assignee_fkey_member (a : option string) (orgId : string) (db : Db) :
  members_are_users db → a ≠ Some "" →
  (truthy a = true → is_Some (orgMembership db !! (default "" a, orgId))) →
  assignee_fkey a db = true.
Proof.
  intros Hfk Hne Hm. destruct a as [s|]; [|done]. simpl.
  destruct Hm as [r Hr].
  { simpl. rewrite bool_decide_eq_false_2; [done|]. by intros ->. }
  apply bool_decide_eq_true_2. exact (Hfk (s, orgId) r Hr).
Qed.

Lemma ticket_update_runs (id : string) (u : UpdateData.t) (now : Z) (db : Db)
    (row : Ticket.t) :
  ticket db !! id = Some row →
  assignee_fkey (default None (UpdateData.assigneeId u)) db = true →
  ticket_update id u now db
  = (Return (write_update u now row),
     with_ticket (<[id := write_update u now row]> (ticket db)) db).
Proof.
  intros Hrow Hfk. unfold ticket_update, bind, ticket_findUnique, gets.
  by rewrite Hrow, Hfk.
Qed.

Lemma patchTicket_refusal w auth (orgId id : string) (body : PatchBody.t) (now : Z)
    (db : Db) (e : Thrown) :
  members_are_users db → PatchBody.assigneeId body ≠ Some (Some "") →
  (patchTicket w auth orgId id body now db).1 = Throw e → refusal e.
Proof.
  intros Hfk Hne. unfold patchTicket.
  pass (authenticate_reads auth) as u Eu or authenticate_refusal.
  pass (requireOrg_reads u orgId) as role Er or requireOrg_refusal.
  pass (safeParse_reads (patchSchema body)) as ok Es or safeParse_refusal.
  apply safeParse_returns in Es.
  pass (ticket_of_org_reads id orgId) as row Et or ticket_of_org_refusal.
  apply ticket_of_org_returns in Et as [Hrow Horg].
  destruct (title_description_frame role body row (UpdateData.empty, [])) as [R1 F1].
  pass R1 as c1 E1 or title_description_refusal.
  destruct (status_transition_spec role body row now c1
              (λ s, patchSchema_status body s Es)) as [R2 _].
  { by apply (F1 db). }
  pass R2 as c2 E2 or status_transition_refusal.
  destruct (assignee_change_frame orgId body row c2) as [R3 _].
  pass R3 as c3 E3 or assignee_change_refusal.
  apply title_description_returns in E1 as (G1 & _).
  apply status_transition_returns in E2 as (G2 & _).
  apply assignee_change_returns in E3 as (_ & _ & Ha).
  destruct (requiresApproval_change_spec body row c3) as (G4 & _).
  destruct (requiresApproval_change body row c3) as [updateData metadata].
  simpl in G4. simpl.
  case_bool_decide as Hk; [discriminate|].
  assert (Hkey : assignee_fkey (default None (UpdateData.assigneeId updateData)) db
                 = true).
  { unfold beside_text, beside_status, beside_approval in *. simpl in *.
    injection G4 as _ _ _ _ _ ->. injection G2 as _ _ Fa2 _.
    injection G1 as _ _ _ Fa1 _.
    destruct (PatchBody.assigneeId body) as [a|].
    2:{ by rewrite Ha, Fa2, Fa1. }
    destruct Ha as [Hmem ->]. case_bool_decide; [by rewrite Fa2, Fa1|].
    simpl. apply (assignee_fkey_member a orgId); [done| |done].
    intros ->. by apply Hne. }
  rewrite (bind_return _ _ _ _ _ (ticket_update_runs _ _ _ _ _ Hrow Hkey)).
  match goal with
  | |- context [bind (createAuditLog w ?d) (λ _, ret ?a) ?s] =>
      destruct (audit_then_ret w d a s) as (db2 & -> & _)
  end.
  discriminate.
Qed.

Lemma createTicket_refusal w auth (orgId : string) (body : CreateBody.t)
    (newId : string) (now : Z) (db : Db) (e : Thrown) :
  members_are_users db → CreateBody.assigneeId body ≠ Some "" →
  ticket db !! newId = None →
  (createTicket w auth orgId body newId now db).1 = Throw e → refusal e.
Proof.
  intros Hfk Hne Hnew. unfold createTicket.
  pass (authenticate_reads auth) as u Eu or authenticate_refusal.
  pass (requireOrg_reads u orgId) as role Er or requireOrg_refusal.
  pass (safeParse_reads (createSchema body)) as ok Es or safeParse_refusal.
  pass (assignee_member_reads (CreateBody.assigneeId body) orgId) as ok' Ea
    or assignee_member_refusal.
  pose proof (assignee_member_returns _ _ _ _ Ea) as Hm.
  match goal with
  | |- context [ticket_create ?a ?b ?c ?d ?e ?f ?g ?h ?i] =>
      destruct (ticket_create_cases a b c d e f g h i db)
        as [(_ & _ & r & Hc & _)|([Ht|Hk] & _)]
  end.
  - rewrite (bind_return _ _ _ _ _ Hc).
    match goal with
    | |- context [bind (createAuditLog w ?d) (λ _, ret ?a) ?s] =>
        destruct (audit_then_ret w d a s) as (db2 & -> & _)
    end.
    discriminate.
  - done.
  - by rewrite (assignee_fkey_member _ orgId db Hfk Hne Hm) in Hk.
Qed.

Lemma reading_routes_refusal auth (orgId : string) (db : Db) (e : Thrown) :
  (∀ q, (listTickets auth orgId q db).1 = Throw e → refusal e)
  ∧ (∀ id, (getTicket auth orgId id db).1 = Throw e → refusal e).
Proof.
  split.
  - intros q. unfold listTickets.
    pass (authenticate_reads auth) as u Eu or authenticate_refusal.
    pass (requireOrg_reads u orgId) as role Er or requireOrg_refusal.
    pass (safeParse_reads (listSchema q)) as ok Es or safeParse_refusal.
    discriminate.
  - intros id. unfold getTicket.
    pass (authenticate_reads auth) as u Eu or authenticate_refusal.
    pass (requireOrg_reads u orgId) as role Er or requireOrg_refusal.
    destruct (ticket_of_org id orgId db) as [[r|e'] db1] eqn:Et; [discriminate|].
    pose proof (ticket_of_org_reads id orgId db) as Hr. rewrite Et in Hr.
    simpl in Hr. subst db1. simpl. intros [= <-].
    by eapply ticket_of_org_refusal.
Qed.

Lemma deleteTicket_refusal w auth (orgId id : string) (db : Db) (e : Thrown) :
  (deleteTicket w auth orgId id db).1 = Throw e →
  refusal e
  ∨ (e = StoreErr "Transaction already closed"
     ∧ ∃ u row, auth = bearer u ∧ ticket db !! id = Some row
                ∧ is_Some (w (delete_entry orgId u id (Ticket.title row))
                             (auditLog db))).
Proof.
  unfold deleteTicket.
  read_step (authenticate_reads auth) as u Eu;
    [|simpl; intros [= <-]; left; by eapply authenticate_refusal].
  read_step (requireOrg_reads u orgId) as role Er;
    [|simpl; intros [= <-]; left; by eapply requireOrg_refusal].
  read_step (λ db, requireRole_reads ["OWNER"; "ADMIN"] role db) as ok Ea;
    [|simpl; intros [= <-]; left; by eapply requireRole_refusal].
  read_step (ticket_of_org_reads id orgId) as row Et;
    [|simpl; intros [= <-]; left; by eapply ticket_of_org_refusal].
  apply ticket_of_org_returns in Et as [Hrow _].
  apply (f_equal fst) in Eu. apply authenticate_returns in Eu as [-> _].
  match goal with
  | |- context [delete_with_audit w id ?d] =>
      destruct (delete_with_audit_cases w id d db row Hrow)
        as [(rows & Hw & Hd)|(_ & Hd)]
  end.
  - rewrite (bind_throw _ _ _ _ _ Hd). simpl. intros [= <-]. right.
    split; [done|]. exists u, row. split; [done|]. split; [done|].
    unfold delete_entry. by rewrite Hw.
  - rewrite (bind_return _ _ _ _ _ Hd). discriminate.
Qed.

(** X19. On a store whose memberships belong to stored users, the list,
    get, create and update routes of tickets never answer with a server
    error, whoever asks and whatever the body, as long as the assignee
    named by the body is not the empty string and the identifier of a new
    ticket is not taken: a request that is not served is answered 400,
    401, 403 or 404.  The delete route answers in the same way up to its
    transaction; its one other error is that of the expired transaction,
    for a stored ticket whose entry the audit table accepts. *)
Theorem ticket_routes_refuse_with_4xx w auth (orgId : string) (db : Db)
    (e : Thrown) :
  members_are_users db →
  (∀ q, (listTickets auth orgId q db).1 = Throw e → refusal e)
  ∧ (∀ id, (getTicket auth orgId id db).1 = Throw e → refusal e)
  ∧ (∀ id, (deleteTicket w auth orgId id db).1 = Throw e →
       refusal e
       ∨ (e = StoreErr "Transaction already closed"
          ∧ ∃ u row, auth = bearer u ∧ ticket db !! id = Some row
                     ∧ is_Some (w (delete_entry orgId u id (Ticket.title row))
                                  (auditLog db))))
  ∧ (∀ id body now,
       PatchBody.assigneeId body ≠ Some (Some "") →
       (patchTicket w auth orgId id body now db).1 = Throw e → refusal e)
  ∧ (∀ body newId now,
       CreateBody.assigneeId body ≠ Some "" → ticket db !! newId = None →
       (createTicket w auth orgId body newId now db).1 = Throw e → refusal e).
Proof.
  intros Hfk. destruct (reading_routes_refusal auth orgId db e) as [Hl Hg].
  split; [exact Hl|]. split; [exact Hg|].
  split; [intros id; apply deleteTicket_refusal|].
  split.
  - intros id body now. by apply patchTicket_refusal.
  - intros body newId now. by apply createTicket_refusal.
Qed.

Lemma ticket_routes_refuse_with_4xx_witness :
  members_are_users Sample.db
  ∧ refusal (AppErr (NotFoundError "Ticket not found"))
  ∧ refusal (AppErr (ValidationError "Cannot transition from IN_PROGRESS to OPEN"
                       (Err.transition "IN_PROGRESS" "OPEN" ["RESOLVED"; "CLOSED"]))).
Proof.
  assert (H : members_are_users Sample.db) by by_computation.
  split; [exact H|]. split.
  - destruct (ticket_routes_refuse_with_4xx Sample.audit_up (bearer "alice") "acme"
                Sample.db (AppErr (NotFoundError "Ticket not found")) H)
      as (_ & Hg & _).
    apply (Hg "t9"). by vm_compute.
  - destruct (ticket_routes_refuse_with_4xx Sample.audit_up (bearer "carol") "acme"
                Sample.db
                (AppErr (ValidationError "Cannot transition from IN_PROGRESS to OPEN"
                           (Err.transition "IN_PROGRESS" "OPEN"
                              ["RESOLVED"; "CLOSED"]))) H)
      as (_ & _ & _ & Hp & _).
    apply (Hp "t1" (status_only "OPEN") 5000); by vm_compute.
Defined.

(** X20. The empty string as assignee passes the schema and skips the
    membership check of both routes, so that the statement reaches the
    store and fails on the foreign key of the assignee: a member who sends
    it gets a server error, status 500, and nothing is written. *)
Theorem empty_assignee_is_a_server_error w (u orgId : string) (db : Db) :
  u ∈ user db → orgId ≠ "" → is_Some (orgMembership db !! (u, orgId)) →
  "" ∉ user db →
  let fkey := StoreErr "Foreign key constraint failed: Ticket_assigneeId_fkey" in
  response_status fkey = 500
  ∧ (∀ id row now,
       ticket db !! id = Some row → Ticket.organizationId row = orgId →
       Ticket.assigneeId row ≠ Some "" →
       patchTicket w (bearer u) orgId id (assignee_only (Some "")) now db
       = (Throw fkey, db))
  ∧ (∀ body newId now,
       createSchema body = [] → CreateBody.assigneeId body = Some "" →
       ticket db !! newId = None →
       createTicket w (bearer u) orgId body newId now db = (Throw fkey, db)).
Proof.
  intros Hu Ho [role Hm] Hno fkey. split; [done|]. split.
  - intros id row now Hrow Horg Ha. unfold patchTicket.
    rewrite (bind_return _ _ _ _ _ (authenticate_bearer _ _ Hu)).
    rewrite (bind_return _ _ _ _ _ (requireOrg_member _ _ _ _ Ho Hm)).
    assert (Et : ticket_of_org id orgId db = (Return row, db)).
    { unfold ticket_of_org, bind, ticket_findUnique, gets. rewrite Hrow.
      by rewrite (bool_decide_eq_true_2 _ Horg). }
    simpl. rewrite bind_ret. rewrite (bind_return _ _ _ _ _ Et).
    unfold title_description, status_transition. simpl. rewrite !bind_ret.
    assert (Ea : assignee_change orgId (assignee_only (Some "")) row
                   (UpdateData.empty, []) db
                 = (Return (UpdateData.set_assigneeId (Some "") UpdateData.empty,
                            [("oldAssigneeId", nullable (Ticket.assigneeId row));
                             ("newAssigneeId", str "")]), db)).
    { unfold assignee_change, bind, ret. simpl.
      by rewrite (bool_decide_eq_false_2 (Some "" = Ticket.assigneeId row))
        by (by intros Heq; apply Ha). }
    rewrite (bind_return _ _ _ _ _ Ea).
    unfold requiresApproval_change. simpl.
    apply bind_throw.
    unfold ticket_update, bind, ticket_findUnique, gets. rewrite Hrow. simpl.
    by rewrite (bool_decide_eq_false_2 _ Hno).
  - intros body newId now Hs Ha Hnew. unfold createTicket.
    rewrite (bind_return _ _ _ _ _ (authenticate_bearer _ _ Hu)).
    rewrite (bind_return _ _ _ _ _ (requireOrg_member _ _ _ _ Ho Hm)).
    rewrite Hs, Ha. simpl. rewrite !bind_ret.
    apply bind_throw.
    unfold ticket_create, bind, gets. rewrite Hnew. simpl.
    by rewrite (bool_decide_eq_false_2 _ Hno).
Qed.

Lemma empty_assignee_is_a_server_error_witness :
  patchTicket Sample.audit_up (bearer "carol") "acme" "t1"
    (assignee_only (Some "")) 5000 Sample.db
  = (Throw (StoreErr "Foreign key constraint failed: Ticket_assigneeId_fkey"),
     Sample.db).
Proof.
  destruct (empty_assignee_is_a_server_error Sample.audit_up "carol" "acme"
              Sample.db) as (_ & Hp & _); [by_computation..|].
  apply (Hp "t1" (Sample.row "t1" "acme" "IN_PROGRESS" 1000 None));
    by vm_compute.
Defined.

(** ** A removal and the requests that follow *)

Lemma removeMember_returns w auth (orgId target msg : string) (db db' : Db) :
  removeMember w auth orgId target db = (Return msg, db') →
  is_Some (orgMembership db !! (target, orgId))
  ∧ user db' = user db
  ∧ orgMembership db' = delete (target, orgId) (orgMembership db)
  ∧ ticket db' = ticket db.
Proof.
  unfold removeMember.
  read_step (authenticate_reads auth) as u Eu; [|discriminate].
  read_step (requireOrg_reads u orgId) as role Er; [|discriminate].
  read_step (λ db, requireRole_reads ["OWNER"; "ADMIN"] role db) as ok Ea;
    [|discriminate].
  assert (Hg : reads (if bool_decide (target = u) then
                        let* ownerCount := orgMembership_count orgId "OWNER" in
                        if bool_decide (ownerCount = 1) then
                          throw (ValidationError "Cannot remove the only owner" Err.null)
                        else ret tt
                      else ret tt)).
  { intros db0. destruct (bool_decide (target = u)); [|done].
    unfold bind, orgMembership_count, gets. by destruct (bool_decide _). }
  read_step Hg as ok' Eg; [|discriminate].
  unfold orgMembership_delete at 1. unfold bind at 1.
  unfold bind at 1. unfold orgMembership_findUnique, gets.
  destruct (orgMembership db !! (target, orgId)) as [r|]; [|discriminate].
  unfold modify.
  match goal with
  | |- context [bind (createAuditLog w ?d) (λ _, ret ?a) ?s] =>
      destruct (audit_then_ret w d a s) as (db2 & -> & Hu & Hm & Ht)
  end.
  intros [= _ <-]. by rewrite Hu, Hm, Ht.
Qed.

(** X21. A removal that is served takes the membership and nothing else:
    the users and all the tickets stay as they were, those the removed
    member created or is assigned to included; and from then on every
    ticket route and both member routes refuse the removed member for
    that organisation, with UNAUTHORIZED or FORBIDDEN and without a
    write. *)
Theorem removal_revokes_access w auth (orgId target msg : string) (db : Db) :
  (removeMember w auth orgId target db).1 = Return msg →
  let db' := (removeMember w auth orgId target db).2 in
  let refused {A} (r : Completion A * Db) :=
    r.2 = db'
    ∧ (thrown_code r.1 = Some "UNAUTHORIZED" ∨ thrown_code r.1 = Some "FORBIDDEN") in
  is_Some (orgMembership db !! (target, orgId))
  ∧ user db' = user db
  ∧ ticket db' = ticket db
  ∧ orgMembership db' = delete (target, orgId) (orgMembership db)
  ∧ (∀ q, refused (listTickets (bearer target) orgId q db'))
  ∧ (∀ body newId now, refused (createTicket w (bearer target) orgId body newId now db'))
  ∧ (∀ id, refused (getTicket (bearer target) orgId id db'))
  ∧ (∀ id body now, refused (patchTicket w (bearer target) orgId id body now db'))
  ∧ (∀ id, refused (deleteTicket w (bearer target) orgId id db'))
  ∧ (∀ userId, refused (removeMember w (bearer target) orgId userId db'))
  ∧ (∀ userId body, refused (changeMemberRole w (bearer target) orgId userId body db')).
Proof.
  intros Hret db' refused.
  destruct (removeMember w auth orgId target db) as [c db1] eqn:E.
  simpl in Hret, db'. subst c db'.
  apply removeMember_returns in E as (Hwas & Hu & Hm & Ht).
  do 4 (split; [done|]).
  assert (Hnot : ¬ (∃ u, bearer target = bearer u ∧ u ∈ user db1
                         ∧ is_Some (orgMembership db1 !! (u, orgId)))).
  { intros (u & [= <-] & _ & Hin). rewrite Hm, lookup_delete_eq in Hin.
    by apply is_Some_None in Hin. }
  unfold refused. repeat split; intros; by apply gate_refuses.
Qed.

Lemma removal_revokes_access_witness :
  (getTicket (bearer "carol") "acme" "t1" Sample.db).1
  = Return (Sample.row "t1" "acme" "IN_PROGRESS" 1000 None)
  ∧ (thrown_code
       (getTicket (bearer "carol") "acme" "t1"
          (removeMember Sample.audit_up (bearer "alice") "acme" "carol"
             Sample.db).2).1 = Some "UNAUTHORIZED"
     ∨ thrown_code
         (getTicket (bearer "carol") "acme" "t1"
            (removeMember Sample.audit_up (bearer "alice") "acme" "carol"
               Sample.db).2).1 = Some "FORBIDDEN").
Proof.
  split; [by vm_compute|].
  destruct (removal_revokes_access Sample.audit_up (bearer "alice") "acme" "carol"
              "Member removed" Sample.db) as (_ & _ & _ & _ & _ & _ & Hg & _);
    [by vm_compute|].
  exact (proj2 (Hg "t1")).
Defined.
